(** * LensTools [constraints]: Fisher and likelihood analyses

    A shallow embedding of [lenstools/constraints.py]: the [Analysis] base
    class with its two subclasses [FisherAnalysis] and [LikelihoodAnalysis],
    and the module level functions [chi2] and [_predict].

    Conventions of the embedding.
    - The element type of the arrays is a parameter ([scalar], with the
      arithmetic the code uses); the examples at the end run it on binary64
      floats, numpy's default element type.
    - A numpy array is an [ndarray] of rank 0, 1 or 2.  A rank 2 array keeps
      its column count beside its rows, so that the shape of an array with no
      row is still known.  The training set is a rank 2 array: one flattened
      feature per model, as [np.vstack] in [add_model] builds it.
    - A method is a function from the object to an outcome and the object as
      the call leaves it: an exception keeps the attributes assigned before it
      was raised.
    - [numpy.linalg.solve], [numpy.linalg.inv], [scipy.interpolate.Rbf] and the
      [map] of a worker pool are code of other packages: they are parameters.
    - The module is Python 2: [range] and [map] return lists, and [assert]
      raises [AssertionError].
    - [gaussian_likelihood], [set_likelihood], [likelihood] and [__repr__]
      take no part in what is stated below and are left out. *)

From Stdlib Require Import String DecimalString List ZArith Bool Lia.
From Stdlib Require Floats.
Import ListNotations.

Set Implicit Arguments.

(* ================================================================== *)
(** ** Exceptions and outcomes *)

Module Py.

(** The exception classes the module can raise, with their message. *)
Inductive exn : Type :=
| AssertionError (msg : option string)
| ValueError (msg : string)
| AttributeError (msg : string)
| IndexError (msg : string)
| TypeError (msg : string)
| LinAlgError (msg : string)
| Raised (cls msg : string).

Definition exn_class (e : exn) : string :=
  match e with
  | AssertionError _ => "AssertionError"
  | ValueError _ => "ValueError"
  | AttributeError _ => "AttributeError"
  | IndexError _ => "IndexError"
  | TypeError _ => "TypeError"
  | LinAlgError _ => "LinAlgError"
  | Raised cls _ => cls
  end.

(** The outcome of an expression: an exception, or a value. *)
Inductive result (A : Type) : Type :=
| Raise (e : exn)
| Return (a : A).
Arguments Raise {A} e.
Arguments Return {A} a.

Definition rbind {A B} (r : result A) (k : A -> result B) : result B :=
  match r with
  | Raise e => Raise e
  | Return a => k a
  end.

Definition rmap {A B} (f : A -> B) (r : result A) : result B :=
  rbind r (fun a => Return (f a)).

(** [assert c, msg] and [assert c]. *)
Definition assert_msg (c : bool) (msg : string) : result unit :=
  if c then Return tt else Raise (AssertionError (Some msg)).

Definition assert_ (c : bool) : result unit :=
  if c then Return tt else Raise (AssertionError None).

Definition is_return {A} (r : result A) : bool :=
  match r with Return _ => true | Raise _ => false end.

Definition raises {A} (r : result A) (cls : string) : Prop :=
  exists e, r = Raise e /\ exn_class e = cls.

(** [map(f, l)] of Python 2: the list of the values, the first exception
    ending it. *)
Fixpoint map_ {A B} (f : A -> result B) (l : list A) : result (list B) :=
  match l with
  | [] => Return []
  | a :: l' =>
      rbind (f a) (fun b => rbind (map_ f l') (fun bs => Return (b :: bs)))
  end.

(** A method of an object of type [S]: outcome and object after the call. *)
Definition method (S A : Type) : Type := S -> result A * S.

Definition ret {S A} (a : A) : method S A := fun s => (Return a, s).

Definition bind {S A B} (m : method S A) (k : A -> method S B) : method S B :=
  fun s =>
    match m s with
    | (Raise e, s') => (Raise e, s')
    | (Return a, s') => k a s'
    end.

Definition lift {S A} (r : result A) : method S A := fun s => (r, s).

Definition gets {S A} (f : S -> A) : method S A := fun s => (Return (f s), s).

Definition modify {S} (f : S -> S) : method S unit := fun s => (Return tt, f s).

End Py.
Import Py.

Declare Scope py_scope.
Delimit Scope py_scope with py.
Notation "x <- m ;; k" := (bind m (fun x => k))
(at level 61, m at next level, right associativity) : py_scope.
Notation "m ;; k" := (bind m (fun _ => k))
(at level 61, right associativity) : py_scope.
Notation "'let*' x := r 'in' k" := (rbind r (fun x => k))
(at level 61, x name, r at next level, right associativity).

(* ================================================================== *)
(** ** Arrays *)

Section Constraints.

(** The element type, with the arithmetic of the module: [0], [1], [+],
    [-], [*], true division ([from __future__ import division]) and [==]. *)
Variable scalar : Type.
Variables s_zero s_one : scalar.
Variables s_add s_sub s_mul s_div : scalar -> scalar -> scalar.
Variable s_eq : scalar -> scalar -> bool.

(** A rank 2 array of shape [(length rows, ncols)]. *)
Record matrix : Type := Matrix { ncols : nat; rows : list (list scalar) }.

Definition nrows (m : matrix) : nat := length (rows m).

(** Every row has [ncols] entries: what numpy guarantees of any array. *)
Definition wf_matrix (m : matrix) : Prop :=
  Forall (fun r => length r = ncols m) (rows m).

Inductive ndarray : Type :=
| Arr0 (x : scalar)
| Arr1 (v : list scalar)
| Arr2 (m : matrix).

(** [a.shape], a tuple. *)
Definition shape (a : ndarray) : list nat :=
  match a with
  | Arr0 _ => []
  | Arr1 v => [length v]
  | Arr2 m => [nrows m; ncols m]
  end.

Definition ndim (a : ndarray) : nat := length (shape a).

(** [==] on tuples of integers. *)
Fixpoint shape_eqb (s t : list nat) : bool :=
  match s, t with
  | [], [] => true
  | x :: s', y :: t' => (x =? y) && shape_eqb s' t'
  | _, _ => false
  end.

(** *** Broadcasting *)

Definition map2 {A B C} (f : A -> B -> C) (x : list A) (y : list B) : list C :=
  map (fun ab => f (fst ab) (snd ab)) (combine x y).

(** The common length of two axes: equal, or one of them 1. *)
Definition bdim (a b : nat) : option nat :=
  if a =? b then Some a
  else if a =? 1 then Some b
  else if b =? 1 then Some a
  else None.

(** An axis of length 1 repeated to length [n]. *)
Definition stretch {A} (n : nat) (l : list A) : list A :=
  if length l =? n then l
  else match l with
       | [a] => repeat a n
       | _ => l
       end.

Definition broadcast_error {A} : result A :=
  Raise (ValueError "operands could not be broadcast together").

(** An elementwise operation on two rank 1 arrays. *)
Definition broadcast1 {A B C} (f : A -> B -> C) (x : list A) (y : list B)
  : result (list C) :=
  match bdim (length x) (length y) with
  | Some n => Return (map2 f (stretch n x) (stretch n y))
  | None => broadcast_error
  end.

(** An elementwise operation on two rank 2 arrays. *)
Definition broadcast2 (f : scalar -> scalar -> scalar) (a b : matrix)
  : result matrix :=
  match bdim (nrows a) (nrows b), bdim (ncols a) (ncols b) with
  | Some r, Some c =>
      Return (Matrix c
                (map2 (fun ra rb => map2 f (stretch c ra) (stretch c rb))
                   (stretch r (rows a)) (stretch r (rows b))))
  | _, _ => broadcast_error
  end.

(** [v[np.newaxis,:]] and [v[:,np.newaxis]]. *)
Definition row_matrix (v : list scalar) : matrix := Matrix (length v) [v].
Definition column_matrix (v : list scalar) : matrix :=
  Matrix 1 (map (fun x => [x]) v).

(** *** Indexing *)

(** An index of an axis of length [n]: negative indices count from the end. *)
Definition norm_index (n : nat) (i : Z) : result nat :=
  if ((0 <=? i) && (i <? Z.of_nat n))%Z then Return (Z.to_nat i)
  else if ((- Z.of_nat n <=? i) && (i <? 0))%Z then Return (Z.to_nat (Z.of_nat n + i))
  else Raise (IndexError "index out of bounds").

Definition nth_result {A} (l : list A) (i : nat) : result A :=
  match nth_error l i with
  | Some a => Return a
  | None => Raise (IndexError "index out of bounds")
  end.

(** [m[i]] *)
Definition getrow (m : matrix) (i : Z) : result (list scalar) :=
  let* k := norm_index (nrows m) i in nth_result (rows m) k.

(** [m[i,j]] *)
Definition getitem2 (m : matrix) (i j : Z) : result scalar :=
  let* r := getrow m i in
  let* k := norm_index (ncols m) j in nth_result r k.

(** [m[indices]], [indices] a list of integers. *)
Definition take_rows (m : matrix) (indices : list Z) : result matrix :=
  let* rs := map_ (getrow m) indices in Return (Matrix (ncols m) rs).

(** [m[i,indices]] *)
Definition take_in_row (m : matrix) (i : Z) (indices : list Z)
  : result (list scalar) :=
  map_ (getitem2 m i) indices.

(** [l[a:b]] for [0 <= a <= b]. *)
Definition slice {A} (l : list A) (a b : nat) : list A :=
  firstn (b - a) (skipn a l).

Fixpoint upd {A} (n : nat) (x : A) (l : list A) : list A :=
  match l, n with
  | [], _ => []
  | _ :: l', O => x :: l'
  | a :: l', S n' => a :: upd n' x l'
  end.

(** [np.zeros((r, c))] *)
Definition zeros (r c : nat) : matrix := Matrix c (repeat (repeat s_zero c) r).

(** [m[n] = v] *)
Definition setrow (m : matrix) (n : nat) (v : list scalar) : result matrix :=
  if n <? nrows m then
    match bdim (ncols m) (length v) with
    | Some c =>
        if c =? ncols m then
          Return (Matrix (ncols m) (upd n (stretch (ncols m) v) (rows m)))
        else broadcast_error
    | None => broadcast_error
    end
  else Raise (IndexError "index out of bounds").

(** [m[:,n] = v] *)
Definition setcol (m : matrix) (n : nat) (v : list scalar) : result matrix :=
  if n <? ncols m then
    match bdim (nrows m) (length v) with
    | Some r =>
        if r =? nrows m then
          Return (Matrix (ncols m)
                    (map2 (fun row x => upd n x row) (rows m) (stretch (nrows m) v)))
        else broadcast_error
    | None => broadcast_error
    end
  else Raise (IndexError "index out of bounds").

(** [np.vstack((m, v))], [v] of rank 1. *)
Definition vstack (m : matrix) (v : list scalar) : result matrix :=
  if ncols m =? length v then Return (Matrix (ncols m) (rows m ++ [v]))
  else Raise (ValueError "all the input array dimensions must match exactly").

(** *** Linear algebra *)

(** [m.transpose()] *)
Definition transpose (m : matrix) : matrix :=
  Matrix (nrows m)
    (map (fun j => map (fun r => nth j r s_zero) (rows m)) (seq 0 (ncols m))).

(** [v.sum()]: the entries added up from the left. *)
Definition vsum (v : list scalar) : scalar := fold_left s_add v s_zero.

Definition dotp (x y : list scalar) : scalar := vsum (map2 s_mul x y).

Definition dot_error {A} : result A := Raise (ValueError "shapes not aligned").

(** [np.dot(a, b)], both of rank 2. *)
Definition dot (a b : matrix) : result matrix :=
  if ncols a =? nrows b then
    Return (Matrix (ncols b)
              (map (fun r => map (dotp r) (rows (transpose b))) (rows a)))
  else dot_error.

(** [np.dot(a, v)], [a] of rank 2 and [v] of rank 1. *)
Definition dot_mv (a : matrix) (v : list scalar) : result (list scalar) :=
  if ncols a =? length v then Return (map (fun r => dotp r v) (rows a))
  else dot_error.

(** [np.dot(v, b)], [v] of rank 1 and [b] of rank 2. *)
Definition dot_vm (v : list scalar) (b : matrix) : result (list scalar) :=
  if length v =? nrows b then Return (map (dotp v) (rows (transpose b)))
  else dot_error.

(** [numpy.linalg.solve(a, b)] and [numpy.linalg.inv(a)] on rank 2 arrays. *)
Variable solve : matrix -> matrix -> result matrix.
Variable inv : matrix -> result matrix.

Definition linalg_rank_error {A} : result A :=
  Raise (LinAlgError "Array must be at least two-dimensional").

Definition np_solve (a : ndarray) (b : matrix) : result matrix :=
  match a with
  | Arr2 m => solve m b
  | _ => linalg_rank_error
  end.

Definition np_inv (a : ndarray) : result matrix :=
  match a with
  | Arr2 m => inv m
  | _ => linalg_rank_error
  end.


(* ================================================================== *)
(** ** The [Analysis] base class *)

Inductive pyclass : Type :=
| Analysis_class
| FisherAnalysis_class
| LikelihoodAnalysis_class.

(** The class attribute [_analysis_type]. *)
Definition _analysis_type (c : pyclass) : option string :=
  match c with
  | Analysis_class => None
  | FisherAnalysis_class => Some "Fisher"%string
  | LikelihoodAnalysis_class => Some "Likelihood"%string
  end.

Definition is_some {A} (o : option A) : bool :=
  match o with Some _ => true | None => false end.

Definition is_none {A} (o : option A) : bool := negb (is_some o).

(** The instance attributes of an [Analysis]: [None], or an array. *)
Record Analysis : Type := mkAnalysis {
  parameter_set : option matrix;
  training_set : option matrix
}.

(** [Analysis.__init__], run for an object of class [cls]. *)
Definition Analysis__init__ (cls : pyclass)
  (parameter_set training_set : option matrix) : result Analysis :=
  let* _ := assert_msg (is_some (_analysis_type cls))
              "Don't instantiate this class directly, use one of its subclasses!" in
  let* _ := match parameter_set, training_set with
            | Some p, Some t =>
                assert_msg (nrows p =? nrows t)
                  "There should be one feature for each of the simulated models!"
            | _, _ => Return tt
            end in
  Return (mkAnalysis parameter_set training_set).

(** [o.name] for an attribute of the array class. *)
Definition array_attr {A} (o : option A) (name : string) : result A :=
  match o with
  | Some a => Return a
  | None =>
      Raise (AttributeError
               ("'NoneType' object has no attribute '" ++ name ++ "'"))
  end.

(** [o[...]] *)
Definition array_item {A} (o : option A) : result A :=
  match o with
  | Some a => Return a
  | None => Raise (TypeError "'NoneType' object has no attribute '__getitem__'")
  end.

Local Open Scope py_scope.

Definition set_parameter_set (v : option matrix) : method Analysis unit :=
  modify (fun self => mkAnalysis v (training_set self)).

Definition set_training_set (v : option matrix) : method Analysis unit :=
  modify (fun self => mkAnalysis (parameter_set self) v).

Definition add_model (parameters feature : list scalar) : method Analysis unit :=
  ps <- gets parameter_set ;;
  match ps with
  | None =>
      ts <- gets training_set ;;
      lift (assert_ (is_none ts)) ;;
      set_parameter_set (Some (row_matrix parameters)) ;;
      set_training_set (Some (row_matrix feature))
  | Some ps =>
      lift (assert_ (length parameters =? ncols ps)) ;;
      ts <- gets training_set ;;
      ts <- lift (array_attr ts "shape") ;;
      lift (assert_ (shape_eqb [length feature] (tl (shape (Arr2 ts))))) ;;
      ps' <- lift (vstack ps parameters) ;;
      set_parameter_set (Some ps') ;;
      ts' <- lift (vstack ts feature) ;;
      set_training_set (Some ts')
  end.

(* ================================================================== *)
(** ** [FisherAnalysis] *)

Record FisherAnalysis : Type := mkFisher {
  fisher_base : Analysis;
  _fiducial : Z;
  _varied_list : option (list nat);
  derivatives : option matrix
}.

Definition new_FisherAnalysis (parameter_set training_set : option matrix)
  : result FisherAnalysis :=
  let* base := Analysis__init__ FisherAnalysis_class parameter_set training_set in
  Return (mkFisher base 0 None None).

(** A method of the base class, called on a [FisherAnalysis]. *)
Definition fisher_inherited {A} (m : method Analysis A) : method FisherAnalysis A :=
  fun self =>
    let (r, base) := m (fisher_base self) in
    (r, mkFisher base (_fiducial self) (_varied_list self) (derivatives self)).

Definition set__fiducial (n : Z) : method FisherAnalysis unit :=
  modify (fun self =>
            mkFisher (fisher_base self) n (_varied_list self) (derivatives self)).

Definition set__varied_list (l : list nat) : method FisherAnalysis unit :=
  modify (fun self =>
            mkFisher (fisher_base self) (_fiducial self) (Some l) (derivatives self)).

Definition set_derivatives (d : matrix) : method FisherAnalysis unit :=
  modify (fun self =>
            mkFisher (fisher_base self) (_fiducial self) (_varied_list self) (Some d)).

Definition format_int (n : Z) : string := NilZero.string_of_int (Z.to_int n).

Definition set_fiducial (n : Z) : method FisherAnalysis unit :=
  ps <- gets (fun self => parameter_set (fisher_base self)) ;;
  ps <- lift (array_attr ps "shape") ;;
  lift (assert_msg (n <? Z.of_nat (nrows ps))%Z
          ("There are less than " ++ format_int (n + 1)
           ++ " models in your analysis")) ;;
  set__fiducial n.

(** [range(n)] *)
Definition range (n : nat) : list Z := map Z.of_nat (seq 0 n).

(** [l.remove(x)]: without the first item equal to [x]. *)
Fixpoint list_remove (x : Z) (l : list Z) : result (list Z) :=
  match l with
  | [] => Raise (ValueError "list.remove(x): x not in list")
  | y :: l' =>
      if (y =? x)%Z then Return l'
      else let* r := list_remove x l' in Return (y :: r)
  end.

(** [enumerate(l)] *)
Definition enumerate {A} (l : list A) : list (nat * A) :=
  combine (seq 0 (length l)) l.

(** [c.sum()] for an array of booleans. *)
Definition count_true (c : list bool) : nat := length (filter (fun b => b) c).

(** [np.where(c == False)[0][0]] *)
Fixpoint first_false (c : list bool) : result nat :=
  match c with
  | [] => Raise (IndexError "index 0 is out of bounds for axis 0 with size 0")
  | b :: c' => if b then let* i := first_false c' in Return (S i) else Return 0
  end.

(** A [for] loop that carries the local variable [a]. *)
Fixpoint for_ {S I A} (l : list I) (body : I -> A -> method S A) (a : A)
  : method S A :=
  match l with
  | [] => ret a
  | i :: l' => a' <- body i a ;; for_ l' body a'
  end.

(** The body of the loop of [compute_derivatives], [derivatives] being the
    array it fills. *)
Definition derivative_step (ps ts non_fiducial_features non_fiducial_parameters : matrix)
  (fiducial : Z) (np : nat * Z) (derivatives : matrix)
  : method FisherAnalysis matrix :=
  let n := Z.of_nat (fst np) in
  row <- lift (getrow non_fiducial_parameters n) ;;
  fiducial_row <- lift (getrow ps fiducial) ;;
  comparison <- lift (broadcast1 s_eq row fiducial_row) ;;
  lift (assert_msg
          (Z.of_nat (count_true comparison) =? Z.of_nat (length comparison) - 1)%Z
          "You must vary one parameter at a time!") ;;
  varied_parameter_index <- lift (first_false comparison) ;;
  varied <- gets _varied_list ;;
  varied <- lift (array_attr varied "append") ;;
  lift (assert_msg (negb (existsb (Nat.eqb varied_parameter_index) varied))
          "You cannot vary a parameter twice!!") ;;
  set__varied_list (varied ++ [varied_parameter_index]) ;;
  feature <- lift (getrow non_fiducial_features n) ;;
  fiducial_feature <- lift (getrow ts fiducial) ;;
  difference <- lift (broadcast1 s_sub feature fiducial_feature) ;;
  p <- lift (getitem2 non_fiducial_parameters n (Z.of_nat varied_parameter_index)) ;;
  p0 <- lift (getitem2 ps fiducial (Z.of_nat varied_parameter_index)) ;;
  lift (setrow derivatives (fst np)
          (map (fun x => s_div x (s_sub p p0)) difference)).

Definition compute_derivatives : method FisherAnalysis matrix :=
  ps <- gets (fun self => parameter_set (fisher_base self)) ;;
  ps <- lift (array_attr ps "shape") ;;
  lift (assert_msg (1 <? nrows ps)
          "You need at least 2 models to proceed in a Fisher Analysis!") ;;
  set__varied_list [] ;;
  fiducial <- gets _fiducial ;;
  derivative_indices <- lift (list_remove fiducial (range (nrows ps))) ;;
  ts <- gets (fun self => training_set (fisher_base self)) ;;
  ts <- lift (array_item ts) ;;
  non_fiducial_features <- lift (take_rows ts derivative_indices) ;;
  non_fiducial_parameters <- lift (take_rows ps derivative_indices) ;;
  derivatives <-
    for_ (enumerate derivative_indices)
      (derivative_step ps ts non_fiducial_features non_fiducial_parameters fiducial)
      (zeros (nrows non_fiducial_features) (ncols non_fiducial_features)) ;;
  set_derivatives derivatives ;;
  ret derivatives.

Definition get_varied : method FisherAnalysis (list nat) :=
  d <- gets derivatives ;;
  lift (assert_msg (is_some d) "You must compute the derivatives first!") ;;
  varied <- gets _varied_list ;;
  lift (array_attr varied "_varied_list").


(** [a[:,np.newaxis]]; on a rank 2 array the outcome has rank 3 and is not
    an [ndarray] of this development: [fit] and [fisher_matrix] take this
    path after the assertion that leaves only a rank 1 array. *)
Definition newaxis_column (a : ndarray) : result matrix :=
  match a with
  | Arr0 _ => Raise (IndexError "too many indices for array")
  | Arr1 v => Return (column_matrix v)
  | Arr2 _ => Raise (Raised "Unrepresented" "array of rank 3")
  end.

(** [1/m] *)
Definition reciprocal (m : matrix) : matrix :=
  Matrix (ncols m) (map (map (s_div s_one)) (rows m)).

(** [x * m], [x] a number. *)
Definition scale (x : scalar) (m : matrix) : matrix :=
  Matrix (ncols m) (map (map (s_mul x)) (rows m)).

(** [np.dot(a, b)] and [m * a] for an argument [a] of any rank. *)
Definition dot_nd_m (a : ndarray) (b : matrix) : result ndarray :=
  match a with
  | Arr0 x => Return (Arr2 (scale x b))
  | Arr1 v => rmap Arr1 (dot_vm v b)
  | Arr2 m => rmap Arr2 (dot m b)
  end.

Definition dot_m_nd (a : matrix) (b : ndarray) : result ndarray :=
  match b with
  | Arr0 x => Return (Arr2 (scale x a))
  | Arr1 v => rmap Arr1 (dot_mv a v)
  | Arr2 m => rmap Arr2 (dot a m)
  end.

Definition mul_m_nd (m : matrix) (a : ndarray) : result matrix :=
  match a with
  | Arr0 x => Return (Matrix (ncols m) (map (map (fun y => s_mul y x)) (rows m)))
  | Arr1 v => broadcast2 s_mul m (row_matrix v)
  | Arr2 b => broadcast2 s_mul m b
  end.

(** [if not hasattr(self,"derivatives"): self.compute_derivatives()], and
    then [self.derivatives]. *)
Definition cached_derivatives : method FisherAnalysis matrix :=
  d <- gets derivatives ;;
  match d with
  | None => compute_derivatives
  | Some d => ret d
  end.

(** The array [Y] of [fit] and [fisher_matrix]: the derivatives weighted by
    a covariance that is full, or diagonal. *)
Definition weighted (covariance : ndarray) (feature_shape : list nat)
  (derivatives : matrix) : result matrix :=
  if shape_eqb (shape covariance) (feature_shape ++ feature_shape) then
    np_solve covariance (transpose derivatives)
  else
    let* c := newaxis_column covariance in
    broadcast2 s_mul (reciprocal c) (transpose derivatives).

Definition covariance_error : string :=
  "No science without the covariance matrix, you must provide one!".

Definition fit (observed_feature : list scalar) (features_covariance : option ndarray)
  : method FisherAnalysis (list scalar) :=
  lift (assert_msg (is_some features_covariance) covariance_error) ;;
  features_covariance <- lift (array_attr features_covariance "shape") ;;
  ts <- gets (fun self => training_set (fisher_base self)) ;;
  ts <- lift (array_attr ts "shape") ;;
  let observed_shape := shape (Arr1 observed_feature) in
  lift (assert_ (shape_eqb observed_shape (tl (shape (Arr2 ts))))) ;;
  lift (assert_ (shape_eqb (shape features_covariance) (observed_shape ++ observed_shape)
                 || shape_eqb (shape features_covariance) observed_shape)) ;;
  derivatives <- cached_derivatives ;;
  Y <- lift (weighted features_covariance observed_shape derivatives) ;;
  XY <- lift (dot derivatives Y) ;;
  M <- lift (solve XY (transpose Y)) ;;
  fiducial <- gets _fiducial ;;
  fiducial_feature <- lift (getrow ts fiducial) ;;
  difference <- lift (broadcast1 s_sub observed_feature fiducial_feature) ;;
  dP <- lift (dot_mv M difference) ;;
  ps <- gets (fun self => parameter_set (fisher_base self)) ;;
  ps <- lift (array_item ps) ;;
  varied <- gets _varied_list ;;
  varied <- lift (array_attr varied "_varied_list") ;;
  fiducial_parameters <- lift (take_in_row ps fiducial (map Z.of_nat varied)) ;;
  lift (broadcast1 s_add fiducial_parameters dP).

Definition fisher_matrix (simulated_features_covariance : option ndarray)
  (observed_features_covariance : option ndarray)
  : method FisherAnalysis matrix :=
  lift (assert_msg (is_some simulated_features_covariance) covariance_error) ;;
  simulated_features_covariance <-
    lift (array_attr simulated_features_covariance "shape") ;;
  ts <- gets (fun self => training_set (fisher_base self)) ;;
  ts <- lift (array_attr ts "shape") ;;
  let feature_shape := tl (shape (Arr2 ts)) in
  lift (assert_ (shape_eqb (shape simulated_features_covariance)
                   (feature_shape ++ feature_shape)
                 || shape_eqb (shape simulated_features_covariance) feature_shape)) ;;
  derivatives <- cached_derivatives ;;
  Y <- lift (weighted simulated_features_covariance feature_shape derivatives) ;;
  XY <- lift (dot derivatives Y) ;;
  match observed_features_covariance with
  | None => ret XY
  | Some observed_features_covariance =>
      lift (assert_ (shape_eqb (shape observed_features_covariance)
                       (feature_shape ++ feature_shape)
                     || shape_eqb (shape observed_features_covariance) feature_shape)) ;;
      M <- lift (solve XY (transpose Y)) ;;
      parameter_covariance <-
        lift (if shape_eqb (shape observed_features_covariance)
                   (feature_shape ++ feature_shape)
              then
                let* c := dot_nd_m observed_features_covariance (transpose M) in
                dot_m_nd M c
              else
                let* c := mul_m_nd M observed_features_covariance in
                rmap Arr2 (dot c (transpose M))) ;;
      lift (np_inv parameter_covariance)
  end.


(* ================================================================== *)
(** ** Interpolation and the module level [chi2] *)

(** [scipy.interpolate.Rbf], called with its arguments unpacked: from the coordinates of the
    nodes (one array per parameter), the values at the nodes and the keyword
    arguments, an exception or an interpolator; an interpolator is a function
    of a point, and called on arrays of coordinates it gives its value at
    each point. *)
Variable keywords : Type.
Variable no_keywords : keywords.
Definition interpolator : Type := list scalar -> scalar.
Variable Rbf : list (list scalar) -> list scalar -> keywords -> result interpolator.

(** An [_interpolate_wrapper] around [Rbf]. *)
Record _interpolate_wrapper : Type := mk_interpolate_wrapper {
  wrapper_nodes : list (list scalar);
  wrapper_values : list scalar;
  wrapper_kwargs : keywords
}.

(** [_interpolate_wrapper.__call__]: the exception of a failed construction
    is printed and raised again. *)
Definition call_wrapper (w : _interpolate_wrapper) : result interpolator :=
  Rbf (wrapper_nodes w) (wrapper_values w) (wrapper_kwargs w).

(** [f] called on the unpacked rows of the rank 2 array [coordinates]. *)
Definition call_interpolator (f : interpolator) (coordinates : matrix) : list scalar :=
  map f (rows (transpose coordinates)).

(** A [for] loop of a function, carrying the local variable [a]. *)
Fixpoint for_result {I A} (l : list I) (body : I -> A -> result A) (a : A)
  : result A :=
  match l with
  | [] => Return a
  | i :: l' => let* a' := body i a in for_result l' body a'
  end.

Definition shape_index_error {A} : result A :=
  Raise (IndexError "tuple index out of range").

Definition _predict (parameters : ndarray) (num_bins : nat)
  (interpolator : list _interpolate_wrapper) : result ndarray :=
  match parameters with
  | Arr1 point =>
      let* interpolated_feature :=
        for_result (seq 0 num_bins)
          (fun n interpolated_feature =>
             let* w := nth_result interpolator n in
             let* f := call_wrapper w in
             if n <? length interpolated_feature
             then Return (upd n (f point) interpolated_feature)
             else Raise (IndexError "index out of bounds"))
          (repeat s_zero num_bins) in
      Return (Arr1 interpolated_feature)
  | Arr2 points =>
      let* interpolated_feature :=
        for_result (seq 0 num_bins)
          (fun n interpolated_feature =>
             let* w := nth_result interpolator n in
             let* f := call_wrapper w in
             setcol interpolated_feature n
               (call_interpolator f (transpose points)))
          (zeros (nrows points) num_bins) in
      Return (Arr2 interpolated_feature)
  | Arr0 _ => shape_index_error
  end.

(** The keyword arguments of the module level [chi2]. *)
Record chi2_kwargs : Type := mk_chi2_kwargs {
  kw_num_bins : nat;
  kw_interpolator : list _interpolate_wrapper;
  kw_inverse_covariance : matrix;
  kw_observed_feature : list scalar
}.

(** The module level function [chi2]. *)
Definition chi2 (parameters : ndarray) (kwargs : chi2_kwargs) : result ndarray :=
  let* model_feature :=
    _predict parameters (kw_num_bins kwargs) (kw_interpolator kwargs) in
  let inverse_covariance := kw_inverse_covariance kwargs in
  match model_feature with
  | Arr1 model_feature =>
      let observed_feature := kw_observed_feature kwargs in
      let* difference := broadcast1 s_sub observed_feature model_feature in
      let* inverse_covariance_dot := dot_vm difference inverse_covariance in
      let* difference' := broadcast1 s_sub observed_feature model_feature in
      let* product := broadcast1 s_mul difference' inverse_covariance_dot in
      Return (Arr0 (vsum product))
  | Arr2 model_feature =>
      let observed_feature := row_matrix (kw_observed_feature kwargs) in
      let* difference := broadcast2 s_sub observed_feature model_feature in
      let* inverse_covariance_dot := dot difference inverse_covariance in
      let* difference' := broadcast2 s_sub observed_feature model_feature in
      let* product := broadcast2 s_mul difference' inverse_covariance_dot in
      Return (Arr1 (map vsum (rows product)))
  | Arr0 _ => shape_index_error
  end.

(* ================================================================== *)
(** ** [LikelihoodAnalysis] *)

Record LikelihoodAnalysis : Type := mkLikelihood {
  likelihood_base : Analysis;
  _num_bins : option nat;
  _interpolator : option (list _interpolate_wrapper)
}.

Definition new_LikelihoodAnalysis (parameter_set training_set : option matrix)
  : result LikelihoodAnalysis :=
  let* base := Analysis__init__ LikelihoodAnalysis_class parameter_set training_set in
  Return (mkLikelihood base None None).

(** A method of the base class, called on a [LikelihoodAnalysis]. *)
Definition likelihood_inherited {A} (m : method Analysis A)
  : method LikelihoodAnalysis A :=
  fun self =>
    let (r, base) := m (likelihood_base self) in
    (r, mkLikelihood base (_num_bins self) (_interpolator self)).

Definition set__num_bins (n : nat) : method LikelihoodAnalysis unit :=
  modify (fun self => mkLikelihood (likelihood_base self) (Some n) (_interpolator self)).

Definition set__interpolator (l : list _interpolate_wrapper)
  : method LikelihoodAnalysis unit :=
  modify (fun self => mkLikelihood (likelihood_base self) (_num_bins self) (Some l)).

(** [m[:,indices]] *)
Definition take_columns (m : matrix) (indices : list Z) : result matrix :=
  let* js := map_ (norm_index (ncols m)) indices in
  Return (Matrix (length js)
            (map (fun r => map (fun j => nth j r s_zero) js) (rows m))).

(** [reduce(mul, l)] *)
Definition reduce_mul (l : list nat) : result nat :=
  match l with
  | [] => Raise (TypeError "reduce() of empty sequence with no initial value")
  | x :: l' => Return (fold_left Nat.mul l' x)
  end.

(** [train]; [use_parameters] is [None] for ["all"]. *)
Definition train (use_parameters : option (list Z)) (kwargs : keywords)
  : method LikelihoodAnalysis unit :=
  ps <- gets (fun self => parameter_set (likelihood_base self)) ;;
  used_parameters <-
    lift (match use_parameters with
          | Some l =>
              let* ps := array_item ps in
              let* c := take_columns ps l in
              Return (transpose c)
          | None =>
              let* ps := array_attr ps "transpose" in
              Return (transpose ps)
          end) ;;
  ts <- gets (fun self => training_set (likelihood_base self)) ;;
  ts <- lift (array_attr ts "shape") ;;
  num_bins <- lift (reduce_mul (tl (shape (Arr2 ts)))) ;;
  set__num_bins num_bins ;;
  let flattened_training_set := Matrix num_bins (rows ts) in
  set__interpolator [] ;;
  for_ (seq 0 num_bins)
    (fun n (_ : unit) =>
       l <- gets _interpolator ;;
       l <- lift (array_attr l "append") ;;
       column <- lift (nth_result (rows (transpose flattened_training_set)) n) ;;
       set__interpolator
         (l ++ [mk_interpolate_wrapper (rows used_parameters) column kwargs]))
    tt.

(** [if not hasattr(self,"_interpolator"): self.train()] *)
Definition trained : method LikelihoodAnalysis unit :=
  l <- gets _interpolator ;;
  match l with
  | None => train None no_keywords
  | Some _ => ret tt
  end.

(** [predict]; the last [reshape] gives a rank 1 feature its own shape. *)
Definition predict (parameters : ndarray) : method LikelihoodAnalysis ndarray :=
  trained ;;
  num_bins <- gets _num_bins ;;
  num_bins <- lift (array_attr num_bins "_num_bins") ;;
  l <- gets _interpolator ;;
  l <- lift (array_attr l "_interpolator") ;;
  lift (_predict parameters num_bins l).

(** [parameters[a:b]] *)
Definition slice_array (parameters : ndarray) (a b : nat) : result ndarray :=
  match parameters with
  | Arr0 _ => Raise (IndexError "too many indices for array")
  | Arr1 v => Return (Arr1 (slice v a b))
  | Arr2 m => Return (Arr2 (Matrix (ncols m) (slice (rows m) a b)))
  end.

Definition flat (a : ndarray) : list scalar :=
  match a with
  | Arr0 x => [x]
  | Arr1 v => v
  | Arr2 m => concat (rows m)
  end.

(** [np.array(l).reshape(n)] *)
Definition reshape_flat (l : list ndarray) (n : nat) : result (list scalar) :=
  let values := concat (map flat l) in
  if length values =? n then Return values
  else Raise (ValueError "total size of new array must be unchanged").

(** A worker pool, with its [map]. *)
Variable pool : Type.
Variable pool_map :
  pool -> (ndarray -> result ndarray) -> list ndarray -> result (list ndarray).

Definition parameter_chunks (parameters : ndarray) (num_points : nat)
  (split_chunks : option Z) : result (list ndarray) :=
  match split_chunks with
  | None => Return [parameters]
  | Some split_chunks =>
      if (0 <? split_chunks)%Z then
        let* _ := assert_msg (Z.of_nat num_points mod split_chunks =? 0)%Z
                    "split_chunks must divide exactly the number of points!!" in
        let chunk_length := Z.to_nat (Z.of_nat num_points / split_chunks) in
        map_ (fun n => slice_array parameters (n * chunk_length) ((n + 1) * chunk_length))
          (seq 0 (Z.to_nat split_chunks))
      else Raise (ValueError "split_chunks must be >0!!")
  end.

Definition chi2_method (parameters : ndarray) (observed_feature : option (list scalar))
  (features_covariance : option ndarray) (split_chunks : option Z)
  (pool_ : option pool) : method LikelihoodAnalysis (list scalar) :=
  lift (assert_ (is_some observed_feature)) ;;
  lift (assert_msg (is_some features_covariance) covariance_error) ;;
  observed_feature <- lift (array_attr observed_feature "shape") ;;
  features_covariance <- lift (array_attr features_covariance "shape") ;;
  ts <- gets (fun self => training_set (likelihood_base self)) ;;
  ts <- lift (array_attr ts "shape") ;;
  let observed_shape := shape (Arr1 observed_feature) in
  lift (assert_ (shape_eqb observed_shape (tl (shape (Arr2 ts))))) ;;
  lift (assert_ (shape_eqb (shape features_covariance)
                   (observed_shape ++ observed_shape))) ;;
  trained ;;
  num_points <-
    lift (if ndim parameters =? 1 then Return 1
          else match shape parameters with
               | n :: _ => Return n
               | [] => shape_index_error
               end) ;;
  parameter_chunks <- lift (parameter_chunks parameters num_points split_chunks) ;;
  covinv <- lift (np_inv features_covariance) ;;
  num_bins <- gets _num_bins ;;
  num_bins <- lift (array_attr num_bins "_num_bins") ;;
  interpolator <- gets _interpolator ;;
  interpolator <- lift (array_attr interpolator "_interpolator") ;;
  let kwargs := mk_chi2_kwargs num_bins interpolator covinv observed_feature in
  let chi2_wrapper := fun x => chi2 x kwargs in
  chi2_list <-
    lift (match pool_ with
          | Some p => pool_map p chi2_wrapper parameter_chunks
          | None => map_ chi2_wrapper parameter_chunks
          end) ;;
  lift (reshape_flat chi2_list num_points).


(* ================================================================== *)
(** ** Lists, indices and broadcasting *)

Lemma rbind_Return {A B} (a : A) (k : A -> result B) : rbind (Return a) k = k a.
Proof. reflexivity. Qed.

Lemma map__Return {A B} (f : A -> result B) (g : A -> B) (l : list A) :
  (forall a, In a l -> f a = Return (g a)) -> map_ f l = Return (map g l).
Proof.
  induction l as [|a l IH]; intros H; simpl; [reflexivity|].
  rewrite (H a (or_introl eq_refl)). simpl.
  rewrite IH by (intros; apply H; now right). reflexivity.
Qed.

Lemma shape_eqb_eq (s t : list nat) : shape_eqb s t = true <-> s = t.
Proof.
  revert t. induction s as [|x s IH]; intros [|y t]; simpl; split; intros H;
    try reflexivity; try discriminate.
  - apply andb_prop in H as [H1 H2]. apply Nat.eqb_eq in H1.
    apply IH in H2. now subst.
  - injection H as -> ->. rewrite Nat.eqb_refl. now apply IH.
Qed.

Lemma shape_eqb_refl (s : list nat) : shape_eqb s s = true.
Proof. now apply shape_eqb_eq. Qed.

Lemma bdim_same (n : nat) : bdim n n = Some n.
Proof. unfold bdim. now rewrite Nat.eqb_refl. Qed.

Lemma bdim_one_l (n : nat) : bdim 1 n = Some n.
Proof.
  unfold bdim. destruct (Nat.eqb_spec 1 n) as [<-|]; reflexivity.
Qed.

Lemma stretch_same {A} (n : nat) (l : list A) : length l = n -> stretch n l = l.
Proof. intros <-. unfold stretch. now rewrite Nat.eqb_refl. Qed.

Lemma stretch_singleton {A} (n : nat) (a : A) : stretch n [a] = repeat a n.
Proof.
  unfold stretch. change (length [a]) with 1.
  destruct (Nat.eqb_spec 1 n) as [<-|]; reflexivity.
Qed.

Lemma map2_length {A B C} (f : A -> B -> C) (x : list A) (y : list B) :
  length x = length y -> length (map2 f x y) = length x.
Proof.
  intros H. unfold map2. rewrite length_map, length_combine. lia.
Qed.

Lemma map2_cons {A B C} (f : A -> B -> C) a b (x : list A) (y : list B) :
  map2 f (a :: x) (b :: y) = f a b :: map2 f x y.
Proof. reflexivity. Qed.

Lemma map2_nth {A B C} (f : A -> B -> C) (x : list A) (y : list B) i da db dc :
  i < length x -> i < length y ->
  nth i (map2 f x y) dc = f (nth i x da) (nth i y db).
Proof.
  revert y i. induction x as [|a x IH]; intros [|b y] i Hx Hy; simpl in *;
    try lia.
  destruct i as [|i]; [reflexivity|]. apply IH; lia.
Qed.

Lemma map2_repeat_l {A B C} (f : A -> B -> C) (a : A) (y : list B) :
  map2 f (repeat a (length y)) y = map (f a) y.
Proof.
  induction y as [|b y IH]; simpl; [reflexivity|].
  rewrite map2_cons. now rewrite IH.
Qed.

Lemma map2_map {A B C D} (f : B -> C -> D) (g : A -> B) (h : A -> C) (l : list A) :
  map2 f (map g l) (map h l) = map (fun a => f (g a) (h a)) l.
Proof.
  induction l as [|a l IH]; simpl; [reflexivity|].
  rewrite map2_cons. now rewrite IH.
Qed.

Lemma broadcast1_same {A B C} (f : A -> B -> C) (x : list A) (y : list B) :
  length x = length y -> broadcast1 f x y = Return (map2 f x y).
Proof.
  intros H. unfold broadcast1. rewrite H, bdim_same.
  rewrite !stretch_same by congruence. reflexivity.
Qed.

Lemma norm_index_nat (n i : nat) : i < n -> norm_index n (Z.of_nat i) = Return i.
Proof.
  intros H. unfold norm_index.
  destruct (Z.leb_spec 0 (Z.of_nat i)); [|lia].
  destruct (Z.ltb_spec (Z.of_nat i) (Z.of_nat n)); [|lia].
  simpl. now rewrite Nat2Z.id.
Qed.

Lemma nth_result_nth {A} (l : list A) (i : nat) (d : A) :
  i < length l -> nth_result l i = Return (nth i l d).
Proof.
  intros H. unfold nth_result.
  destruct (nth_error l i) eqn:E.
  - now rewrite (nth_error_nth _ _ d E).
  - apply nth_error_None in E. lia.
Qed.

Lemma getrow_nat (m : matrix) (k : nat) :
  k < nrows m -> getrow m (Z.of_nat k) = Return (nth k (rows m) []).
Proof.
  intros H. unfold getrow. rewrite norm_index_nat by assumption. simpl.
  now apply nth_result_nth.
Qed.

Lemma wf_matrix_nth (m : matrix) (k : nat) :
  wf_matrix m -> k < nrows m -> length (nth k (rows m) []) = ncols m.
Proof.
  intros H Hk. unfold wf_matrix in H. rewrite Forall_forall in H.
  apply H, nth_In, Hk.
Qed.

Lemma getitem2_nat (m : matrix) (k j : nat) :
  wf_matrix m -> k < nrows m -> j < ncols m ->
  getitem2 m (Z.of_nat k) (Z.of_nat j) = Return (nth j (nth k (rows m) []) s_zero).
Proof.
  intros W Hk Hj. unfold getitem2. rewrite getrow_nat by assumption. simpl.
  rewrite norm_index_nat by assumption. simpl.
  apply nth_result_nth. now rewrite wf_matrix_nth.
Qed.

Lemma take_rows_nat (m : matrix) (l : list nat) :
  (forall k, In k l -> k < nrows m) ->
  take_rows m (map Z.of_nat l)
  = Return (Matrix (ncols m) (map (fun k => nth k (rows m) []) l)).
Proof.
  intros H. unfold take_rows.
  rewrite (map__Return (getrow m) (fun z => nth (Z.to_nat z) (rows m) [])).
  - simpl. rewrite map_map. f_equal. f_equal. apply map_ext.
    intros k. now rewrite Nat2Z.id.
  - intros z Hz. apply in_map_iff in Hz as (k & <- & Hk).
    rewrite Nat2Z.id. apply getrow_nat, H, Hk.
Qed.

Lemma upd_length {A} (n : nat) (x : A) (l : list A) : length (upd n x l) = length l.
Proof.
  revert n. induction l as [|a l IH]; intros [|n]; simpl; auto.
Qed.

Lemma upd_app {A} (x y : A) (l1 l2 : list A) :
  upd (length l1) x (l1 ++ y :: l2) = l1 ++ x :: l2.
Proof. induction l1 as [|a l1 IH]; simpl; [reflexivity|]. now rewrite IH. Qed.

(* ================================================================== *)
(** ** Construction *)

(** C10.  The base class [Analysis] cannot be instantiated: whatever the
    arguments, its constructor raises the assertion on [_analysis_type]
    and returns no object; the tag is defined in [FisherAnalysis] and
    [LikelihoodAnalysis] only, so a constructor that returns ran for one of
    these two classes. *)
Theorem Analysis_base_not_instantiable (parameter_set training_set : option matrix) :
  Analysis__init__ Analysis_class parameter_set training_set
  = Raise (AssertionError
             (Some "Don't instantiate this class directly, use one of its subclasses!"%string))
  /\ (forall cls,
        _analysis_type cls <> None
        <-> cls = FisherAnalysis_class \/ cls = LikelihoodAnalysis_class)
  /\ (forall cls self,
        Analysis__init__ cls parameter_set training_set = Return self ->
        cls = FisherAnalysis_class \/ cls = LikelihoodAnalysis_class).
Proof.
  split; [reflexivity|]. split.
  - intros [| |]; simpl; split; intros H; try congruence; auto.
    destruct H; discriminate.
  - intros [| |] self H; auto. discriminate.
Qed.

(** The outcome of the constructor of a subclass on its two arguments. *)
Definition seeded (parameter_set training_set : option matrix) : result Analysis :=
  match parameter_set, training_set with
  | Some p, Some t =>
      if nrows p =? nrows t then Return (mkAnalysis parameter_set training_set)
      else Raise (AssertionError
                    (Some "There should be one feature for each of the simulated models!"%string))
  | _, _ => Return (mkAnalysis parameter_set training_set)
  end.

(** C9, as the code has it.  The constructor of a subclass raises
    [AssertionError] exactly when both arrays are given and their first axes
    differ in length; in every other case, also when one array only is
    given, it returns an object that stores the two arguments as they are. *)
Theorem subclass_init_seeded (parameter_set training_set : option matrix) :
  Analysis__init__ FisherAnalysis_class parameter_set training_set
  = seeded parameter_set training_set
  /\ Analysis__init__ LikelihoodAnalysis_class parameter_set training_set
     = seeded parameter_set training_set
  /\ new_FisherAnalysis parameter_set training_set
     = rmap (fun base => mkFisher base 0 None None) (seeded parameter_set training_set)
  /\ new_LikelihoodAnalysis parameter_set training_set
     = rmap (fun base => mkLikelihood base None None) (seeded parameter_set training_set)
  /\ (is_return (seeded parameter_set training_set) = false
      <-> exists p t, parameter_set = Some p /\ training_set = Some t
                      /\ nrows p <> nrows t).
Proof.
  assert (E : forall cls, _analysis_type cls <> None ->
                Analysis__init__ cls parameter_set training_set
                = seeded parameter_set training_set).
  { intros cls H. unfold Analysis__init__, seeded.
    destruct (_analysis_type cls); [|congruence]. simpl.
    destruct parameter_set as [p|], training_set as [t|]; simpl; try reflexivity.
    destruct (nrows p =? nrows t); reflexivity. }
  unfold new_FisherAnalysis, new_LikelihoodAnalysis.
  rewrite !E by (simpl; congruence).
  repeat split; try reflexivity.
  - unfold seeded. destruct parameter_set as [p|], training_set as [t|];
      simpl; try discriminate.
    destruct (Nat.eqb_spec (nrows p) (nrows t)); simpl; [discriminate|].
    intros _. now exists p, t.
  - intros (p & t & -> & -> & H). unfold seeded.
    destruct (Nat.eqb_spec (nrows p) (nrows t)); [contradiction|reflexivity].
Qed.

(* ================================================================== *)
(** ** The loop of [compute_derivatives] *)

(** The position of the first [false] of a list of booleans. *)
Fixpoint index_false (c : list bool) : nat :=
  match c with
  | [] => 0
  | b :: c' => if b then S (index_false c') else 0
  end.

(** One row of derivatives: the difference of two features over the
    difference of the varied parameter. *)
Definition finite_difference (feature fiducial_feature : list scalar)
  (p p0 : scalar) : list scalar :=
  map (fun x => s_div x (s_sub p p0)) (map2 s_sub feature fiducial_feature).

Definition one_at_a_time : string := "You must vary one parameter at a time!".
Definition not_twice : string := "You cannot vary a parameter twice!!".

(** The loop as a function of the rows it reads: for the parameters and the
    feature of each model in turn, and the indices varied so far, either the
    message of the assertion that fails with the indices recorded by then,
    or the indices and the rows of derivatives. *)
Fixpoint scan (fiducial_row fiducial_feature : list scalar)
  (items : list (list scalar * list scalar)) (varied : list nat)
  : (string * list nat) + (list nat * list (list scalar)) :=
  match items with
  | [] => inr (varied, [])
  | (row, feature) :: items' =>
      let comparison := map2 s_eq row fiducial_row in
      if (Z.of_nat (count_true comparison) =? Z.of_nat (length comparison) - 1)%Z then
        let j := index_false comparison in
        if existsb (Nat.eqb j) varied then inl (not_twice, varied)
        else
          match scan fiducial_row fiducial_feature items' (varied ++ [j]) with
          | inl e => inl e
          | inr (v, rs) =>
              inr (v, finite_difference feature fiducial_feature
                        (nth j row s_zero) (nth j fiducial_row s_zero) :: rs)
          end
      else inl (one_at_a_time, varied)
  end.

Lemma count_true_le (c : list bool) : count_true c <= length c.
Proof. unfold count_true. apply filter_length_le. Qed.

Lemma first_false_index (c : list bool) :
  count_true c < length c ->
  first_false c = Return (index_false c) /\ index_false c < length c.
Proof.
  unfold count_true. induction c as [|b c IH]; simpl; [lia|].
  destruct b; simpl; intros H.
  - destruct IH as [-> IH]; [lia|]. simpl. split; [reflexivity|lia].
  - split; [reflexivity|lia].
Qed.

Definition with_varied (l : list nat) (self : FisherAnalysis) : FisherAnalysis :=
  mkFisher (fisher_base self) (_fiducial self) (Some l) (derivatives self).

Lemma with_varied_same (l : list nat) (self : FisherAnalysis) :
  _varied_list self = Some l -> with_varied l self = self.
Proof. destruct self; simpl; intros ->; reflexivity. Qed.

Lemma with_varied_twice (l l' : list nat) (self : FisherAnalysis) :
  with_varied l (with_varied l' self) = with_varied l self.
Proof. reflexivity. Qed.

(** One turn of the loop, on the rows it reads. *)
Lemma derivative_step_scan (ps ts nff nfp : matrix) (fiducial z : Z) (n : nat)
  (d : matrix) (self : FisherAnalysis)
  (row fiducial_row feature fiducial_feature : list scalar) (varied : list nat) :
  getrow nfp (Z.of_nat n) = Return row ->
  getrow ps fiducial = Return fiducial_row ->
  length row = length fiducial_row ->
  (forall j, j < length row ->
     getitem2 nfp (Z.of_nat n) (Z.of_nat j) = Return (nth j row s_zero)
     /\ getitem2 ps fiducial (Z.of_nat j) = Return (nth j fiducial_row s_zero)) ->
  getrow nff (Z.of_nat n) = Return feature ->
  getrow ts fiducial = Return fiducial_feature ->
  length feature = length fiducial_feature ->
  length feature = ncols d ->
  n < nrows d ->
  _varied_list self = Some varied ->
  derivative_step ps ts nff nfp fiducial (n, z) d self
  = let comparison := map2 s_eq row fiducial_row in
    if (Z.of_nat (count_true comparison) =? Z.of_nat (length comparison) - 1)%Z then
      let j := index_false comparison in
      if existsb (Nat.eqb j) varied
      then (Raise (AssertionError (Some not_twice)), self)
      else (Return (Matrix (ncols d)
                      (upd n (finite_difference feature fiducial_feature
                                (nth j row s_zero) (nth j fiducial_row s_zero))
                         (rows d))),
            with_varied (varied ++ [j]) self)
    else (Raise (AssertionError (Some one_at_a_time)), self).
Proof.
  intros Hrow Hfrow Hlen Hitem Hfeat Hffeat Hlenf Hd Hn Hv.
  unfold derivative_step, bind, lift, gets. simpl fst.
  rewrite Hrow, Hfrow. rewrite (broadcast1_same _ _ _ Hlen).
  cbv zeta.
  assert (Hc : length (map2 s_eq row fiducial_row) = length row)
    by now apply map2_length.
  destruct (Z.eqb_spec (Z.of_nat (count_true (map2 s_eq row fiducial_row)))
              (Z.of_nat (length (map2 s_eq row fiducial_row)) - 1)) as [E|E];
    simpl; [|reflexivity].
  destruct (first_false_index (map2 s_eq row fiducial_row)) as [-> Hj]; [lia|].
  rewrite Hv. simpl.
  destruct (existsb _ varied); simpl; [reflexivity|].
  unfold set__varied_list, modify. simpl.
  rewrite Hfeat, Hffeat. rewrite (broadcast1_same _ _ _ Hlenf).
  rewrite Hc in Hj. destruct (Hitem _ Hj) as [-> ->].
  unfold setrow. apply Nat.ltb_lt in Hn. rewrite Hn.
  fold (finite_difference feature fiducial_feature
          (nth (index_false (map2 s_eq row fiducial_row)) row s_zero)
          (nth (index_false (map2 s_eq row fiducial_row)) fiducial_row s_zero)).
  assert (L : length (finite_difference feature fiducial_feature
          (nth (index_false (map2 s_eq row fiducial_row)) row s_zero)
          (nth (index_false (map2 s_eq row fiducial_row)) fiducial_row s_zero))
              = ncols d).
  { unfold finite_difference. rewrite length_map, map2_length; congruence. }
  rewrite L, bdim_same, Nat.eqb_refl, stretch_same by assumption.
  reflexivity.
Qed.

(** The parameters and the feature of the models [K], in turn. *)
Definition model_items (ps ts : matrix) (K : list nat)
  : list (list scalar * list scalar) :=
  map (fun k => (nth k (rows ps) [], nth k (rows ts) [])) K.

Definition rows_of (m : matrix) (K : list nat) : matrix :=
  Matrix (ncols m) (map (fun k => nth k (rows m) []) K).

Lemma rows_of_nth (m : matrix) (K1 K2 : list nat) (k : nat) :
  nth (length K1) (rows (rows_of m (K1 ++ k :: K2))) [] = nth k (rows m) [].
Proof.
  simpl. rewrite map_app. rewrite app_nth2; rewrite length_map; [|lia].
  now rewrite Nat.sub_diag.
Qed.

Lemma wf_rows_of (m : matrix) (K : list nat) :
  wf_matrix m -> (forall k, In k K -> k < nrows m) -> wf_matrix (rows_of m K).
Proof.
  intros W H. unfold wf_matrix. simpl. apply Forall_forall.
  intros r Hr. apply in_map_iff in Hr as (k & <- & Hk).
  now apply wf_matrix_nth, H.
Qed.

(** The whole loop, from any turn on: [K1] are the models done, with their
    rows [R1] of derivatives, and [K2] the models to come. *)
Lemma derivative_loop_scan (ps ts : matrix) (fid : nat) (K2 : list nat) :
  wf_matrix ps -> wf_matrix ts -> fid < nrows ps -> fid < nrows ts ->
  forall (K1 : list nat) (R1 : list (list scalar)) (d : matrix)
         (self : FisherAnalysis) (varied : list nat),
  (forall k, In k (K1 ++ K2) -> k < nrows ps /\ k < nrows ts) ->
  rows d = R1 ++ repeat (repeat s_zero (ncols ts)) (length K2) ->
  ncols d = ncols ts ->
  length R1 = length K1 ->
  _varied_list self = Some varied ->
  for_ (combine (seq (length K1) (length K2)) (map Z.of_nat K2))
    (derivative_step ps ts (rows_of ts (K1 ++ K2)) (rows_of ps (K1 ++ K2))
       (Z.of_nat fid)) d self
  = match scan (nth fid (rows ps) []) (nth fid (rows ts) [])
            (model_items ps ts K2) varied with
    | inl (msg, v) => (Raise (AssertionError (Some msg)), with_varied v self)
    | inr (v, rs) => (Return (Matrix (ncols ts) (R1 ++ rs)), with_varied v self)
    end.
Proof.
  intros Wp Wt Hfp Hft.
  induction K2 as [|k K2 IH]; intros K1 R1 d self varied HK Hd Hc HR Hv.
  - simpl. unfold ret. rewrite with_varied_same by assumption.
    destruct d as [c r]. simpl in *. subst. now rewrite app_nil_r.
  - assert (Hk : k < nrows ps /\ k < nrows ts).
    { apply HK. apply in_or_app. right. now left. }
    destruct Hk as [Hkp Hkt].
    assert (Hn : length K1 < length (K1 ++ k :: K2)).
    { rewrite length_app. simpl. lia. }
    simpl combine. simpl for_. unfold bind at 1.
    rewrite derivative_step_scan
      with (row := nth k (rows ps) []) (fiducial_row := nth fid (rows ps) [])
           (feature := nth k (rows ts) []) (fiducial_feature := nth fid (rows ts) [])
           (varied := varied); try assumption.
    + simpl scan. cbv zeta.
      destruct (Z.eqb (Z.of_nat (count_true (map2 s_eq (nth k (rows ps) []) (nth fid (rows ps) []))))
                  (Z.of_nat (length (map2 s_eq (nth k (rows ps) []) (nth fid (rows ps) []))) - 1));
        [|now rewrite with_varied_same].
      destruct (existsb _ varied); [now rewrite with_varied_same|].
      replace (K1 ++ k :: K2) with ((K1 ++ [k]) ++ K2) in *
        by now rewrite <- app_assoc.
      replace (S (length K1)) with (length (K1 ++ [k]))
        by (rewrite length_app; simpl; lia).
      rewrite (IH (K1 ++ [k])
                 (R1 ++ [finite_difference (nth k (rows ts) []) (nth fid (rows ts) [])
                           (nth (index_false (map2 s_eq (nth k (rows ps) []) (nth fid (rows ps) [])))
                              (nth k (rows ps) []) s_zero)
                           (nth (index_false (map2 s_eq (nth k (rows ps) []) (nth fid (rows ps) [])))
                              (nth fid (rows ps) []) s_zero)])
                 _ _ (varied ++ [index_false (map2 s_eq (nth k (rows ps) []) (nth fid (rows ps) []))])).
      * destruct (scan _ _ _ _) as [[msg v]|[v rs]]; rewrite ?with_varied_twice;
          [reflexivity|]. now rewrite <- app_assoc.
      * assumption.
      * simpl rows. rewrite Hd. simpl repeat. rewrite <- HR, upd_app.
        now rewrite <- app_assoc.
      * simpl. assumption.
      * rewrite !length_app. simpl. lia.
      * reflexivity.
    + rewrite getrow_nat by (unfold nrows, rows_of; simpl; now rewrite length_map).
      now rewrite rows_of_nth.
    + now apply getrow_nat.
    + rewrite !wf_matrix_nth; auto.
    + intros j Hj. rewrite wf_matrix_nth in Hj by assumption. split.
      * rewrite getitem2_nat.
        -- now rewrite rows_of_nth.
        -- apply wf_rows_of; [assumption|]. intros k' Hk'. now apply HK.
        -- unfold nrows, rows_of; simpl; now rewrite length_map.
        -- assumption.
      * now apply getitem2_nat.
    + rewrite getrow_nat by (unfold nrows, rows_of; simpl; now rewrite length_map).
      now rewrite rows_of_nth.
    + now apply getrow_nat.
    + rewrite !wf_matrix_nth; auto.
    + rewrite wf_matrix_nth; auto.
    + unfold nrows. rewrite Hd, length_app, repeat_length. simpl. lia.
Qed.

(** The models other than the fiducial one, in the order of the loop. *)
Definition non_fiducial (N fid : nat) : list nat :=
  seq 0 fid ++ seq (S fid) (N - S fid).

Lemma list_remove_seq (fid : nat) :
  forall a N, fid < N ->
  list_remove (Z.of_nat (a + fid)) (map Z.of_nat (seq a N))
  = Return (map Z.of_nat (seq a fid ++ seq (a + S fid) (N - S fid))).
Proof.
  induction fid as [|fid IH]; intros a [|N] H; try lia; simpl.
  - rewrite Nat.add_0_r, Z.eqb_refl, Nat.sub_0_r.
    replace (a + 1) with (S a) by lia. reflexivity.
  - destruct (Z.eqb_spec (Z.of_nat a) (Z.of_nat (a + S fid))); [lia|].
    replace (a + S fid) with (S a + fid) by lia.
    rewrite IH by lia. simpl.
    now replace (a + S (S fid)) with (S (a + S fid)) by lia.
Qed.

Lemma list_remove_range (N fid : nat) :
  fid < N ->
  list_remove (Z.of_nat fid) (range N) = Return (map Z.of_nat (non_fiducial N fid)).
Proof. intros H. apply (list_remove_seq (fid:=fid) 0 H). Qed.

Lemma non_fiducial_spec (N fid k : nat) :
  fid < N -> (In k (non_fiducial N fid) <-> k < N /\ k <> fid).
Proof.
  intros H. unfold non_fiducial. rewrite in_app_iff, !in_seq. lia.
Qed.

Lemma non_fiducial_length (N fid : nat) :
  fid < N -> length (non_fiducial N fid) = N - 1.
Proof.
  intros H. unfold non_fiducial. rewrite length_app, !length_seq. lia.
Qed.

Lemma non_fiducial_NoDup (N fid : nat) : NoDup (non_fiducial N fid).
Proof.
  unfold non_fiducial.
  assert (E : seq 0 (fid + S (N - S fid))
              = seq 0 fid ++ fid :: seq (S fid) (N - S fid)).
  { rewrite seq_app. simpl. reflexivity. }
  pose proof (seq_NoDup (fid + S (N - S fid)) 0) as D. rewrite E in D.
  now apply NoDup_remove_1 in D.
Qed.

Lemma enumerate_map_of_nat (K : list nat) :
  enumerate (map Z.of_nat K) = combine (seq 0 (length K)) (map Z.of_nat K).
Proof. unfold enumerate. now rewrite length_map. Qed.

(** [compute_derivatives] on an object whose arrays have one row per model
    and whose fiducial index is the index of a model. *)
Lemma compute_derivatives_scan (self : FisherAnalysis) (ps ts : matrix) (fid : nat) :
  parameter_set (fisher_base self) = Some ps ->
  training_set (fisher_base self) = Some ts ->
  wf_matrix ps -> wf_matrix ts -> nrows ts = nrows ps ->
  1 < nrows ps -> _fiducial self = Z.of_nat fid -> fid < nrows ps ->
  compute_derivatives self
  = match scan (nth fid (rows ps) []) (nth fid (rows ts) [])
            (model_items ps ts (non_fiducial (nrows ps) fid)) [] with
    | inl (msg, v) => (Raise (AssertionError (Some msg)), with_varied v self)
    | inr (v, rs) =>
        (Return (Matrix (ncols ts) rs),
         mkFisher (fisher_base self) (_fiducial self) (Some v)
           (Some (Matrix (ncols ts) rs)))
    end.
Proof.
  intros Hps Hts Wp Wt Hrows HN Hfid Hlt.
  assert (HK : forall k, In k (non_fiducial (nrows ps) fid) ->
                 k < nrows ps /\ k < nrows ts).
  { intros k Hk. apply non_fiducial_spec in Hk; [|assumption]. lia. }
  unfold compute_derivatives, bind at 1, gets. rewrite Hps. simpl.
  unfold bind at 1, lift. simpl.
  apply Nat.ltb_lt in HN. unfold bind at 1. rewrite HN. simpl.
  unfold bind at 1, set__varied_list, modify.
  unfold bind at 1. simpl _fiducial. rewrite Hfid.
  unfold bind at 1. rewrite list_remove_range by assumption.
  unfold bind at 1. simpl fisher_base. rewrite Hts.
  unfold bind at 1. simpl array_item.
  unfold bind at 1. rewrite take_rows_nat by (intros; now apply HK).
  unfold bind at 1. rewrite take_rows_nat by (intros; now apply HK).
  rewrite enumerate_map_of_nat.
  fold (rows_of ts (non_fiducial (nrows ps) fid)).
  fold (rows_of ps (non_fiducial (nrows ps) fid)).
  unfold bind at 1.
  pose proof (@derivative_loop_scan ps ts fid (non_fiducial (nrows ps) fid)
                Wp Wt Hlt ltac:(lia) [] []) as L.
  simpl app in L. simpl length in L at 1.
  rewrite L with (varied := []); clear L; try reflexivity; try assumption.
  - destruct (scan _ _ _ _) as [[msg v]|[v rs]].
    + unfold with_varied. simpl. now rewrite Hfid.
    + reflexivity.
  - unfold zeros. simpl. unfold nrows. simpl. now rewrite length_map.
Qed.

(* ================================================================== *)
(** ** Designs *)

(** The positions of the [false] entries of a list of booleans, counted
    from [a]. *)
Fixpoint falses_from (a : nat) (c : list bool) : list nat :=
  match c with
  | [] => []
  | b :: c' => if b then falses_from (S a) c' else a :: falses_from (S a) c'
  end.

(** The indices of the parameters in which a model differs from the
    fiducial one, by the [==] of the element type. *)
Definition differing (row fiducial_row : list scalar) : list nat :=
  falses_from 0 (map2 s_eq row fiducial_row).

Lemma falses_count (c : list bool) :
  forall a, length (falses_from a c) + count_true c = length c.
Proof.
  unfold count_true. induction c as [|b c IH]; intros a; simpl; [reflexivity|].
  destruct b; simpl; specialize (IH (S a)); lia.
Qed.

Lemma falses_single (c : list bool) :
  forall a, length (falses_from a c) = 1 ->
            falses_from a c = [a + index_false c].
Proof.
  induction c as [|b c IH]; intros a; simpl; [discriminate|].
  destruct b; simpl; intros H.
  - rewrite (IH (S a) H). f_equal. lia.
  - destruct (falses_from (S a) c); [|discriminate]. f_equal. lia.
Qed.

(** The test of the first assertion of the loop. *)
Lemma one_varied_test (c : list bool) :
  (Z.of_nat (count_true c) =? Z.of_nat (length c) - 1)%Z = true
  <-> length (falses_from 0 c) = 1.
Proof.
  pose proof (falses_count c 0). rewrite Z.eqb_eq. lia.
Qed.

Lemma existsb_eqb_In (j : nat) (l : list nat) :
  existsb (Nat.eqb j) l = true <-> In j l.
Proof.
  rewrite existsb_exists. split.
  - intros (x & Hx & E). apply Nat.eqb_eq in E. now subst.
  - intros H. exists j. split; [assumption|apply Nat.eqb_refl].
Qed.

(** A design that passes: every model differs from the fiducial one in the
    single parameter [j k], no index comes twice, and none was seen. *)
Lemma scan_valid (ps ts : matrix) (fid : nat) (j : nat -> nat) (K : list nat) :
  forall varied,
  (forall k, In k K ->
     differing (nth k (rows ps) []) (nth fid (rows ps) []) = [j k]) ->
  NoDup (map j K) ->
  (forall k, In k K -> ~ In (j k) varied) ->
  scan (nth fid (rows ps) []) (nth fid (rows ts) []) (model_items ps ts K) varied
  = inr (varied ++ map j K,
         map (fun k =>
                finite_difference (nth k (rows ts) []) (nth fid (rows ts) [])
                  (nth (j k) (nth k (rows ps) []) s_zero)
                  (nth (j k) (nth fid (rows ps) []) s_zero)) K).
Proof.
  induction K as [|k K IH]; intros varied Hd Hn Hv; simpl.
  - now rewrite app_nil_r.
  - assert (D := Hd k (or_introl eq_refl)). unfold differing in D.
    assert (L : length (falses_from 0
                  (map2 s_eq (nth k (rows ps) []) (nth fid (rows ps) []))) = 1)
      by now rewrite D.
    rewrite (proj2 (one_varied_test _) L).
    assert (J : index_false (map2 s_eq (nth k (rows ps) []) (nth fid (rows ps) []))
                = j k).
    { rewrite (falses_single _ _ L) in D. now injection D. }
    rewrite J.
    destruct (existsb (Nat.eqb (j k)) varied) eqn:E.
    { apply existsb_eqb_In in E. exfalso. exact (Hv k (or_introl eq_refl) E). }
    inversion Hn as [|? ? Hnot Hn']; subst.
    rewrite IH.
    + now rewrite <- app_assoc.
    + intros; apply Hd; now right.
    + assumption.
    + intros k' Hk' Hin. apply in_app_iff in Hin as [Hin|[Hin|[]]].
      * apply (Hv k'); [now right|assumption].
      * apply Hnot. rewrite Hin. now apply in_map.
Qed.

(** Conversely, a design on which the loop ends without an assertion
    failing has one varied parameter per model, and none twice. *)
Lemma scan_inr_valid (ps ts : matrix) (fid : nat) (K : list nat) :
  forall varied v rs,
  scan (nth fid (rows ps) []) (nth fid (rows ts) []) (model_items ps ts K) varied
  = inr (v, rs) ->
  (forall k, In k K ->
     length (differing (nth k (rows ps) []) (nth fid (rows ps) [])) = 1)
  /\ NoDup (map (fun k => differing (nth k (rows ps) []) (nth fid (rows ps) [])) K).
Proof.
  induction K as [|k K IH]; intros varied v rs H; simpl in *.
  - split; [intros k []|constructor].
  - destruct (Z.eqb _ _) eqn:T; [|discriminate].
    apply one_varied_test in T.
    destruct (existsb _ varied) eqn:E; [discriminate|].
    destruct (scan _ _ _ (varied ++ _)) as [e|[v' rs']] eqn:S; [discriminate|].
    destruct (IH _ _ _ S) as [IH1 IH2].
    split.
    + intros k' [<-|Hk']; [exact T|now apply IH1].
    + constructor; [|assumption].
      (* the index of [k] is recorded before the rest is scanned *)
      intros Hin. apply in_map_iff in Hin as (k' & Hk' & Hin').
      clear IH IH2.
      revert S Hin' Hk'. unfold differing. rewrite (falses_single _ _ T).
      simpl Nat.add.
      generalize (index_false (map2 s_eq (nth k (rows ps) []) (nth fid (rows ps) []))).
      intros jk. clear E T.
      assert (G : forall K varied v' rs',
                scan (nth fid (rows ps) []) (nth fid (rows ts) [])
                  (model_items ps ts K) varied = inr (v', rs') ->
                forall j k', In j varied -> In k' K ->
                falses_from 0 (map2 s_eq (nth k' (rows ps) []) (nth fid (rows ps) []))
                <> [j]).
      { clear. induction K as [|k K IH]; intros varied v' rs' S j k' Hj [].
        - subst k'. simpl in S.
          destruct (Z.eqb _ _) eqn:T; [|discriminate].
          apply one_varied_test in T. rewrite (falses_single _ _ T). simpl.
          destruct (existsb _ varied) eqn:E; [discriminate|].
          intros Q. injection Q as Q. rewrite Q in E.
          apply existsb_eqb_In in Hj. congruence.
        - simpl in S.
          destruct (Z.eqb _ _) eqn:T; [|discriminate].
          destruct (existsb _ varied) eqn:E; [discriminate|].
          destruct (scan _ _ _ (varied ++ _)) as [e|[v'' rs'']] eqn:S';
            [discriminate|].
          apply (IH _ _ _ S'); [|assumption]. apply in_or_app. now left. }
      intros S Hin' Hk'.
      apply (G _ _ _ _ S jk k'); [|assumption|assumption].
      apply in_or_app. right. now left.
Qed.

Lemma scan_inl_message (frow ffeat : list scalar) items :
  forall varied msg v,
  scan frow ffeat items varied = inl (msg, v) ->
  msg = one_at_a_time \/ msg = not_twice.
Proof.
  induction items as [|[row feature] items IH]; intros varied msg v H;
    simpl in H; [discriminate|].
  destruct (Z.eqb _ _); [|injection H as <- _; now left].
  destruct (existsb _ varied); [injection H as <- _; now right|].
  destruct (scan _ _ _ (varied ++ _)) as [e|[v' rs']] eqn:S; [|discriminate].
  injection H as ->. eapply IH, S.
Qed.

Lemma falses_from_In (c : list bool) :
  forall a i, In i (falses_from a c)
              <-> a <= i < a + length c /\ nth (i - a) c true = false.
Proof.
  induction c as [|b c IH]; intros a i; simpl; [lia|].
  destruct b; simpl; rewrite ?IH.
  - split.
    + intros [H1 H2]. split; [lia|].
      destruct (i - a) as [|n] eqn:E; [lia|].
      now replace n with (i - S a) by lia.
    + intros [H1 H2]. destruct (i - a) as [|n] eqn:E; [discriminate|].
      replace (i - S a) with n by lia. split; [lia|assumption].
  - split.
    + intros [<-|[H1 H2]]; [rewrite Nat.sub_diag; split; [lia|reflexivity]|].
      split; [lia|]. destruct (i - a) as [|n] eqn:E; [reflexivity|].
      now replace n with (i - S a) by lia.
    + intros [H1 H2]. destruct (i - a) as [|n] eqn:E; [left; lia|].
      right. replace (i - S a) with n by lia. split; [lia|assumption].
Qed.

(** [differing]: the indices [i] below both lengths at which [==] is false. *)
Lemma differing_spec (row fiducial_row : list scalar) (i : nat) :
  length row = length fiducial_row ->
  (In i (differing row fiducial_row)
   <-> i < length row
       /\ s_eq (nth i row s_zero) (nth i fiducial_row s_zero) = false).
Proof.
  intros H. unfold differing. rewrite falses_from_In, Nat.sub_0_r.
  rewrite map2_length by assumption. simpl. split.
  - intros [[_ Hi] E]. split; [assumption|].
    now rewrite (map2_nth s_eq row fiducial_row s_zero s_zero true) in E by lia.
  - intros [Hi E]. split; [lia|].
    now rewrite (map2_nth s_eq row fiducial_row s_zero s_zero true) by lia.
Qed.

Lemma NoDup_map_injective {A B} (f : A -> B) (l : list A) (a b : A) :
  NoDup (map f l) -> In a l -> In b l -> f a = f b -> a = b.
Proof.
  induction l as [|x l IH]; simpl; intros D Ha Hb E; [contradiction|].
  inversion D as [|? ? Hnot D']; subst.
  destruct Ha as [->|Ha], Hb as [->|Hb]; auto.
  - exfalso. apply Hnot. rewrite E. now apply in_map.
  - exfalso. apply Hnot. rewrite <- E. now apply in_map.
Qed.

(** A design in which every model other than the fiducial one differs from
    it in the single parameter [j k], no two of them in the same one. *)
Definition valid_design (ps : matrix) (fid : nat) (j : nat -> nat) : Prop :=
  (forall k, k < nrows ps -> k <> fid ->
     differing (nth k (rows ps) []) (nth fid (rows ps) []) = [j k])
  /\ (forall k1 k2, k1 < nrows ps -> k2 < nrows ps -> k1 <> fid -> k2 <> fid ->
        j k1 = j k2 -> k1 = k2).

(** The derivatives of a design: for each model other than the fiducial
    one, in their order, the difference of the features over the difference
    of the varied parameter. *)
Definition design_derivatives (ps ts : matrix) (fid : nat) (j : nat -> nat) : matrix :=
  Matrix (ncols ts)
    (map (fun k =>
            finite_difference (nth k (rows ts) []) (nth fid (rows ts) [])
              (nth (j k) (nth k (rows ps) []) s_zero)
              (nth (j k) (nth fid (rows ps) []) s_zero))
       (non_fiducial (nrows ps) fid)).

Definition design_varied (ps : matrix) (fid : nat) (j : nat -> nat) : list nat :=
  map j (non_fiducial (nrows ps) fid).

Lemma design_derivatives_wf (ps ts : matrix) (fid : nat) (j : nat -> nat) :
  wf_matrix ts -> nrows ts = nrows ps -> fid < nrows ps ->
  wf_matrix (design_derivatives ps ts fid j)
  /\ nrows (design_derivatives ps ts fid j) = nrows ps - 1
  /\ ncols (design_derivatives ps ts fid j) = ncols ts.
Proof.
  intros W E H. unfold design_derivatives, nrows. simpl.
  rewrite length_map, non_fiducial_length by assumption.
  repeat split. apply Forall_forall. intros r Hr.
  apply in_map_iff in Hr as (k & <- & Hk).
  apply non_fiducial_spec in Hk; [|assumption].
  destruct Hk as [Hk _].
  assert (L : forall i, i < nrows ps -> length (nth i (rows ts) []) = ncols ts).
  { intros i Hi. apply wf_matrix_nth; [assumption|lia]. }
  unfold finite_difference. rewrite length_map, map2_length; rewrite !L; auto.
Qed.

(** [compute_derivatives] on a valid design. *)
Lemma compute_derivatives_design (self : FisherAnalysis) (ps ts : matrix)
  (fid : nat) (j : nat -> nat) :
  parameter_set (fisher_base self) = Some ps ->
  training_set (fisher_base self) = Some ts ->
  wf_matrix ps -> wf_matrix ts -> nrows ts = nrows ps ->
  1 < nrows ps -> _fiducial self = Z.of_nat fid -> fid < nrows ps ->
  valid_design ps fid j ->
  compute_derivatives self
  = (Return (design_derivatives ps ts fid j),
     mkFisher (fisher_base self) (_fiducial self)
       (Some (design_varied ps fid j))
       (Some (design_derivatives ps ts fid j))).
Proof.
  intros Hps Hts Wp Wt Hrows HN Hfid Hlt [V1 V2].
  rewrite (compute_derivatives_scan self Hps Hts Wp Wt Hrows HN Hfid Hlt).
  rewrite (scan_valid ps ts fid j).
  - reflexivity.
  - intros k Hk. apply non_fiducial_spec in Hk as [? ?]; auto.
  - apply NoDup_map_NoDup_ForallPairs; [|apply non_fiducial_NoDup].
    intros k1 k2 H1 H2 E.
    apply non_fiducial_spec in H1 as [? ?]; [|assumption].
    apply non_fiducial_spec in H2 as [? ?]; [|assumption]. auto.
  - intros k _ [].
Qed.

(** C1.  On a training set of at least two models in which every model [k]
    other than the fiducial one differs from it in exactly the parameter
    [j k], no two of them in the same parameter, [compute_derivatives]
    returns the array with one row per model other than the fiducial one, in
    their order, the row of model [k] being
    [(feature_k - fiducial_feature) / (param_k[j k] - fiducial_param[j k])]
    elementwise: one row less than there are models, each of the size of a
    feature.  It stores that array, and records the varied indices [j k] in
    the same order, which [get_varied] then returns. *)
Theorem compute_derivatives_finite_differences (self : FisherAnalysis)
  (ps ts : matrix) (fid : nat) (j : nat -> nat) :
  parameter_set (fisher_base self) = Some ps ->
  training_set (fisher_base self) = Some ts ->
  wf_matrix ps -> wf_matrix ts -> nrows ts = nrows ps ->
  1 < nrows ps -> _fiducial self = Z.of_nat fid -> fid < nrows ps ->
  valid_design ps fid j ->
  let D := design_derivatives ps ts fid j in
  let self' := snd (compute_derivatives self) in
  fst (compute_derivatives self) = Return D
  /\ derivatives self' = Some D
  /\ _varied_list self' = Some (design_varied ps fid j)
  /\ fst (get_varied self') = Return (design_varied ps fid j)
  /\ nrows D = nrows ps - 1
  /\ length (design_varied ps fid j) = nrows ps - 1
  /\ wf_matrix D /\ ncols D = ncols ts
  /\ (forall n k, nth_error (non_fiducial (nrows ps) fid) n = Some k ->
        nth_error (rows D) n
        = Some (finite_difference (nth k (rows ts) []) (nth fid (rows ts) [])
                  (nth (j k) (nth k (rows ps) []) s_zero)
                  (nth (j k) (nth fid (rows ps) []) s_zero))
        /\ nth_error (design_varied ps fid j) n = Some (j k)).
Proof.
  intros Hps Hts Wp Wt Hrows HN Hfid Hlt V D self'.
  subst self'.
  rewrite (compute_derivatives_design self Hps Hts Wp Wt Hrows HN Hfid Hlt V).
  destruct (@design_derivatives_wf ps ts fid j Wt Hrows Hlt) as (W & R & C).
  simpl. repeat split; try assumption.
  - unfold design_varied. rewrite length_map. now apply non_fiducial_length.
  - unfold D, design_derivatives. simpl. now rewrite nth_error_map, H.
  - unfold design_varied. now rewrite nth_error_map, H.
Qed.

(** A design that is not valid: a model other than the fiducial one that
    differs from it in no parameter or in two or more, or two such models
    that differ from it in a same parameter. *)
Definition invalid_design (ps : matrix) (fid : nat) : Prop :=
  (exists k, k < nrows ps /\ k <> fid
             /\ length (differing (nth k (rows ps) []) (nth fid (rows ps) [])) <> 1)
  \/ (exists k1 k2 i,
        k1 < nrows ps /\ k2 < nrows ps /\ k1 <> fid /\ k2 <> fid /\ k1 <> k2
        /\ In i (differing (nth k1 (rows ps) []) (nth fid (rows ps) []))
        /\ In i (differing (nth k2 (rows ps) []) (nth fid (rows ps) []))).

Lemma singleton_In {A} (l : list A) (a : A) : length l = 1 -> In a l -> l = [a].
Proof.
  destruct l as [|x [|y l]]; simpl; try discriminate.
  now intros _ [->|[]].
Qed.

(** C2, as the code has it.  On a design that is not valid,
    [compute_derivatives] raises [AssertionError], with the message of the
    assertion on the number of varied parameters or of the one on a
    parameter varied twice; it returns no derivatives and leaves the
    [derivatives] attribute as it was. *)
Theorem compute_derivatives_invalid_design (self : FisherAnalysis)
  (ps ts : matrix) (fid : nat) :
  parameter_set (fisher_base self) = Some ps ->
  training_set (fisher_base self) = Some ts ->
  wf_matrix ps -> wf_matrix ts -> nrows ts = nrows ps ->
  _fiducial self = Z.of_nat fid -> fid < nrows ps ->
  invalid_design ps fid ->
  (exists msg,
      (msg = one_at_a_time \/ msg = not_twice)
      /\ fst (compute_derivatives self) = Raise (AssertionError (Some msg)))
  /\ raises (fst (compute_derivatives self)) "AssertionError"
  /\ derivatives (snd (compute_derivatives self)) = derivatives self.
Proof.
  intros Hps Hts Wp Wt Hrows Hfid Hlt Hinv.
  assert (HN : 1 < nrows ps).
  { destruct Hinv as [(k & ? & ? & _)|(k & _ & _ & ? & _ & ? & _)]; lia. }
  rewrite (compute_derivatives_scan self Hps Hts Wp Wt Hrows HN Hfid Hlt).
  destruct (scan _ _ _ _) as [[msg v]|[v rs]] eqn:S.
  - pose proof (scan_inl_message _ _ _ _ S) as M. simpl.
    repeat split.
    + now exists msg.
    + now exists (AssertionError (Some msg)).
  - exfalso. apply scan_inr_valid in S as [S1 S2].
    destruct Hinv as [(k & Hk & Hne & Hlen)|(k1 & k2 & i & H1 & H2 & N1 & N2 & Hne & I1 & I2)].
    + apply Hlen, S1. now apply non_fiducial_spec.
    + assert (K1 : In k1 (non_fiducial (nrows ps) fid)) by now apply non_fiducial_spec.
      assert (K2 : In k2 (non_fiducial (nrows ps) fid)) by now apply non_fiducial_spec.
      apply Hne.
      apply (NoDup_map_injective _ _ k1 k2 S2 K1 K2).
      rewrite (singleton_In _ i (S1 _ K1) I1).
      now rewrite (singleton_In _ i (S1 _ K2) I2).
Qed.

(* ================================================================== *)
(** ** The Fisher matrix and the fit *)

Lemma map2_map_l {A A' B C} (f : A' -> B -> C) (h : A -> A') (x : list A) (y : list B) :
  map2 f (map h x) y = map2 (fun a b => f (h a) b) x y.
Proof.
  revert y. induction x as [|a x IH]; intros [|b y]; simpl; try reflexivity.
  rewrite !map2_cons. now rewrite IH.
Qed.

Lemma map2_ext_in {A B C} (f g : A -> B -> C) (x : list A) (y : list B) :
  (forall a b, In (a, b) (combine x y) -> f a b = g a b) ->
  map2 f x y = map2 g x y.
Proof.
  intros H. unfold map2. apply map_ext_in. intros [a b] Hab. now apply H.
Qed.

Lemma transpose_nrows (m : matrix) : nrows (transpose m) = ncols m.
Proof. unfold nrows, transpose. simpl. now rewrite length_map, length_seq. Qed.

Lemma transpose_row_length (m : matrix) (r : list scalar) :
  In r (rows (transpose m)) -> length r = nrows m.
Proof.
  unfold transpose. simpl. intros H. apply in_map_iff in H as (j & <- & _).
  now rewrite length_map.
Qed.

(** The transposed derivatives, row [i] scaled by the reciprocal of the
    entry [i] of a diagonal covariance. *)
Definition scaled_transpose (v : list scalar) (d : matrix) : matrix :=
  Matrix (nrows d)
    (map2 (fun c row => map (s_mul (s_div s_one c)) row) v (rows (transpose d))).

Lemma weighted_full (c d : matrix) (F : nat) :
  nrows c = F -> ncols c = F ->
  weighted (Arr2 c) [F] d = solve c (transpose d).
Proof.
  intros <- E. unfold weighted. simpl. now rewrite E, !Nat.eqb_refl.
Qed.

Lemma weighted_diagonal (v : list scalar) (d : matrix) (F : nat) :
  length v = F -> ncols d = F ->
  weighted (Arr1 v) [F] d = Return (scaled_transpose v d).
Proof.
  intros <- E. unfold weighted. simpl. rewrite Nat.eqb_refl. simpl.
  unfold broadcast2.
  replace (nrows (reciprocal (column_matrix v))) with (length v)
    by (unfold nrows; simpl; now rewrite !length_map).
  rewrite transpose_nrows, E, bdim_same.
  change (ncols (reciprocal (column_matrix v))) with 1.
  change (ncols (transpose d)) with (nrows d).
  rewrite bdim_one_l.
  rewrite !stretch_same
    by (try apply transpose_nrows; try assumption;
        unfold nrows; simpl; now rewrite ?length_map, ?length_seq).
  unfold scaled_transpose. f_equal. f_equal. simpl rows at 1.
  rewrite map_map, map2_map_l. apply map2_ext_in.
  intros x r H. apply in_combine_r in H. apply transpose_row_length in H.
  simpl. rewrite stretch_singleton, stretch_same by assumption.
  rewrite <- H. apply map2_repeat_l.
Qed.

Lemma fisher_matrix_cached (self self' : FisherAnalysis) (ts d : matrix)
  (cov : ndarray) :
  training_set (fisher_base self) = Some ts ->
  cached_derivatives self = (Return d, self') ->
  shape cov = [ncols ts; ncols ts] \/ shape cov = [ncols ts] ->
  fisher_matrix (Some cov) None self
  = (let* Y := weighted cov [ncols ts] d in dot d Y, self').
Proof.
  intros Hts Hd Hs. unfold fisher_matrix, bind, lift, gets. simpl.
  rewrite Hts. simpl.
  assert (T : shape_eqb (shape cov) [ncols ts; ncols ts]
              || shape_eqb (shape cov) [ncols ts] = true).
  { destruct Hs as [-> | ->]; rewrite shape_eqb_refl; auto using orb_true_r. }
  rewrite T. simpl. rewrite Hd.
  destruct (weighted cov [ncols ts] d) as [e|Y]; simpl; [reflexivity|].
  destruct (dot d Y); reflexivity.
Qed.

Lemma for__invariant {S I A} (P : S -> Prop) (body : I -> A -> method S A) :
  (forall i a s, P s -> P (snd (body i a s))) ->
  forall l a s, P s -> P (snd (for_ l body a s)).
Proof.
  intros H. induction l as [|i l IH]; intros a s Hs; simpl; [assumption|].
  unfold bind. specialize (H i a s Hs).
  destruct (body i a s) as [[e|a'] s']; simpl in *; auto.
Qed.

Ltac step_method :=
  repeat match goal with
         | |- context [match ?x with _ => _ end] => destruct x; simpl
         end.

(** What a call of [compute_derivatives] leaves as it is. *)
Definition same_model (self self' : FisherAnalysis) : Prop :=
  fisher_base self' = fisher_base self /\ _fiducial self' = _fiducial self.

Lemma derivative_step_same_model ps ts nff nfp fiducial np d self0 self :
  same_model self0 self ->
  same_model self0 (snd (derivative_step ps ts nff nfp fiducial np d self)).
Proof.
  intros H. unfold derivative_step, bind, lift, gets, set__varied_list, modify.
  simpl. step_method; assumption.
Qed.

Lemma compute_derivatives_same_model (self : FisherAnalysis) :
  same_model self (snd (compute_derivatives self)).
Proof.
  assert (R : same_model self self) by (split; reflexivity).
  unfold compute_derivatives, bind at 1, gets.
  destruct (parameter_set (fisher_base self)) as [ps|]; simpl; [|assumption].
  unfold bind at 1, lift. simpl.
  unfold bind at 1. destruct (1 <? nrows ps); simpl; [|assumption].
  unfold bind at 1, set__varied_list, modify.
  unfold bind at 1. simpl _fiducial.
  unfold bind at 1.
  destruct (list_remove (_fiducial self) (range (nrows ps))) as [e|idx];
    simpl; [split; reflexivity|].
  unfold bind at 1. simpl fisher_base.
  destruct (training_set (fisher_base self)) as [ts|]; simpl;
    [|split; reflexivity].
  unfold bind at 1.
  destruct (take_rows ts idx) as [e|nff]; simpl; [split; reflexivity|].
  unfold bind at 1.
  destruct (take_rows ps idx) as [e|nfp]; simpl; [split; reflexivity|].
  unfold bind at 1. unfold bind at 1.
  match goal with
  | |- context [for_ ?l ?body ?a0 ?s0] =>
      pose proof (for__invariant (same_model self) body
                    (fun i x y => @derivative_step_same_model _ _ _ _ _ i x self y)
                    l a0 s0 (conj eq_refl eq_refl)) as L;
      destruct (for_ l body a0 s0) as [[e|d'] s']
  end; simpl in *; [assumption|].
  unfold set_derivatives, modify, ret, bind. simpl. assumption.
Qed.

Lemma cached_derivatives_same_model (self : FisherAnalysis) :
  same_model self (snd (cached_derivatives self)).
Proof.
  unfold cached_derivatives, bind, gets. simpl.
  destruct (derivatives self); simpl.
  - split; reflexivity.
  - apply compute_derivatives_same_model.
Qed.

Lemma cached_derivatives_some (self : FisherAnalysis) (d : matrix) :
  derivatives self = Some d -> cached_derivatives self = (Return d, self).
Proof. intros H. unfold cached_derivatives, bind, gets. now rewrite H. Qed.

Lemma cached_derivatives_none (self : FisherAnalysis) :
  derivatives self = None -> cached_derivatives self = compute_derivatives self.
Proof. intros H. unfold cached_derivatives, bind, gets. now rewrite H. Qed.

(** C3.  [derivatives] being the array in use (the stored one, or the one
    [compute_derivatives] returns when none is stored),
    [fisher_matrix(covariance, None)] returns
    [np.dot(derivatives, solve(covariance, derivatives.transpose()))] for a
    full covariance, an exception of [solve] or of [np.dot] apart, and the
    product of the derivatives with their transpose scaled by the
    reciprocals of the entries for a diagonal covariance.  On a valid design
    with no derivatives stored, [derivatives] are its finite differences. *)
Theorem fisher_matrix_information (self self' : FisherAnalysis) (ts D : matrix) :
  training_set (fisher_base self) = Some ts ->
  cached_derivatives self = (Return D, self') ->
  (forall c, nrows c = ncols ts -> ncols c = ncols ts ->
     fisher_matrix (Some (Arr2 c)) None self
     = (let* Y := solve c (transpose D) in dot D Y, self'))
  /\ (forall v, length v = ncols ts -> ncols D = ncols ts ->
        fisher_matrix (Some (Arr1 v)) None self
        = (dot D (scaled_transpose v D), self'))
  /\ (forall ps fid j,
        parameter_set (fisher_base self) = Some ps ->
        wf_matrix ps -> wf_matrix ts -> nrows ts = nrows ps ->
        1 < nrows ps -> _fiducial self = Z.of_nat fid -> fid < nrows ps ->
        valid_design ps fid j -> derivatives self = None ->
        D = design_derivatives ps ts fid j).
Proof.
  intros Hts Hd. repeat split.
  - intros c Hr Hc.
    rewrite (fisher_matrix_cached self (Arr2 c) Hts Hd)
      by (left; simpl; congruence).
    now rewrite weighted_full.
  - intros v Hv Hc.
    rewrite (fisher_matrix_cached self (Arr1 v) Hts Hd)
      by (right; simpl; congruence).
    now rewrite weighted_diagonal.
  - intros ps fid j Hps Wp Wt Hrows HN Hfid Hlt V Hnone.
    rewrite (cached_derivatives_none _ Hnone) in Hd.
    rewrite (compute_derivatives_design self Hps Hts Wp Wt Hrows HN Hfid Hlt V) in Hd.
    now injection Hd as <- _.
Qed.

Lemma take_in_row_nat (m : matrix) (k : nat) (l : list nat) :
  wf_matrix m -> k < nrows m -> (forall j, In j l -> j < ncols m) ->
  take_in_row m (Z.of_nat k) (map Z.of_nat l)
  = Return (map (fun j => nth j (nth k (rows m) []) s_zero) l).
Proof.
  intros W Hk H. unfold take_in_row.
  rewrite (map__Return _ (fun z => nth (Z.to_nat z) (nth k (rows m) []) s_zero)).
  - rewrite map_map. f_equal. apply map_ext. intros j. now rewrite Nat2Z.id.
  - intros z Hz. apply in_map_iff in Hz as (j & <- & Hj).
    rewrite Nat2Z.id. apply getitem2_nat; auto.
Qed.

(** The best fit: the fiducial values of the varied parameters plus
    [np.dot(M, observed_feature - fiducial_feature)]. *)
Definition best_fit (ps ts M : matrix) (fid : nat) (varied : list nat)
  (observed_feature : list scalar) : list scalar :=
  map2 s_add
    (map (fun j => nth j (nth fid (rows ps) []) s_zero) varied)
    (map (fun r => dotp r (map2 s_sub observed_feature (nth fid (rows ts) [])))
       (rows M)).

Lemma fit_cached (self self' : FisherAnalysis) (ps ts d : matrix) (cov : ndarray)
  (observed_feature : list scalar) (fid : nat) (varied : list nat) :
  parameter_set (fisher_base self) = Some ps ->
  training_set (fisher_base self) = Some ts ->
  wf_matrix ps -> wf_matrix ts ->
  _fiducial self = Z.of_nat fid -> fid < nrows ps -> fid < nrows ts ->
  length observed_feature = ncols ts ->
  cached_derivatives self = (Return d, self') ->
  _varied_list self' = Some varied -> (forall j, In j varied -> j < ncols ps) ->
  shape cov = [ncols ts; ncols ts] \/ shape cov = [ncols ts] ->
  fit observed_feature (Some cov) self
  = (let* Y := weighted cov [ncols ts] d in
     let* XY := dot d Y in
     let* M := solve XY (transpose Y) in
     let* dP := dot_mv M (map2 s_sub observed_feature (nth fid (rows ts) [])) in
     broadcast1 s_add
       (map (fun j => nth j (nth fid (rows ps) []) s_zero) varied) dP,
     self').
Proof.
  intros Hps Hts Wp Wt Hfid Hfp Hft Hobs Hd Hv Hvl Hs.
  pose proof (cached_derivatives_same_model self) as [Hb Hf]. rewrite Hd in Hb, Hf.
  simpl in Hb, Hf.
  unfold fit, bind, lift, gets. simpl. rewrite Hts. simpl.
  rewrite Hobs, Nat.eqb_refl. simpl.
  assert (T : shape_eqb (shape cov) [ncols ts; ncols ts]
              || shape_eqb (shape cov) [ncols ts] = true).
  { destruct Hs as [-> | ->]; rewrite shape_eqb_refl; auto using orb_true_r. }
  rewrite T. simpl. rewrite Hd.
  destruct (weighted cov [ncols ts] d) as [e|Y]; simpl; [reflexivity|].
  destruct (dot d Y) as [e|XY]; simpl; [reflexivity|].
  destruct (solve XY (transpose Y)) as [e|M]; simpl; [reflexivity|].
  rewrite Hf, Hfid. rewrite getrow_nat by assumption. simpl.
  rewrite broadcast1_same by (rewrite wf_matrix_nth; assumption). simpl.
  destruct (dot_mv M _) as [e|dP]; simpl; [reflexivity|].
  rewrite Hb, Hps, Hv. simpl.
  rewrite take_in_row_nat by assumption. simpl.
  destruct (broadcast1 _ _ _); reflexivity.
Qed.

(** C4.  For an observed feature of the shape of the training features and
    a covariance of that shape (diagonal) or of that shape twice (full),
    with [Y = solve(covariance, derivatives.transpose())] (or the transposed
    derivatives scaled by the reciprocals of a diagonal covariance),
    [XY = np.dot(derivatives, Y)] and [M = solve(XY, Y.transpose())], [fit]
    returns the fiducial values of the varied parameters plus
    [np.dot(M, observed_feature - fiducial_feature)]; the derivatives are
    the stored ones, and are computed first when none is stored. *)
Theorem fit_best_fit (self self' : FisherAnalysis) (ps ts D Y XY M : matrix)
  (cov : ndarray) (observed_feature : list scalar) (fid : nat) (varied : list nat) :
  parameter_set (fisher_base self) = Some ps ->
  training_set (fisher_base self) = Some ts ->
  wf_matrix ps -> wf_matrix ts ->
  _fiducial self = Z.of_nat fid -> fid < nrows ps -> fid < nrows ts ->
  length observed_feature = ncols ts ->
  cached_derivatives self = (Return D, self') ->
  _varied_list self' = Some varied -> (forall j, In j varied -> j < ncols ps) ->
  ((exists c, cov = Arr2 c /\ nrows c = ncols ts /\ ncols c = ncols ts
              /\ solve c (transpose D) = Return Y)
   \/ (exists v, cov = Arr1 v /\ length v = ncols ts /\ ncols D = ncols ts
                 /\ Y = scaled_transpose v D)) ->
  dot D Y = Return XY ->
  solve XY (transpose Y) = Return M ->
  ncols M = ncols ts -> nrows M = length varied ->
  fit observed_feature (Some cov) self
  = (Return (best_fit ps ts M fid varied observed_feature), self')
  /\ (derivatives self = None -> compute_derivatives self = (Return D, self'))
  /\ (forall d, derivatives self = Some d -> d = D /\ self' = self).
Proof.
  intros Hps Hts Wp Wt Hfid Hfp Hft Hobs Hd Hv Hvl Hcov HXY HM HcM HrM.
  split; [|split].
  - assert (W : weighted cov [ncols ts] D = Return Y
                /\ (shape cov = [ncols ts; ncols ts] \/ shape cov = [ncols ts])).
    { destruct Hcov as [(c & -> & Hr & Hc & S)|(v & -> & Hl & Hc & ->)].
      - rewrite weighted_full by assumption. split; [assumption|].
        left. simpl. congruence.
      - rewrite weighted_diagonal by assumption. split; [reflexivity|].
        right. simpl. congruence. }
    destruct W as [W Hs].
    rewrite (@fit_cached self self' ps ts D cov observed_feature fid varied
               Hps Hts Wp Wt Hfid Hfp Hft Hobs Hd Hv Hvl Hs).
    rewrite W. simpl. rewrite HXY. simpl. rewrite HM. simpl.
    unfold dot_mv. rewrite HcM, map2_length
      by (rewrite wf_matrix_nth; assumption).
    rewrite Hobs, Nat.eqb_refl. simpl.
    rewrite broadcast1_same; [reflexivity|].
    rewrite !length_map. symmetry. exact HrM.
  - intros Hn. now rewrite <- (cached_derivatives_none _ Hn).
  - intros d Hs. rewrite (cached_derivatives_some _ Hs) in Hd.
    injection Hd as -> ->. now split.
Qed.

(* ================================================================== *)
(** ** The stored derivatives *)

Lemma set_fiducial_keeps (n : Z) (self : FisherAnalysis) :
  derivatives (snd (set_fiducial n self)) = derivatives self
  /\ _varied_list (snd (set_fiducial n self)) = _varied_list self
  /\ fisher_base (snd (set_fiducial n self)) = fisher_base self.
Proof.
  unfold set_fiducial, bind, lift, gets, set__fiducial, modify. simpl.
  step_method; auto.
Qed.

Lemma add_model_keeps (parameters feature : list scalar) (self : FisherAnalysis) :
  derivatives (snd (fisher_inherited (add_model parameters feature) self))
  = derivatives self
  /\ _varied_list (snd (fisher_inherited (add_model parameters feature) self))
     = _varied_list self.
Proof.
  unfold fisher_inherited.
  destruct (add_model parameters feature (fisher_base self)). simpl. auto.
Qed.

Lemma get_varied_stored (self : FisherAnalysis) (d : matrix) (varied : list nat) :
  derivatives self = Some d -> _varied_list self = Some varied ->
  get_varied self = (Return varied, self).
Proof.
  intros Hd Hv. unfold get_varied, bind, lift, gets. now rewrite Hd, Hv.
Qed.

(** C5, as the code has it.  [set_fiducial] and [add_model] leave the
    stored derivatives and the recorded varied indices as they are: after
    either, [fit] and [fisher_matrix] take the stored array with no new
    computation, and [get_varied] returns the indices recorded with it. *)
Theorem stored_derivatives_survive (self : FisherAnalysis) (D : matrix)
  (varied : list nat) :
  derivatives self = Some D -> _varied_list self = Some varied ->
  (forall n,
     let self' := snd (set_fiducial n self) in
     derivatives self' = Some D
     /\ cached_derivatives self' = (Return D, self')
     /\ get_varied self' = (Return varied, self')
     /\ (forall ts c, training_set (fisher_base self) = Some ts ->
           nrows c = ncols ts -> ncols c = ncols ts ->
           fisher_matrix (Some (Arr2 c)) None self'
           = (let* Y := solve c (transpose D) in dot D Y, self')))
  /\ (forall parameters feature,
        let self' := snd (fisher_inherited (add_model parameters feature) self) in
        derivatives self' = Some D
        /\ cached_derivatives self' = (Return D, self')
        /\ get_varied self' = (Return varied, self')
        /\ (forall ts c, training_set (fisher_base self') = Some ts ->
              nrows c = ncols ts -> ncols c = ncols ts ->
              fisher_matrix (Some (Arr2 c)) None self'
              = (let* Y := solve c (transpose D) in dot D Y, self'))).
Proof.
  intros Hd Hv. split.
  - intros n self'. destruct (set_fiducial_keeps n self) as (K1 & K2 & K3).
    fold self' in K1, K2, K3. rewrite Hd in K1. rewrite Hv in K2.
    repeat split.
    + assumption.
    + now apply cached_derivatives_some.
    + now apply get_varied_stored with (d := D).
    + intros ts c Hts Hr Hc. rewrite <- K3 in Hts.
      rewrite (fisher_matrix_cached self' (Arr2 c) Hts
                 (cached_derivatives_some _ K1)) by (left; simpl; congruence).
      now rewrite weighted_full.
  - intros parameters feature self'.
    destruct (add_model_keeps parameters feature self) as (K1 & K2).
    fold self' in K1, K2. rewrite Hd in K1. rewrite Hv in K2.
    repeat split.
    + assumption.
    + now apply cached_derivatives_some.
    + now apply get_varied_stored with (d := D).
    + intros ts c Hts Hr Hc.
      rewrite (fisher_matrix_cached self' (Arr2 c) Hts
                 (cached_derivatives_some _ K1)) by (left; simpl; congruence).
      now rewrite weighted_full.
Qed.

(* ================================================================== *)
(** ** Training *)

(** The wrappers [train] builds with every parameter in use, one per bin. *)
Definition trained_wrappers (ps ts : matrix) (kwargs : keywords)
  : list _interpolate_wrapper :=
  map (fun n =>
         mk_interpolate_wrapper (rows (transpose ps))
           (nth n (rows (transpose ts)) []) kwargs)
    (seq 0 (ncols ts)).

Lemma train_loop (used : matrix) (flattened : matrix) (kwargs : keywords) (n : nat) :
  forall a l self,
  a + n <= ncols flattened ->
  _interpolator self = Some l ->
  for_ (seq a n)
    (fun n (_ : unit) =>
       l <- gets _interpolator ;;
       l <- lift (array_attr l "append") ;;
       column <- lift (nth_result (rows (transpose flattened)) n) ;;
       set__interpolator
         (l ++ [mk_interpolate_wrapper (rows used) column kwargs]))%py
    tt self
  = (Return tt,
     mkLikelihood (likelihood_base self) (_num_bins self)
       (Some (l ++ map (fun n =>
                          mk_interpolate_wrapper (rows used)
                            (nth n (rows (transpose flattened)) []) kwargs)
                     (seq a n)))).
Proof.
  induction n as [|n IH]; intros a l self Ha Hl; cbn [seq for_ map].
  - unfold ret. rewrite app_nil_r. destruct self; simpl in *. now subst.
  - unfold bind at 1. unfold bind at 1, gets. rewrite Hl.
    cbn [array_attr]. unfold bind at 1, lift.
    assert (Hlen : a < length (rows (transpose flattened))).
    { pose proof (transpose_nrows flattened) as T. unfold nrows in T at 1.
      rewrite T. lia. }
    rewrite (nth_result_nth _ [] Hlen).
    unfold set__interpolator, modify. simpl.
    rewrite (IH (S a) (l ++ [mk_interpolate_wrapper (rows used)
                               (nth a (rows (transpose flattened)) []) kwargs]))
      by (simpl; try lia; reflexivity).
    simpl. now rewrite <- app_assoc.
Qed.

Lemma train_all (self : LikelihoodAnalysis) (ps ts : matrix) (kwargs : keywords) :
  parameter_set (likelihood_base self) = Some ps ->
  training_set (likelihood_base self) = Some ts ->
  train None kwargs self
  = (Return tt,
     mkLikelihood (likelihood_base self) (Some (ncols ts))
       (Some (trained_wrappers ps ts kwargs))).
Proof.
  intros Hps Hts. unfold train, bind at 1, gets. rewrite Hps.
  unfold bind at 1, lift. simpl.
  unfold bind at 1. rewrite Hts. simpl.
  unfold bind at 1. simpl.
  unfold bind at 1, set__num_bins, modify.
  unfold bind at 1, set__interpolator, modify. simpl.
  unfold bind at 1.
  exact (@train_loop (transpose ps) (Matrix (ncols ts) (rows ts)) kwargs
           (ncols ts) 0 []
           (mkLikelihood (likelihood_base self) (Some (ncols ts)) (Some []))
           (Nat.le_refl _) eq_refl).
Qed.

(** The object after [trained]: as it is when interpolators are stored,
    and with the interpolators of the whole training set otherwise. *)
Definition after_training (self : LikelihoodAnalysis) (ps ts : matrix)
  : LikelihoodAnalysis :=
  match _interpolator self with
  | Some _ => self
  | None =>
      mkLikelihood (likelihood_base self) (Some (ncols ts))
        (Some (trained_wrappers ps ts no_keywords))
  end.

Lemma trained_ok (self : LikelihoodAnalysis) (ps ts : matrix) :
  parameter_set (likelihood_base self) = Some ps ->
  training_set (likelihood_base self) = Some ts ->
  trained self = (Return tt, after_training self ps ts).
Proof.
  intros Hps Hts. unfold trained, after_training, bind, gets. simpl.
  destruct (_interpolator self); [reflexivity|].
  now apply train_all.
Qed.

(* ================================================================== *)
(** ** Prediction and chi2 on a batch of points *)

(** The interpolator of bin [n]. *)
Definition build (wrappers : list _interpolate_wrapper) (n : nat)
  : result interpolator :=
  let* w := nth_result wrappers n in call_wrapper w.

(** A point as the interpolators receive it: its [nc] coordinates. *)
Definition coordinates (nc : nat) (point : list scalar) : list scalar :=
  map (fun j => nth j point s_zero) (seq 0 nc).

Lemma map_nth_seq {A B} (f : A -> B) (l : list A) (d : A) :
  map (fun i => f (nth i l d)) (seq 0 (length l)) = map f l.
Proof.
  induction l as [|a l IH]; simpl; [reflexivity|].
  f_equal. rewrite <- seq_shift, map_map. exact IH.
Qed.

Lemma nth_map_lt {A B} (h : A -> B) (l : list A) (i : nat) (d : A) (d' : B) :
  i < length l -> nth i (map h l) d' = h (nth i l d).
Proof.
  intros H. rewrite (nth_indep _ d' (h d)) by now rewrite length_map.
  apply map_nth.
Qed.

Lemma transpose_transpose_rows (m : matrix) :
  rows (transpose (transpose m)) = map (coordinates (ncols m)) (rows m).
Proof.
  unfold transpose at 1. cbn [rows ncols].
  change (ncols (transpose m)) with (nrows m). unfold nrows.
  rewrite <- (map_nth_seq (coordinates (ncols m)) (rows m) []).
  apply map_ext_in. intros i Hi. apply in_seq in Hi.
  unfold transpose. cbn [rows]. rewrite map_map. unfold coordinates.
  apply map_ext. intros j.
  apply (nth_map_lt (fun r => nth j r s_zero) (rows m) []). lia.
Qed.

Lemma call_interpolator_points (f : interpolator) (points : matrix) :
  call_interpolator f (transpose points)
  = map (fun pt => f (coordinates (ncols points) pt)) (rows points).
Proof.
  unfold call_interpolator. now rewrite transpose_transpose_rows, map_map.
Qed.

(** The array [_predict] fills for a batch: the bins done hold the value of
    their interpolator at each point, the others zero. *)
Definition partial_features (nb : nat) (points : matrix) (fs : list interpolator)
  : matrix :=
  Matrix nb
    (map (fun pt =>
            map (fun f : interpolator => f (coordinates (ncols points) pt)) fs
            ++ repeat s_zero (nb - length fs))
       (rows points)).

Lemma setcol_partial (nb : nat) (points : matrix) (fs : list interpolator)
  (f : interpolator) :
  length fs < nb ->
  setcol (partial_features nb points fs) (length fs)
    (call_interpolator f (transpose points))
  = Return (partial_features nb points (fs ++ [f])).
Proof.
  intros H. unfold setcol. cbn [ncols partial_features].
  apply Nat.ltb_lt in H as H'. rewrite H'.
  rewrite call_interpolator_points.
  assert (N : nrows (partial_features nb points fs) = length (rows points)).
  { unfold nrows, partial_features. cbn [rows]. now rewrite length_map. }
  rewrite N, length_map, bdim_same, Nat.eqb_refl.
  rewrite stretch_same by now rewrite length_map.
  unfold partial_features at 2. f_equal. f_equal.
  unfold partial_features. cbn [rows].
  rewrite map2_map. apply map_ext. intros pt.
  rewrite length_app. cbn [length].
  replace (nb - length fs) with (S (nb - (length fs + 1))) by lia.
  cbn [repeat].
  rewrite <- (length_map (fun f0 : interpolator => f0 (coordinates (ncols points) pt)) fs)
    at 1.
  rewrite upd_app, map_app. cbn [map]. now rewrite <- app_assoc.
Qed.

Lemma predict_loop (points : matrix) (nb : nat)
  (wrappers : list _interpolate_wrapper) (n : nat) :
  forall fs, length fs + n <= nb ->
  for_result (seq (length fs) n)
    (fun n interpolated_feature =>
       let* w := nth_result wrappers n in
       let* f := call_wrapper w in
       setcol interpolated_feature n (call_interpolator f (transpose points)))
    (partial_features nb points fs)
  = let* fs' := map_ (build wrappers) (seq (length fs) n) in
    Return (partial_features nb points (fs ++ fs')).
Proof.
  induction n as [|n IH]; intros fs H; cbn [seq for_result map_].
  - cbn [rbind]. now rewrite app_nil_r.
  - unfold build at 1.
    destruct (nth_result wrappers (length fs)) as [e|w]; cbn [rbind];
      [reflexivity|].
    destruct (call_wrapper w) as [e|f]; cbn [rbind]; [reflexivity|].
    rewrite setcol_partial by lia. cbn [rbind].
    replace (S (length fs)) with (length (fs ++ [f]))
      by (rewrite length_app; simpl; lia).
    rewrite IH by (rewrite length_app; simpl; lia).
    destruct (map_ _ _) as [e|fs']; cbn [rbind]; [reflexivity|].
    now rewrite <- app_assoc.
Qed.

(** The features [_predict] returns for a batch of points. *)
Definition batch_features (nb nc : nat) (fs : list interpolator)
  (points : list (list scalar)) : matrix :=
  Matrix nb
    (map (fun pt => map (fun f : interpolator => f (coordinates nc pt)) fs) points).

Lemma map__length {A B} (f : A -> result B) (l : list A) (bs : list B) :
  map_ f l = Return bs -> length bs = length l.
Proof.
  revert bs. induction l as [|a l IH]; intros bs; simpl.
  - now intros [= <-].
  - destruct (f a); simpl; [discriminate|].
    destruct (map_ f l); simpl; [discriminate|].
    intros [= <-]. simpl. now rewrite (IH _ eq_refl).
Qed.

Lemma predict_batch (points : matrix) (nb : nat)
  (wrappers : list _interpolate_wrapper) :
  _predict (Arr2 points) nb wrappers
  = let* fs := map_ (build wrappers) (seq 0 nb) in
    Return (Arr2 (batch_features nb (ncols points) fs (rows points))).
Proof.
  unfold _predict.
  pose proof (@predict_loop points nb wrappers nb [] (Nat.le_refl _)) as L.
  cbn [length app] in L.
  replace (zeros (nrows points) nb) with (partial_features nb points []).
  - rewrite L. destruct (map_ _ _) as [e|fs] eqn:E; cbn [rbind]; [reflexivity|].
    f_equal. f_equal. unfold partial_features, batch_features. f_equal.
    apply map_ext. intros pt.
    apply map__length in E. rewrite length_seq in E.
    now rewrite E, Nat.sub_diag, app_nil_r.
  - unfold partial_features, zeros. f_equal. cbn [length map app].
    rewrite Nat.sub_0_r. unfold nrows.
    induction (rows points) as [|pt l IH]; simpl; [reflexivity|].
    now rewrite IH.
Qed.

Lemma broadcast2_row (f : scalar -> scalar -> scalar) (v : list scalar) (m : matrix) :
  broadcast2 f (row_matrix v) m
  = match bdim (length v) (ncols m) with
    | Some c =>
        Return (Matrix c
                  (map (fun rb => map2 f (stretch c v) (stretch c rb)) (rows m)))
    | None => broadcast_error
    end.
Proof.
  unfold broadcast2. change (nrows (row_matrix v)) with 1.
  rewrite bdim_one_l. change (ncols (row_matrix v)) with (length v).
  destruct (bdim (length v) (ncols m)) as [c|]; [|reflexivity].
  change (rows (row_matrix v)) with [v].
  rewrite stretch_singleton, stretch_same by reflexivity.
  unfold nrows. now rewrite map2_repeat_l.
Qed.

Lemma broadcast2_same_rows (f : scalar -> scalar -> scalar) (a b : matrix) :
  nrows a = nrows b ->
  broadcast2 f a b
  = match bdim (ncols a) (ncols b) with
    | Some c =>
        Return (Matrix c
                  (map2 (fun ra rb => map2 f (stretch c ra) (stretch c rb))
                     (rows a) (rows b)))
    | None => broadcast_error
    end.
Proof.
  intros H. unfold broadcast2. rewrite H, bdim_same.
  now rewrite !stretch_same by (unfold nrows in *; congruence).
Qed.

(** The chi2 of one point of a batch, from the interpolators [fs] and the
    common lengths [c] and [c'] of the two broadcasts. *)
Definition chi2_point (kwargs : chi2_kwargs) (fs : list interpolator)
  (c c' : nat) (point : list scalar) : scalar :=
  let model_feature := map (fun f : interpolator => f point) fs in
  let difference :=
    map2 s_sub (stretch c (kw_observed_feature kwargs)) (stretch c model_feature) in
  let inverse_covariance_dot :=
    map (dotp difference) (rows (transpose (kw_inverse_covariance kwargs))) in
  vsum (map2 s_mul (stretch c' difference) (stretch c' inverse_covariance_dot)).

(** What the module level [chi2] does with a batch of points of [nc]
    coordinates, whatever their number: an exception, or one function for
    every point. *)
Definition chi2_batch (kwargs : chi2_kwargs) (nc : nat)
  : result (list scalar -> scalar) :=
  let* fs := map_ (build (kw_interpolator kwargs)) (seq 0 (kw_num_bins kwargs)) in
  match bdim (length (kw_observed_feature kwargs)) (kw_num_bins kwargs) with
  | None => broadcast_error
  | Some c =>
      if c =? nrows (kw_inverse_covariance kwargs) then
        match bdim c (ncols (kw_inverse_covariance kwargs)) with
        | None => broadcast_error
        | Some c' =>
            Return (fun pt => chi2_point kwargs fs c c' (coordinates nc pt))
        end
      else dot_error
  end.

Lemma chi2_rows (kwargs : chi2_kwargs) (nc : nat) (l : list (list scalar)) :
  chi2 (Arr2 (Matrix nc l)) kwargs
  = rmap (fun h => Arr1 (map h l)) (chi2_batch kwargs nc).
Proof.
  unfold chi2, chi2_batch. rewrite predict_batch. cbn [ncols rows].
  destruct (map_ _ _) as [e|fs]; cbn [rbind rmap]; [reflexivity|].
  rewrite broadcast2_row. cbn [ncols batch_features].
  destruct (bdim _ (kw_num_bins kwargs)) as [c|]; cbn [rbind]; [|reflexivity].
  unfold dot at 1. cbn [ncols].
  destruct (c =? nrows (kw_inverse_covariance kwargs)); cbn [rbind];
    [|reflexivity].
  rewrite broadcast2_same_rows
    by (unfold nrows; cbn [rows]; now rewrite !length_map).
  cbn [ncols].
  destruct (bdim c (ncols (kw_inverse_covariance kwargs))) as [c'|];
    cbn [rbind]; [|reflexivity].
  cbn [rmap rbind rows]. unfold batch_features. cbn [rows].
  rewrite !map_map. rewrite map2_map, map_map. reflexivity.
Qed.

(* ================================================================== *)
(** ** Chunks *)

Lemma firstn_add {A} (a b : nat) (l : list A) :
  firstn (a + b) l = firstn a l ++ firstn b (skipn a l).
Proof.
  revert l. induction a as [|a IH]; intros [|x l]; simpl;
    rewrite ?firstn_nil; try reflexivity.
  now rewrite IH.
Qed.

Lemma concat_slices {A} (l : list A) (cl k : nat) :
  forall a,
  concat (map (fun n => slice l (n * cl) ((n + 1) * cl)) (seq a k))
  = firstn (k * cl) (skipn (a * cl) l).
Proof.
  induction k as [|k IH]; intros a; simpl; [reflexivity|].
  rewrite IH. unfold slice.
  replace ((a + 1) * cl - a * cl) with cl by lia.
  rewrite firstn_add, skipn_skipn. reflexivity.
Qed.

(** The chunk [n] of [chunk_length] rows: the rows from [n * chunk_length]
    on and below [(n + 1) * chunk_length]. *)
Definition chunk_rows (m : matrix) (chunk_length n : nat) : list (list scalar) :=
  slice (rows m) (n * chunk_length) ((n + 1) * chunk_length).

Lemma exact_chunks (N : nat) (k : Z) :
  (0 < k)%Z -> (Z.of_nat N mod k = 0)%Z ->
  Z.to_nat k * Z.to_nat (Z.of_nat N / k) = N.
Proof.
  intros Hk Hm.
  pose proof (Z.div_mod (Z.of_nat N) k ltac:(lia)) as E. rewrite Hm in E.
  assert (0 <= Z.of_nat N / k)%Z by (apply Z.div_pos; lia).
  rewrite <- Z2Nat.inj_mul by lia.
  rewrite <- (Nat2Z.id N) at 2. f_equal. lia.
Qed.

Lemma parameter_chunks_batch (m : matrix) (k : Z) :
  (0 < k)%Z -> (Z.of_nat (nrows m) mod k = 0)%Z ->
  parameter_chunks (Arr2 m) (nrows m) (Some k)
  = Return (map (fun n =>
                   Arr2 (Matrix (ncols m)
                           (chunk_rows m (Z.to_nat (Z.of_nat (nrows m) / k)) n)))
              (seq 0 (Z.to_nat k))).
Proof.
  intros Hk Hm. unfold parameter_chunks.
  apply Z.ltb_lt in Hk as Hk'. rewrite Hk', Hm. cbn [Z.eqb assert_msg rbind].
  now apply map__Return.
Qed.

Lemma chunk_rows_concat (m : matrix) (k : Z) :
  (0 < k)%Z -> (Z.of_nat (nrows m) mod k = 0)%Z ->
  concat (map (chunk_rows m (Z.to_nat (Z.of_nat (nrows m) / k)))
            (seq 0 (Z.to_nat k)))
  = rows m.
Proof.
  intros Hk Hm. unfold chunk_rows. rewrite concat_slices.
  rewrite exact_chunks by assumption. simpl. apply firstn_all.
Qed.

(** The module level [chi2] mapped on chunks of a batch. *)
Lemma map__chi2_chunks (kwargs : chi2_kwargs) (nc : nat)
  (chunks : list (list (list scalar))) :
  chunks <> [] ->
  map_ (fun x => chi2 x kwargs) (map (fun c => Arr2 (Matrix nc c)) chunks)
  = rmap (fun h => map (fun c => Arr1 (map h c)) chunks) (chi2_batch kwargs nc).
Proof.
  induction chunks as [|c chunks IH]; intros H; [contradiction|].
  cbn [map map_]. rewrite chi2_rows.
  destruct (chi2_batch kwargs nc) as [e|h]; cbn [rmap rbind]; [reflexivity|].
  destruct chunks as [|c' chunks]; [reflexivity|].
  rewrite IH by discriminate. reflexivity.
Qed.

Lemma reshape_flat_chunks (h : list scalar -> scalar)
  (chunks : list (list (list scalar))) (n : nat) :
  reshape_flat (map (fun c => Arr1 (map h c)) chunks) n
  = reshape_flat [Arr1 (map h (concat chunks))] n.
Proof.
  unfold reshape_flat. rewrite map_map. cbn [flat map concat].
  rewrite app_nil_r, concat_map. reflexivity.
Qed.

(** The end of the method [chi2] with chunks and without. *)
Lemma chi2_chunks_agree (m : matrix) (k : Z) (kwargs : chi2_kwargs) :
  (0 < k)%Z -> (Z.of_nat (nrows m) mod k = 0)%Z ->
  (let* chi2_list :=
     map_ (fun x => chi2 x kwargs)
       (map (fun n =>
               Arr2 (Matrix (ncols m)
                       (chunk_rows m (Z.to_nat (Z.of_nat (nrows m) / k)) n)))
          (seq 0 (Z.to_nat k))) in
   reshape_flat chi2_list (nrows m))
  = (let* chi2_list := map_ (fun x => chi2 x kwargs) [Arr2 m] in
     reshape_flat chi2_list (nrows m)).
Proof.
  intros Hk Hm.
  rewrite <- (map_map (chunk_rows m (Z.to_nat (Z.of_nat (nrows m) / k)))
                (fun c => Arr2 (Matrix (ncols m) c))).
  rewrite map__chi2_chunks.
  - replace [Arr2 m] with (map (fun c => Arr2 (Matrix (ncols m) c)) [rows m])
      by (destruct m; reflexivity).
    rewrite map__chi2_chunks by discriminate.
    destruct (chi2_batch kwargs (ncols m)) as [e|h]; cbn [rmap rbind];
      [reflexivity|].
    rewrite reshape_flat_chunks, chunk_rows_concat by assumption.
    rewrite (reshape_flat_chunks h [rows m]). cbn [concat].
    now rewrite app_nil_r.
  - destruct (Z.to_nat k) eqn:E; [lia|]. discriminate.
Qed.

(* ================================================================== *)
(** ** The method [chi2] *)

(** The number of points of [parameters], as the method computes it. *)
Definition num_points_of (parameters : ndarray) : result nat :=
  if ndim parameters =? 1 then Return 1
  else match shape parameters with
       | n :: _ => Return n
       | [] => shape_index_error
       end.

(** The assertions of the method, and the training. *)
Definition chi2_checked (observed_feature : option (list scalar))
  (features_covariance : option ndarray) : method LikelihoodAnalysis unit :=
  lift (assert_ (is_some observed_feature)) ;;
  lift (assert_msg (is_some features_covariance) covariance_error) ;;
  observed_feature <- lift (array_attr observed_feature "shape") ;;
  features_covariance <- lift (array_attr features_covariance "shape") ;;
  ts <- gets (fun self => training_set (likelihood_base self)) ;;
  ts <- lift (array_attr ts "shape") ;;
  let observed_shape := shape (Arr1 observed_feature) in
  lift (assert_ (shape_eqb observed_shape (tl (shape (Arr2 ts))))) ;;
  lift (assert_ (shape_eqb (shape features_covariance)
                   (observed_shape ++ observed_shape))) ;;
  trained.

(** The method after them, on the trained object: from the chunks to the
    result, with the one inverse of the covariance for every chunk. *)
Definition chi2_chunked (parameters : ndarray) (observed_feature : list scalar)
  (features_covariance : ndarray) (split_chunks : option Z) (num_bins : nat)
  (wrappers : list _interpolate_wrapper) : result (list scalar) :=
  let* num_points := num_points_of parameters in
  let* chunks := parameter_chunks parameters num_points split_chunks in
  let* covinv := np_inv features_covariance in
  let* chi2_list :=
    map_ (fun x => chi2 x (mk_chi2_kwargs num_bins wrappers covinv observed_feature))
      chunks in
  reshape_flat chi2_list num_points.

Definition chi2_after_checks (parameters : ndarray)
  (observed_feature : option (list scalar)) (features_covariance : option ndarray)
  (split_chunks : option Z) (pool_ : option pool) (self : LikelihoodAnalysis)
  : result (list scalar) :=
  let* o := array_attr observed_feature "shape" in
  let* c := array_attr features_covariance "shape" in
  let* num_points := num_points_of parameters in
  let* chunks := parameter_chunks parameters num_points split_chunks in
  let* covinv := np_inv c in
  let* nb := array_attr (_num_bins self) "_num_bins" in
  let* w := array_attr (_interpolator self) "_interpolator" in
  let* chi2_list :=
    match pool_ with
    | Some p => pool_map p (fun x => chi2 x (mk_chi2_kwargs nb w covinv o)) chunks
    | None => map_ (fun x => chi2 x (mk_chi2_kwargs nb w covinv o)) chunks
    end in
  reshape_flat chi2_list num_points.

Lemma chi2_method_checked (parameters : ndarray)
  (observed_feature : option (list scalar)) (features_covariance : option ndarray)
  (split_chunks : option Z) (pool_ : option pool) (self : LikelihoodAnalysis) :
  chi2_method parameters observed_feature features_covariance split_chunks pool_ self
  = match chi2_checked observed_feature features_covariance self with
    | (Raise e, self') => (Raise e, self')
    | (Return _, self') =>
        (chi2_after_checks parameters observed_feature features_covariance
           split_chunks pool_ self', self')
    end.
Proof.
  unfold chi2_method, chi2_checked, chi2_after_checks, bind, lift, gets.
  destruct observed_feature as [o|]; cbn [is_some assert_ array_attr];
    [|reflexivity].
  destruct features_covariance as [c|]; cbn [is_some assert_msg array_attr];
    [|reflexivity].
  destruct (training_set (likelihood_base self)) as [ts|]; cbn [array_attr];
    [|reflexivity].
  destruct (assert_ (shape_eqb (shape (Arr1 o)) (tl (shape (Arr2 ts)))));
    [reflexivity|].
  destruct (assert_ (shape_eqb (shape c) (shape (Arr1 o) ++ shape (Arr1 o))));
    [reflexivity|].
  destruct (trained self) as [[e|[]] self']; [reflexivity|].
  fold (num_points_of parameters). cbn [rbind].
  destruct (num_points_of parameters) as [e|n]; cbn [rbind]; [reflexivity|].
  destruct (parameter_chunks parameters n split_chunks) as [e|chunks];
    cbn [rbind]; [reflexivity|].
  destruct (np_inv c) as [e|covinv]; cbn [rbind]; [reflexivity|].
  destruct (_num_bins self') as [nb|]; cbn [array_attr rbind]; [|reflexivity].
  destruct (_interpolator self') as [w|]; cbn [array_attr rbind]; [|reflexivity].
  destruct pool_ as [p|].
  - destruct (pool_map p _ chunks); reflexivity.
  - destruct (map_ _ chunks); reflexivity.
Qed.

Lemma chi2_after_checks_chunked (parameters : ndarray) (o : list scalar)
  (c : ndarray) (split_chunks : option Z) (self : LikelihoodAnalysis)
  (nb : nat) (w : list _interpolate_wrapper) :
  _num_bins self = Some nb -> _interpolator self = Some w ->
  chi2_after_checks parameters (Some o) (Some c) split_chunks None self
  = chi2_chunked parameters o c split_chunks nb w.
Proof.
  intros Hn Hw. unfold chi2_after_checks, chi2_chunked. rewrite Hn, Hw.
  reflexivity.
Qed.

Lemma chi2_checked_ok (o : list scalar) (c : ndarray) (self : LikelihoodAnalysis)
  (ps ts : matrix) :
  parameter_set (likelihood_base self) = Some ps ->
  training_set (likelihood_base self) = Some ts ->
  length o = ncols ts -> shape c = [ncols ts; ncols ts] ->
  chi2_checked (Some o) (Some c) self = (Return tt, after_training self ps ts).
Proof.
  intros Hps Hts Ho Hc.
  unfold chi2_checked, bind, lift, gets. cbn [is_some assert_ assert_msg array_attr].
  rewrite Hts. cbn [array_attr shape tl app]. rewrite Hc, Ho, !shape_eqb_refl.
  cbn [assert_]. now rewrite (trained_ok self Hps Hts).
Qed.

Lemma after_training_attributes (self : LikelihoodAnalysis) (ps ts : matrix) :
  _interpolator self = None ->
  _num_bins (after_training self ps ts) = Some (ncols ts)
  /\ _interpolator (after_training self ps ts)
     = Some (trained_wrappers ps ts no_keywords).
Proof. intros H. unfold after_training. rewrite H. now split. Qed.

(** C6.  For a batch [m] of points and a positive [k] that divides their
    number, the method [chi2] with [split_chunks=k] and no pool returns what
    it returns with [split_chunks=None], outcome and object alike, whatever
    the other arguments.  The chunks are the [k] arrays of the rows
    [n * chunk_length] to [(n + 1) * chunk_length] of the batch, for [n]
    from 0, which together are its rows in their order; after the assertions
    and the training the result is the module level [chi2] mapped on them
    with the one inverse of the covariance, and, when that function returns
    for a batch, its value at each row of the batch in the order of the
    rows. *)
Theorem chi2_split_chunks_agree (self : LikelihoodAnalysis) (m : matrix)
  (observed_feature : option (list scalar)) (features_covariance : option ndarray)
  (k : Z) :
  (0 < k)%Z -> (Z.of_nat (nrows m) mod k = 0)%Z ->
  let chunk_length := Z.to_nat (Z.of_nat (nrows m) / k) in
  let chunks :=
    map (fun n => Arr2 (Matrix (ncols m) (chunk_rows m chunk_length n)))
      (seq 0 (Z.to_nat k)) in
  chi2_method (Arr2 m) observed_feature features_covariance (Some k) None self
  = chi2_method (Arr2 m) observed_feature features_covariance None None self
  /\ parameter_chunks (Arr2 m) (nrows m) (Some k) = Return chunks
  /\ concat (map (chunk_rows m chunk_length) (seq 0 (Z.to_nat k))) = rows m
  /\ (forall o c self' nb w,
        observed_feature = Some o -> features_covariance = Some c ->
        chi2_checked observed_feature features_covariance self = (Return tt, self') ->
        _num_bins self' = Some nb -> _interpolator self' = Some w ->
        chi2_method (Arr2 m) observed_feature features_covariance (Some k) None self
        = (let* covinv := np_inv c in
           let* chi2_list :=
             map_ (fun x => chi2 x (mk_chi2_kwargs nb w covinv o)) chunks in
           reshape_flat chi2_list (nrows m), self')
        /\ (forall covinv h,
              np_inv c = Return covinv ->
              chi2_batch (mk_chi2_kwargs nb w covinv o) (ncols m) = Return h ->
              chi2_method (Arr2 m) observed_feature features_covariance (Some k)
                None self
              = (Return (map h (rows m)), self'))).
Proof.
  intros Hk Hm chunk_length chunks.
  assert (A : forall kwargs,
             (let* chi2_list := map_ (fun x => chi2 x kwargs) chunks in
              reshape_flat chi2_list (nrows m))
             = (let* chi2_list := map_ (fun x => chi2 x kwargs) [Arr2 m] in
                reshape_flat chi2_list (nrows m))).
  { intros kwargs. now apply chi2_chunks_agree. }
  assert (P : parameter_chunks (Arr2 m) (nrows m) (Some k) = Return chunks)
    by now apply parameter_chunks_batch.
  split; [|split; [exact P|split; [now apply chunk_rows_concat|]]].
  - rewrite !chi2_method_checked.
    destruct (chi2_checked _ _ self) as [[e|[]] self']; [reflexivity|].
    f_equal. unfold chi2_after_checks.
    destruct (array_attr observed_feature "shape") as [e|o]; [reflexivity|].
    destruct (array_attr features_covariance "shape") as [e|c]; [reflexivity|].
    cbn [rbind num_points_of ndim shape length Nat.eqb]. rewrite P.
    cbn [parameter_chunks rbind].
    destruct (np_inv c) as [e|covinv]; [reflexivity|]. cbn [rbind].
    destruct (array_attr (_num_bins self') "_num_bins") as [e|nb];
      [reflexivity|]. cbn [rbind].
    destruct (array_attr (_interpolator self') "_interpolator") as [e|w];
      [reflexivity|]. cbn [rbind].
    apply A.
  - intros o c self' nb w -> -> Hc Hn Hw.
    rewrite chi2_method_checked, Hc.
    rewrite (chi2_after_checks_chunked _ _ _ _ _ Hn Hw).
    unfold chi2_chunked.
    cbn [rbind num_points_of ndim shape length Nat.eqb]. rewrite P.
    cbn [rbind]. split; [reflexivity|].
    intros covinv h Hi Hh. rewrite Hi. cbn [rbind]. rewrite A.
    cbn [map_]. replace (Arr2 m) with (Arr2 (Matrix (ncols m) (rows m)))
      by (destruct m; reflexivity).
    rewrite chi2_rows. cbn [ncols rows]. rewrite Hh.
    cbn [rmap rbind]. unfold reshape_flat. cbn [map flat concat].
    rewrite app_nil_r, length_map. unfold nrows. cbn [rows].
    now rewrite Nat.eqb_refl.
Qed.

(** C7, as the code has it.  After the assertions on the observed feature
    and on the covariance, and the training, the method [chi2] raises
    [ValueError] when [split_chunks] is zero or negative, and
    [AssertionError] when [split_chunks] is positive and does not divide the
    number of points; in both cases it returns no value. *)
Theorem chi2_split_chunks_errors (self : LikelihoodAnalysis) (parameters : ndarray)
  (o : list scalar) (c : ndarray) (ps ts : matrix) (k : Z) (n : nat)
  (pool_ : option pool) :
  parameter_set (likelihood_base self) = Some ps ->
  training_set (likelihood_base self) = Some ts ->
  length o = ncols ts -> shape c = [ncols ts; ncols ts] ->
  num_points_of parameters = Return n ->
  ((k <= 0)%Z ->
     fst (chi2_method parameters (Some o) (Some c) (Some k) pool_ self)
     = Raise (ValueError "split_chunks must be >0!!"))
  /\ ((0 < k)%Z -> (Z.of_nat n mod k <> 0)%Z ->
        fst (chi2_method parameters (Some o) (Some c) (Some k) pool_ self)
        = Raise (AssertionError
                   (Some "split_chunks must divide exactly the number of points!!"%string))).
Proof.
  intros Hps Hts Ho Hc Hn.
  rewrite chi2_method_checked, (@chi2_checked_ok o c self ps ts Hps Hts Ho Hc).
  cbn [fst]. unfold chi2_after_checks. cbn [array_attr rbind]. rewrite Hn.
  cbn [rbind]. unfold parameter_chunks. split.
  - intros Hk. destruct (Z.ltb_spec 0 k); [lia|]. reflexivity.
  - intros Hk Hm. destruct (Z.ltb_spec 0 k); [|lia].
    destruct (Z.eqb_spec (Z.of_nat n mod k) 0); [contradiction|]. reflexivity.
Qed.

Lemma chi2_checked_shapes (observed_feature : option (list scalar))
  (features_covariance : option ndarray) (self self' : LikelihoodAnalysis) (u : unit) :
  chi2_checked observed_feature features_covariance self = (Return u, self') ->
  exists o c, observed_feature = Some o /\ features_covariance = Some c
              /\ shape c = shape (Arr1 o) ++ shape (Arr1 o).
Proof.
  unfold chi2_checked, bind, lift, gets.
  destruct observed_feature as [o|]; cbn [is_some assert_ array_attr];
    [|discriminate].
  destruct features_covariance as [c|]; cbn [is_some assert_msg array_attr];
    [|discriminate].
  destruct (training_set (likelihood_base self)) as [ts|]; cbn [array_attr];
    [|discriminate].
  destruct (shape_eqb (shape (Arr1 o)) (tl (shape (Arr2 ts)))); cbn [assert_];
    [|discriminate].
  destruct (shape_eqb (shape c) (shape (Arr1 o) ++ shape (Arr1 o))) eqn:E;
    cbn [assert_]; [|discriminate].
  intros _. exists o, c. repeat split. now apply shape_eqb_eq.
Qed.

Lemma chi2_checked_errors (observed_feature : option (list scalar))
  (v : list scalar) (self : LikelihoodAnalysis) :
  exists e, fst (chi2_checked observed_feature (Some (Arr1 v)) self) = Raise e
            /\ (exn_class e = "AssertionError"%string
                \/ exn_class e = "AttributeError"%string).
Proof.
  unfold chi2_checked, bind, lift, gets.
  destruct observed_feature as [o|]; cbn [is_some assert_ assert_msg array_attr fst].
  2:{ eexists. split; [reflexivity|now left]. }
  destruct (training_set (likelihood_base self)) as [ts|]; cbn [array_attr fst].
  2:{ eexists. split; [reflexivity|now right]. }
  destruct (shape_eqb (shape (Arr1 o)) (tl (shape (Arr2 ts)))); cbn [assert_ fst].
  2:{ eexists. split; [reflexivity|now left]. }
  cbn [shape app shape_eqb]. rewrite andb_false_r. cbn [assert_ fst].
  eexists. split; [reflexivity|now left].
Qed.

(** C8.  The method [chi2] returns a value only for a covariance whose
    shape is the shape of the observed feature twice: with a covariance of
    rank 1 it raises for every object and every other argument
    ([AssertionError], or [AttributeError] when there is no training set).
    [fisher_matrix] and [fit] of [FisherAnalysis] take a covariance of rank 1
    of the shape of the features, as a diagonal. *)
Theorem chi2_rejects_diagonal_covariance :
  (forall (self : LikelihoodAnalysis) parameters observed_feature v
          split_chunks pool_,
      exists e,
        fst (chi2_method parameters observed_feature (Some (Arr1 v))
               split_chunks pool_ self) = Raise e
        /\ (exn_class e = "AssertionError"%string
            \/ exn_class e = "AttributeError"%string))
  /\ (forall (self : LikelihoodAnalysis) parameters observed_feature
             features_covariance split_chunks pool_ r,
        fst (chi2_method parameters observed_feature features_covariance
               split_chunks pool_ self) = Return r ->
        exists o c, observed_feature = Some o /\ features_covariance = Some c
                    /\ shape c = shape (Arr1 o) ++ shape (Arr1 o))
  /\ (forall (self self' : FisherAnalysis) ts D v,
        training_set (fisher_base self) = Some ts ->
        cached_derivatives self = (Return D, self') ->
        length v = ncols ts -> ncols D = ncols ts ->
        fisher_matrix (Some (Arr1 v)) None self
        = (dot D (scaled_transpose v D), self'))
  /\ (forall (self self' : FisherAnalysis) ps ts D v observed_feature fid varied,
        parameter_set (fisher_base self) = Some ps ->
        training_set (fisher_base self) = Some ts ->
        wf_matrix ps -> wf_matrix ts ->
        _fiducial self = Z.of_nat fid -> fid < nrows ps -> fid < nrows ts ->
        length observed_feature = ncols ts ->
        cached_derivatives self = (Return D, self') ->
        _varied_list self' = Some varied ->
        (forall j, In j varied -> j < ncols ps) ->
        length v = ncols ts -> ncols D = ncols ts ->
        fit observed_feature (Some (Arr1 v)) self
        = (let* XY := dot D (scaled_transpose v D) in
           let* M := solve XY (transpose (scaled_transpose v D)) in
           let* dP :=
             dot_mv M (map2 s_sub observed_feature (nth fid (rows ts) [])) in
           broadcast1 s_add
             (map (fun j => nth j (nth fid (rows ps) []) s_zero) varied) dP,
           self')).
Proof.
  repeat split.
  - intros self parameters observed_feature v split_chunks pool_.
    rewrite chi2_method_checked.
    destruct (chi2_checked_errors observed_feature v self) as (e & He & Hcls).
    exists e. destruct (chi2_checked _ _ self) as [[e'|u] s']; cbn [fst] in *;
      [|discriminate].
    injection He as ->. split; [reflexivity|assumption].
  - intros self parameters observed_feature features_covariance split_chunks
      pool_ r H. rewrite chi2_method_checked in H.
    destruct (chi2_checked _ _ self) as [[e|u] s'] eqn:E; cbn [fst] in H;
      [discriminate|].
    now apply chi2_checked_shapes in E.
  - intros self self' ts D v Hts Hd Hv Hc.
    rewrite (fisher_matrix_cached self (Arr1 v) Hts Hd)
      by (right; simpl; congruence).
    now rewrite weighted_diagonal.
  - intros self self' ps ts D v observed_feature fid varied
      Hps Hts Wp Wt Hfid Hfp Hft Hobs Hd Hvl Hj Hv Hc.
    rewrite (@fit_cached self self' ps ts D (Arr1 v) observed_feature fid varied
               Hps Hts Wp Wt Hfid Hfp Hft Hobs Hd Hvl Hj)
      by (right; simpl; congruence).
    now rewrite weighted_diagonal.
Qed.

(* ================================================================== *)
(** * More of the module *)

(** ** [add_model] *)

(** An analysis whose two arrays are both absent, or both present with one
    row per model. *)
Definition consistent (self : Analysis) : Prop :=
  match parameter_set self, training_set self with
  | None, None => True
  | Some ps, Some ts => nrows ps = nrows ts /\ wf_matrix ps /\ wf_matrix ts
  | _, _ => False
  end.

(** The rows of an array that may be absent. *)
Definition rows_or_none (o : option matrix) : list (list scalar) :=
  match o with
  | Some m => rows m
  | None => []
  end.

Lemma wf_matrix_app (c : nat) (l : list (list scalar)) (v : list scalar) :
  wf_matrix (Matrix c l) -> length v = c -> wf_matrix (Matrix c (l ++ [v])).
Proof.
  unfold wf_matrix. cbn [rows ncols]. intros W H. apply Forall_app. split.
  - exact W.
  - now repeat constructor.
Qed.

(** X1.  On an analysis with no array yet, or with its two arrays of as
    many rows, and for a parameter vector and a feature of the lengths
    already in place, [add_model] returns and appends the two records as the
    last rows: the rows held before stay as they are and in their order, and
    the two arrays have again as many rows.  The first model fixes the two
    lengths. *)
Theorem add_model_appends (self : Analysis) (parameters feature : list scalar) :
  consistent self ->
  (forall ps, parameter_set self = Some ps -> length parameters = ncols ps) ->
  (forall ts, training_set self = Some ts -> length feature = ncols ts) ->
  let self' :=
    mkAnalysis
      (Some (Matrix (length parameters)
               (rows_or_none (parameter_set self) ++ [parameters])))
      (Some (Matrix (length feature)
               (rows_or_none (training_set self) ++ [feature]))) in
  add_model parameters feature self = (Return tt, self')
  /\ consistent self'.
Proof.
  intros C Hp Hf self'. subst self'. unfold add_model, bind, gets, lift.
  unfold consistent in C. destruct self as [[ps|] [ts|]]; cbn in *;
    try contradiction.
  - destruct C as (E & Wp & Wt).
    rewrite (Hp ps eq_refl), (Hf ts eq_refl), !Nat.eqb_refl. cbn.
    unfold vstack. rewrite <- (Hp ps eq_refl), <- (Hf ts eq_refl), !Nat.eqb_refl.
    cbn. split; [reflexivity|]. unfold consistent. cbn. repeat split.
    + unfold nrows in *. cbn. rewrite !length_app. cbn. lia.
    + apply wf_matrix_app; [|reflexivity]. destruct ps as [c l]. cbn in *.
      now rewrite (Hp _ eq_refl).
    + apply wf_matrix_app; [|reflexivity]. destruct ts as [c l]. cbn in *.
      now rewrite (Hf _ eq_refl).
  - split; [reflexivity|]. unfold consistent. cbn.
    repeat split; now repeat constructor.
Qed.

(** X2.  An [add_model] that raises leaves the analysis as it was, whatever
    the analysis and the arguments; the exception is an [AssertionError], or
    an [AttributeError] when the training set is missing.  With two arrays in
    place it raises exactly when the parameter vector or the feature has not
    the length of the rows. *)
Theorem add_model_atomic (self : Analysis) (parameters feature : list scalar) :
  (forall e, fst (add_model parameters feature self) = Raise e ->
     snd (add_model parameters feature self) = self
     /\ (exn_class e = "AssertionError"%string
         \/ exn_class e = "AttributeError"%string))
  /\ (forall ps ts,
        parameter_set self = Some ps -> training_set self = Some ts ->
        (is_return (fst (add_model parameters feature self)) = false
         <-> length parameters <> ncols ps \/ length feature <> ncols ts)).
Proof.
  unfold add_model, bind, gets, lift, vstack.
  destruct self as [[ps|] [ts|]]; cbn.
  - destruct (Nat.eqb_spec (length parameters) (ncols ps)) as [Ep|Ep]; cbn.
    + destruct (Nat.eqb_spec (length feature) (ncols ts)) as [Ef|Ef]; cbn.
      * rewrite <- Ep, <- Ef, !Nat.eqb_refl. cbn. split.
        -- intros e H. discriminate.
        -- intros ps' ts' [= <-] [= <-]. split; [discriminate|]. tauto.
      * split.
        -- intros e [= <-]. split; [reflexivity|now left].
        -- intros ps' ts' [= <-] [= <-]. split; auto.
      + split.
        -- intros e [= <-]. split; [reflexivity|now left].
        -- intros ps' ts' [= <-] [= <-]. split; auto.
  - split; [|intros ps' ts' _ H; discriminate].
    destruct (length parameters =? ncols ps); cbn; intros e [= <-];
      (split; [reflexivity|]); [now right|now left].
  - split; [|intros ps' ts' H; discriminate].
    intros e [= <-]. split; [reflexivity|now left].
  - split; [|intros ps' ts' H; discriminate]. intros e H. discriminate.
Qed.

Lemma add_model_one_array (self : Analysis) (parameters feature : list scalar) :
  is_some (parameter_set self) = negb (is_some (training_set self)) ->
  exists e, add_model parameters feature self = (Raise e, self).
Proof.
  unfold add_model, bind, gets, lift.
  destruct self as [[ps|] [ts|]]; cbn; try discriminate; intros _.
  - destruct (length parameters =? ncols ps); cbn; eexists; reflexivity.
  - eexists; reflexivity.
Qed.

(** X3.  An object built from one array only takes no model: for either
    subclass, after a construction with the parameter set alone or with the
    training set alone, every [add_model] raises and leaves the object as it
    is. *)
Theorem one_array_object_takes_no_model (m : matrix)
  (parameters feature : list scalar) :
  (exists self e,
      new_FisherAnalysis (Some m) None = Return self
      /\ fisher_inherited (add_model parameters feature) self = (Raise e, self))
  /\ (exists self e,
        new_FisherAnalysis None (Some m) = Return self
        /\ fisher_inherited (add_model parameters feature) self = (Raise e, self))
  /\ (exists self e,
        new_LikelihoodAnalysis (Some m) None = Return self
        /\ likelihood_inherited (add_model parameters feature) self = (Raise e, self))
  /\ (exists self e,
        new_LikelihoodAnalysis None (Some m) = Return self
        /\ likelihood_inherited (add_model parameters feature) self = (Raise e, self)).
Proof.
  assert (A : exists e,
             add_model parameters feature (mkAnalysis (Some m) None)
             = (Raise e, mkAnalysis (Some m) None))
    by now apply add_model_one_array.
  assert (B : exists e,
             add_model parameters feature (mkAnalysis None (Some m))
             = (Raise e, mkAnalysis None (Some m)))
    by now apply add_model_one_array.
  destruct A as (ea & A), B as (eb & B).
  repeat split.
  - exists (mkFisher (mkAnalysis (Some m) None) 0 None None), ea.
    split; [reflexivity|]. unfold fisher_inherited. cbn [fisher_base].
    now rewrite A.
  - exists (mkFisher (mkAnalysis None (Some m)) 0 None None), eb.
    split; [reflexivity|]. unfold fisher_inherited. cbn [fisher_base].
    now rewrite B.
  - exists (mkLikelihood (mkAnalysis (Some m) None) None None), ea.
    split; [reflexivity|]. unfold likelihood_inherited. cbn [likelihood_base].
    now rewrite A.
  - exists (mkLikelihood (mkAnalysis None (Some m)) None None), eb.
    split; [reflexivity|]. unfold likelihood_inherited. cbn [likelihood_base].
    now rewrite B.
Qed.

(** ** The fiducial model *)

Lemma list_remove_absent (x : Z) (l : list Z) :
  (forall y, In y l -> y <> x) ->
  list_remove x l = Raise (ValueError "list.remove(x): x not in list").
Proof.
  induction l as [|y l IH]; intros H; cbn; [reflexivity|].
  destruct (Z.eqb_spec y x) as [E|E].
  - exfalso. exact (H y (or_introl eq_refl) E).
  - rewrite IH by (intros z Hz; apply H; now right). reflexivity.
Qed.

(** X4.  [set_fiducial] checks its argument from above only: an index
    below the number of models is stored, a negative one too, and an index
    at or above it raises [AssertionError] with the count in the message and
    leaves the object as it was.  After a negative index [compute_derivatives]
    on two models or more raises [ValueError], from [list.remove], with the
    varied list emptied and the stored derivatives kept. *)
Theorem set_fiducial_bounds (self : FisherAnalysis) (ps : matrix) (n : Z) :
  parameter_set (fisher_base self) = Some ps ->
  ((n < Z.of_nat (nrows ps))%Z ->
     set_fiducial n self
     = (Return tt,
        mkFisher (fisher_base self) n (_varied_list self) (derivatives self)))
  /\ ((Z.of_nat (nrows ps) <= n)%Z ->
        set_fiducial n self
        = (Raise (AssertionError
                    (Some ("There are less than " ++ format_int (n + 1)
                           ++ " models in your analysis")%string)),
           self))
  /\ ((n < 0)%Z -> 1 < nrows ps ->
        compute_derivatives (snd (set_fiducial n self))
        = (Raise (ValueError "list.remove(x): x not in list"),
           mkFisher (fisher_base self) n (Some []) (derivatives self))).
Proof.
  intros Hps.
  assert (S1 : (n < Z.of_nat (nrows ps))%Z ->
               set_fiducial n self
               = (Return tt,
                  mkFisher (fisher_base self) n (_varied_list self)
                    (derivatives self))).
  { intros H. unfold set_fiducial, bind, gets, lift. rewrite Hps. cbn.
    apply Z.ltb_lt in H. now rewrite H. }
  split; [exact S1|]. split.
  - intros H. unfold set_fiducial, bind, gets, lift. rewrite Hps. cbn.
    destruct (Z.ltb_spec n (Z.of_nat (nrows ps))); [lia|]. reflexivity.
  - intros Hn HN. rewrite S1 by lia. cbn [snd].
    unfold compute_derivatives, bind, gets, lift. simpl. rewrite Hps. simpl.
    apply Nat.ltb_lt in HN. rewrite HN. simpl.
    rewrite list_remove_absent; [reflexivity|].
    intros y Hy. unfold range in Hy. apply in_map_iff in Hy as (k & <- & _). lia.
Qed.

(** ** Designs that pass *)

Lemma differing_bound (row fiducial_row : list scalar) (i : nat) :
  In i (differing row fiducial_row) -> i < length row.
Proof.
  unfold differing. rewrite falses_from_In. intros [[_ H] _].
  unfold map2 in H. rewrite length_map, length_combine in H. lia.
Qed.

(** X5.  When [compute_derivatives] returns, the design is valid: every
    model other than the fiducial one differs from it in exactly one
    parameter, no two in the same one; the array returned is the array of
    the finite differences, and the varied indices recorded are indices of
    parameters, all different, one per row of derivatives. *)
Theorem compute_derivatives_returns_valid (self : FisherAnalysis) (ps ts D : matrix)
  (fid : nat) :
  parameter_set (fisher_base self) = Some ps ->
  training_set (fisher_base self) = Some ts ->
  wf_matrix ps -> wf_matrix ts -> nrows ts = nrows ps ->
  _fiducial self = Z.of_nat fid -> fid < nrows ps ->
  fst (compute_derivatives self) = Return D ->
  exists j,
    valid_design ps fid j
    /\ D = design_derivatives ps ts fid j
    /\ _varied_list (snd (compute_derivatives self)) = Some (design_varied ps fid j)
    /\ NoDup (design_varied ps fid j)
    /\ (forall i, In i (design_varied ps fid j) -> i < ncols ps)
    /\ length (design_varied ps fid j) = nrows D.
Proof.
  intros Hps Hts Wp Wt Hrows Hfid Hlt HD.
  assert (HN : 1 < nrows ps).
  { unfold compute_derivatives, bind, gets, lift in HD. rewrite Hps in HD.
    simpl in HD. destruct (Nat.ltb_spec 1 (nrows ps)); [assumption|].
    simpl in HD. discriminate. }
  pose proof (compute_derivatives_scan self Hps Hts Wp Wt Hrows HN Hfid Hlt) as C.
  destruct (scan _ _ _ _) as [[msg v]|[v rs]] eqn:S.
  { rewrite C in HD. discriminate. }
  apply scan_inr_valid in S as [S1 S2].
  set (j := fun k => index_false (map2 s_eq (nth k (rows ps) []) (nth fid (rows ps) []))).
  assert (J : forall k, k < nrows ps -> k <> fid ->
                differing (nth k (rows ps) []) (nth fid (rows ps) []) = [j k]).
  { intros k Hk Hne. unfold differing.
    rewrite (falses_single _ 0); [reflexivity|].
    apply S1. now apply non_fiducial_spec. }
  assert (V : valid_design ps fid j).
  { split; [exact J|].
    intros k1 k2 H1 H2 N1 N2 E.
    apply (NoDup_map_injective _ _ k1 k2 S2);
      try (apply non_fiducial_spec; auto).
    now rewrite !J, E by assumption. }
  exists j.
  rewrite (compute_derivatives_design self Hps Hts Wp Wt Hrows HN Hfid Hlt V) in *.
  cbn in HD. injection HD as <-. cbn [snd _varied_list].
  split; [exact V|]. split; [reflexivity|]. split; [reflexivity|].
  split; [|split].
  - unfold design_varied.
    apply NoDup_map_NoDup_ForallPairs; [|apply non_fiducial_NoDup].
    intros k1 k2 H1 H2 E.
    apply non_fiducial_spec in H1 as [? ?]; [|assumption].
    apply non_fiducial_spec in H2 as [? ?]; [|assumption].
    destruct V as [_ V2]. auto.
  - intros i Hi. unfold design_varied in Hi.
    apply in_map_iff in Hi as (k & <- & Hk).
    apply non_fiducial_spec in Hk as [Hk Hne]; [|assumption].
    rewrite <- (wf_matrix_nth Wp Hk). apply differing_bound with (fiducial_row := nth fid (rows ps) []).
    rewrite J by assumption. now left.
  - unfold design_varied, design_derivatives, nrows. cbn.
    now rewrite !length_map.
Qed.

(** ** What [compute_derivatives] reads and leaves *)

Lemma for__related {S I A} (R : S -> S -> Prop) (body : I -> A -> method S A) :
  (forall i a s1 s2, R s1 s2 ->
     fst (body i a s1) = fst (body i a s2)
     /\ R (snd (body i a s1)) (snd (body i a s2))) ->
  forall l a s1 s2, R s1 s2 ->
    fst (for_ l body a s1) = fst (for_ l body a s2)
    /\ R (snd (for_ l body a s1)) (snd (for_ l body a s2)).
Proof.
  intros H. induction l as [|i l IH]; intros a s1 s2 HR; cbn [for_].
  - unfold ret. cbn. now split.
  - unfold bind. destruct (H i a s1 s2 HR) as [E1 E2].
    destruct (body i a s1) as [r1 t1], (body i a s2) as [r2 t2].
    cbn in E1, E2. subst r2. destruct r1 as [e|a']; cbn; [now split|].
    now apply IH.
Qed.

(** Two objects with the same arrays, fiducial index and varied list. *)
Definition same_but_derivatives (s1 s2 : FisherAnalysis) : Prop :=
  fisher_base s1 = fisher_base s2 /\ _fiducial s1 = _fiducial s2
  /\ _varied_list s1 = _varied_list s2.

Lemma derivative_step_related ps ts nff nfp fiducial np d s1 s2 :
  same_but_derivatives s1 s2 ->
  fst (derivative_step ps ts nff nfp fiducial np d s1)
  = fst (derivative_step ps ts nff nfp fiducial np d s2)
  /\ same_but_derivatives (snd (derivative_step ps ts nff nfp fiducial np d s1))
       (snd (derivative_step ps ts nff nfp fiducial np d s2)).
Proof.
  intros (Hb & Hf & Hv).
  unfold derivative_step, bind, lift, gets, set__varied_list, modify.
  simpl. rewrite Hv.
  assert (R : same_but_derivatives s1 s2) by (repeat split; assumption).
  step_method; (split; [reflexivity|]); try exact R;
    unfold same_but_derivatives; simpl; now rewrite Hb, Hf.
Qed.

(** X6.  [compute_derivatives] reads the two arrays and the fiducial index
    only: its outcome is the same whatever derivatives and varied indices
    the object stored before, and when it returns, the object it leaves is
    the same too.  So a call after [add_model] or [set_fiducial] gives what a
    new object with these arrays and this index gives. *)
Theorem compute_derivatives_refreshes (base : Analysis) (fiducial : Z)
  (v v' : option (list nat)) (d d' : option matrix) :
  fst (compute_derivatives (mkFisher base fiducial v d))
  = fst (compute_derivatives (mkFisher base fiducial v' d'))
  /\ (forall D,
        fst (compute_derivatives (mkFisher base fiducial v d)) = Return D ->
        snd (compute_derivatives (mkFisher base fiducial v d))
        = snd (compute_derivatives (mkFisher base fiducial v' d'))).
Proof.
  unfold compute_derivatives, bind, gets, lift, set__varied_list, modify,
    set_derivatives, ret.
  simpl.
  destruct (parameter_set base) as [ps|]; simpl; [|split; [reflexivity|discriminate]].
  destruct (1 <? nrows ps); simpl; [|split; [reflexivity|discriminate]].
  destruct (list_remove fiducial (range (nrows ps))) as [e|idx]; simpl;
    [split; [reflexivity|discriminate]|].
  destruct (training_set base) as [ts|]; simpl;
    [|split; [reflexivity|discriminate]].
  destruct (take_rows ts idx) as [e|nff]; simpl;
    [split; [reflexivity|discriminate]|].
  destruct (take_rows ps idx) as [e|nfp]; simpl;
    [split; [reflexivity|discriminate]|].
  match goal with
  | |- context [for_ ?l ?body ?a0 (mkFisher base fiducial (Some []) d)] =>
      destruct (for__related same_but_derivatives body
                  (fun i x y z => @derivative_step_related _ _ _ _ _ i x y z)
                  l a0 (mkFisher base fiducial (Some []) d)
                  (mkFisher base fiducial (Some []) d')
                  (conj eq_refl (conj eq_refl eq_refl))) as [E R];
      destruct (for_ l body a0 (mkFisher base fiducial (Some []) d))
        as [r1 t1];
      destruct (for_ l body a0 (mkFisher base fiducial (Some []) d'))
        as [r2 t2]
  end.
  cbn in E, R. subst r2. destruct r1 as [e|D']; cbn;
    [split; [reflexivity|discriminate]|].
  split; [reflexivity|]. intros _ _.
  destruct R as (Rb & Rf & Rv). now rewrite Rb, Rf, Rv.
Qed.

Lemma scan_inl_recorded (frow ffeat : list scalar) items :
  forall varied msg v,
  scan frow ffeat items varied = inl (msg, v) ->
  exists l, v = varied ++ l /\ length l < length items.
Proof.
  induction items as [|[row feature] items IH]; intros varied msg v H;
    simpl in H; [discriminate|].
  destruct (Z.eqb _ _).
  2:{ injection H as _ <-. exists []. rewrite app_nil_r. cbn. split; [reflexivity|lia]. }
  destruct (existsb _ varied).
  { injection H as _ <-. exists []. rewrite app_nil_r. cbn. split; [reflexivity|lia]. }
  destruct (scan _ _ _ (varied ++ _)) as [e|[v' rs']] eqn:S; [|discriminate].
  injection H as ->. destruct (IH _ _ _ S) as (l & -> & Hl).
  eexists. rewrite <- app_assoc. split; [reflexivity|]. cbn. lia.
Qed.

(** X7.  On a design that is not valid, [compute_derivatives] does not put
    the varied list back: it leaves the indices recorded before the model
    that fails, fewer than the models other than the fiducial one, and the
    derivatives stored earlier; [get_varied] then returns these indices
    beside those derivatives. *)
Theorem compute_derivatives_failure_state (self : FisherAnalysis)
  (ps ts : matrix) (fid : nat) :
  parameter_set (fisher_base self) = Some ps ->
  training_set (fisher_base self) = Some ts ->
  wf_matrix ps -> wf_matrix ts -> nrows ts = nrows ps ->
  _fiducial self = Z.of_nat fid -> fid < nrows ps ->
  invalid_design ps fid ->
  exists v,
    snd (compute_derivatives self)
    = mkFisher (fisher_base self) (_fiducial self) (Some v) (derivatives self)
    /\ length v < nrows ps - 1
    /\ (forall d, derivatives self = Some d ->
          get_varied (snd (compute_derivatives self))
          = (Return v, snd (compute_derivatives self))).
Proof.
  intros Hps Hts Wp Wt Hrows Hfid Hlt Hinv.
  assert (HN : 1 < nrows ps).
  { destruct Hinv as [(k & ? & ? & _)|(k & _ & _ & ? & _ & ? & _)]; lia. }
  pose proof (compute_derivatives_scan self Hps Hts Wp Wt Hrows HN Hfid Hlt) as C.
  destruct (scan _ _ _ _) as [[msg v]|[v rs]] eqn:S.
  - apply scan_inl_recorded in S as (l & -> & Hl). cbn [app] in *.
    unfold model_items in Hl. rewrite length_map, non_fiducial_length in Hl
      by assumption.
    exists l. rewrite C. cbn [snd]. split; [reflexivity|]. split; [assumption|].
    intros d Hd. now apply get_varied_stored with (d := d).
  - exfalso. apply scan_inr_valid in S as [S1 S2].
    destruct Hinv as [(k & Hk & Hne & Hlen)|(k1 & k2 & i & H1 & H2 & N1 & N2 & Hne & I1 & I2)].
    + apply Hlen, S1. now apply non_fiducial_spec.
    + assert (K1 : In k1 (non_fiducial (nrows ps) fid)) by now apply non_fiducial_spec.
      assert (K2 : In k2 (non_fiducial (nrows ps) fid)) by now apply non_fiducial_spec.
      apply Hne. apply (NoDup_map_injective _ _ k1 k2 S2 K1 K2).
      rewrite (singleton_In _ i (S1 _ K1) I1).
      now rewrite (singleton_In _ i (S1 _ K2) I2).
Qed.

(** ** The arguments of [fit] and [fisher_matrix] *)

Lemma shape_eqb_neq (s t : list nat) : s <> t -> shape_eqb s t = false.
Proof.
  intros H. destruct (shape_eqb s t) eqn:E; [|reflexivity].
  apply shape_eqb_eq in E. contradiction.
Qed.

(** X8.  [fit] and [fisher_matrix] check their arguments before they touch
    the derivatives: without a covariance, with an observed feature that has
    not the length of the training features, or with a covariance whose shape
    is neither that length nor that length twice, they raise
    [AssertionError] and leave the object as it was, with nothing computed
    or stored. *)
Theorem fit_checks_first (self : FisherAnalysis) (observed_feature : list scalar)
  (observed_features_covariance : option ndarray) :
  fit observed_feature None self
  = (Raise (AssertionError (Some covariance_error)), self)
  /\ fisher_matrix None observed_features_covariance self
     = (Raise (AssertionError (Some covariance_error)), self)
  /\ (forall ts c,
        training_set (fisher_base self) = Some ts ->
        length observed_feature <> ncols ts
        \/ (shape c <> [length observed_feature; length observed_feature]
            /\ shape c <> [length observed_feature]) ->
        fit observed_feature (Some c) self = (Raise (AssertionError None), self))
  /\ (forall ts c,
        training_set (fisher_base self) = Some ts ->
        shape c <> [ncols ts; ncols ts] -> shape c <> [ncols ts] ->
        fisher_matrix (Some c) observed_features_covariance self
        = (Raise (AssertionError None), self)).
Proof.
  split; [reflexivity|]. split; [reflexivity|]. split.
  - intros ts c Hts H. unfold fit, bind, lift, gets. simpl. rewrite Hts. simpl.
    destruct (Nat.eqb_spec (length observed_feature) (ncols ts)) as [E|E];
      simpl; [|reflexivity].
    destruct H as [H|[H1 H2]]; [contradiction|].
    now rewrite (shape_eqb_neq H1), (shape_eqb_neq H2).
  - intros ts c Hts H1 H2. unfold fisher_matrix, bind, lift, gets. simpl.
    rewrite Hts. simpl.
    now rewrite (shape_eqb_neq H1), (shape_eqb_neq H2).
Qed.

Lemma compute_derivatives_stores (self self' : FisherAnalysis) (D : matrix) :
  compute_derivatives self = (Return D, self') -> derivatives self' = Some D.
Proof.
  unfold compute_derivatives, bind, gets, lift, set__varied_list, modify,
    set_derivatives, ret.
  simpl.
  destruct (parameter_set (fisher_base self)) as [ps|]; simpl; [|discriminate].
  destruct (1 <? nrows ps); simpl; [|discriminate].
  destruct (list_remove (_fiducial self) (range (nrows ps))) as [e|idx]; simpl;
    [discriminate|].
  destruct (training_set (fisher_base self)) as [ts|]; simpl; [|discriminate].
  destruct (take_rows ts idx) as [e|nff]; simpl; [discriminate|].
  destruct (take_rows ps idx) as [e|nfp]; simpl; [discriminate|].
  destruct (for_ _ _ _ _) as [[e|D'] s']; [discriminate|].
  now intros [= <- <-].
Qed.

Lemma cached_derivatives_stores (self self' : FisherAnalysis) (D : matrix) :
  cached_derivatives self = (Return D, self') -> derivatives self' = Some D.
Proof.
  unfold cached_derivatives, bind, gets. simpl.
  destruct (derivatives self) as [d|] eqn:E.
  - unfold ret. now intros [= <- <-].
  - apply compute_derivatives_stores.
Qed.

(** X9.  With an observed covariance, [fisher_matrix] returns the inverse
    of the parameter covariance: [inv] of
    [np.dot(M, np.dot(observed_covariance, M.transpose()))] for a full one and
    of [np.dot(M * observed_covariance, M.transpose())] for a diagonal one,
    [M] being [solve(XY, Y.transpose())].  An observed covariance of another
    shape raises [AssertionError], after the derivatives were computed: they
    stay stored. *)
Theorem fisher_matrix_observed (self self' : FisherAnalysis) (ts D Y XY M : matrix)
  (simulated : ndarray) :
  training_set (fisher_base self) = Some ts ->
  cached_derivatives self = (Return D, self') ->
  shape simulated = [ncols ts; ncols ts] \/ shape simulated = [ncols ts] ->
  weighted simulated [ncols ts] D = Return Y ->
  dot D Y = Return XY ->
  solve XY (transpose Y) = Return M ->
  (forall c, nrows c = ncols ts -> ncols c = ncols ts ->
     fisher_matrix (Some simulated) (Some (Arr2 c)) self
     = (let* t := dot c (transpose M) in
        let* parameter_covariance := dot M t in
        inv parameter_covariance, self'))
  /\ (forall v, length v = ncols ts ->
        fisher_matrix (Some simulated) (Some (Arr1 v)) self
        = (let* t := broadcast2 s_mul M (row_matrix v) in
           let* parameter_covariance := dot t (transpose M) in
           inv parameter_covariance, self'))
  /\ (forall observed,
        shape observed <> [ncols ts; ncols ts] -> shape observed <> [ncols ts] ->
        fisher_matrix (Some simulated) (Some observed) self
        = (Raise (AssertionError None), self'))
  /\ derivatives self' = Some D.
Proof.
  intros Hts Hd Hs HY HXY HM.
  assert (T : shape_eqb (shape simulated) [ncols ts; ncols ts]
              || shape_eqb (shape simulated) [ncols ts] = true).
  { destruct Hs as [-> | ->]; rewrite shape_eqb_refl; auto using orb_true_r. }
  assert (P : forall observed,
             fisher_matrix (Some simulated) (Some observed) self
             = (let* _ := assert_ (shape_eqb (shape observed) [ncols ts; ncols ts]
                                   || shape_eqb (shape observed) [ncols ts]) in
                let* parameter_covariance :=
                  if shape_eqb (shape observed) [ncols ts; ncols ts]
                  then let* c := dot_nd_m observed (transpose M) in dot_m_nd M c
                  else let* c := mul_m_nd M observed in
                       rmap Arr2 (dot c (transpose M)) in
                np_inv parameter_covariance, self')).
  { intros observed. unfold fisher_matrix, bind, lift, gets. simpl.
    rewrite Hts. simpl. rewrite T. simpl. rewrite Hd, HY. simpl.
    rewrite HXY. simpl.
    destruct (assert_ _) as [e|u]; simpl; [reflexivity|].
    rewrite HM. simpl.
    destruct (if shape_eqb (shape observed) [ncols ts; ncols ts] then _ else _)
      as [e|pc]; simpl; [reflexivity|].
    destruct (np_inv pc); reflexivity. }
  split; [|split; [|split]].
  - intros c Hr Hc. rewrite P. simpl. rewrite Hr, Hc, !Nat.eqb_refl. simpl.
    destruct (dot c (transpose M)) as [e|t]; simpl; [reflexivity|].
    destruct (dot M t); reflexivity.
  - intros v Hv. rewrite P. simpl. rewrite Hv, Nat.eqb_refl. simpl.
    destruct (broadcast2 s_mul M (row_matrix v)) as [e|t]; simpl; [reflexivity|].
    destruct (dot t (transpose M)); reflexivity.
  - intros observed H1 H2. rewrite P.
    now rewrite (shape_eqb_neq H1), (shape_eqb_neq H2).
  - now apply cached_derivatives_stores in Hd.
Qed.


(** ** [train] on chosen parameters *)

(** [m[:,j]] for an index [j] of the axis. *)
Definition column (m : matrix) (j : nat) : list scalar :=
  map (fun r => nth j r s_zero) (rows m).

(** The place an index of an axis of length [n] stands for. *)
Definition axis_index (n : nat) (i : Z) : nat :=
  Z.to_nat (if (0 <=? i)%Z then i else Z.of_nat n + i).

Lemma map__Raise {A B} (f : A -> result B) (l : list A) :
  Exists (fun a => is_return (f a) = false) l ->
  exists a e, In a l /\ f a = Raise e /\ map_ f l = Raise e.
Proof.
  induction l as [|a l IH]; intros H; [inversion H|].
  cbn [map_]. destruct (f a) as [e|b] eqn:E.
  - exists a, e. repeat split; [now left|assumption].
  - inversion H as [? ? H0|? ? H0]; subst.
    + rewrite E in H0. discriminate.
    + destruct (IH H0) as (a' & e & I & Ea & ->).
      exists a', e. repeat split; [now right|assumption].
Qed.

Lemma map__inverse {A B} (f : B -> result A) (g : A -> B) (l : list A) :
  (forall a, In a l -> f (g a) = Return a) -> map_ f (map g l) = Return l.
Proof.
  induction l as [|a l IH]; intros H; cbn [map map_]; [reflexivity|].
  rewrite (H a (or_introl eq_refl)). cbn [rbind].
  rewrite IH by (intros; apply H; now right). reflexivity.
Qed.

Lemma norm_index_axis (n : nat) (i : Z) :
  (- Z.of_nat n <= i < Z.of_nat n)%Z ->
  norm_index n i = Return (axis_index n i).
Proof.
  intros H. unfold norm_index, axis_index.
  destruct (Z.leb_spec 0 i); cbn [andb].
  - destruct (Z.ltb_spec i (Z.of_nat n)); [reflexivity|lia].
  - destruct (Z.leb_spec (- Z.of_nat n) i); [|lia].
    destruct (Z.ltb_spec i 0); [reflexivity|lia].
Qed.

Lemma norm_index_outside (n : nat) (i : Z) :
  (i < - Z.of_nat n \/ Z.of_nat n <= i)%Z ->
  norm_index n i = Raise (IndexError "index out of bounds").
Proof.
  intros H. unfold norm_index.
  destruct (Z.leb_spec 0 i); cbn [andb].
  - destruct (Z.ltb_spec i (Z.of_nat n)); [lia|].
    destruct (Z.leb_spec (- Z.of_nat n) i); cbn [andb]; [|reflexivity].
    destruct (Z.ltb_spec i 0); [lia|reflexivity].
  - destruct (Z.leb_spec (- Z.of_nat n) i); [lia|reflexivity].
Qed.

Lemma taken_columns_transposed (m : matrix) (js : list nat) :
  rows (transpose
          (Matrix (length js)
             (map (fun r => map (fun j => nth j r s_zero) js) (rows m))))
  = map (column m) js.
Proof.
  unfold transpose. cbn [rows ncols].
  rewrite <- (map_nth_seq (column m) js 0).
  apply map_ext_in. intros i Hi. apply in_seq in Hi.
  rewrite map_map. unfold column. apply map_ext. intros r.
  apply (nth_map_lt (fun j => nth j r s_zero) js 0). lia.
Qed.

Lemma transposed_column (m : matrix) (n : nat) :
  n < ncols m -> nth n (rows (transpose m)) [] = column m n.
Proof.
  intros H. unfold transpose. cbn [rows].
  rewrite (nth_map_lt (fun j => map (fun r => nth j r s_zero) (rows m))
             (seq 0 (ncols m)) 0) by now rewrite length_seq.
  now rewrite seq_nth.
Qed.

Lemma train_chosen (self : LikelihoodAnalysis) (ps ts : matrix) (l : list Z)
  (js : list nat) (kwargs : keywords) :
  parameter_set (likelihood_base self) = Some ps ->
  training_set (likelihood_base self) = Some ts ->
  map_ (norm_index (ncols ps)) l = Return js ->
  train (Some l) kwargs self
  = (Return tt,
     mkLikelihood (likelihood_base self) (Some (ncols ts))
       (Some (map (fun n =>
                     mk_interpolate_wrapper (map (column ps) js) (column ts n) kwargs)
                (seq 0 (ncols ts))))).
Proof.
  intros Hps Hts Hjs. unfold train, bind at 1, gets. rewrite Hps.
  unfold bind at 1, lift. cbn [array_item rbind]. unfold take_columns.
  rewrite Hjs. cbn [rbind].
  unfold bind at 1. rewrite Hts. simpl.
  unfold bind at 1. simpl.
  unfold bind at 1, set__num_bins, modify.
  unfold bind at 1, set__interpolator, modify. simpl.
  unfold bind at 1.
  refine (eq_trans
            (@train_loop
               (transpose (Matrix (length js)
                             (map (fun r => map (fun j => nth j r s_zero) js) (rows ps))))
               (Matrix (ncols ts) (rows ts)) kwargs (ncols ts) 0 []
               (mkLikelihood (likelihood_base self) (Some (ncols ts)) (Some []))
               (Nat.le_refl _) eq_refl) _).
  cbn [likelihood_base _num_bins app]. rewrite taken_columns_transposed.
  f_equal. f_equal. f_equal. apply map_ext_in. intros n Hn. apply in_seq in Hn.
  f_equal.
  exact (@transposed_column (Matrix (ncols ts) (rows ts)) n ltac:(cbn; lia)).
Qed.

(** X10.  [train] with a list of parameter indices builds one wrapper per
    feature bin, whatever the object held from an earlier training: its
    nodes are the chosen columns of the parameter set in the order of the
    list, a negative index counting from the last column, and its values the
    column of the bin in the training set.  An index outside the columns
    raises [IndexError] and leaves the object as it was.  The default is the
    training on every column in order. *)
Theorem train_use_parameters (self : LikelihoodAnalysis) (ps ts : matrix)
  (use_parameters : list Z) (kwargs : keywords) :
  parameter_set (likelihood_base self) = Some ps ->
  training_set (likelihood_base self) = Some ts ->
  (Forall (fun i => (- Z.of_nat (ncols ps) <= i < Z.of_nat (ncols ps))%Z)
     use_parameters ->
   train (Some use_parameters) kwargs self
   = (Return tt,
      mkLikelihood (likelihood_base self) (Some (ncols ts))
        (Some (map (fun n =>
                      mk_interpolate_wrapper
                        (map (fun i => column ps (axis_index (ncols ps) i))
                           use_parameters)
                        (column ts n) kwargs)
                 (seq 0 (ncols ts))))))
  /\ (Exists (fun i => (i < - Z.of_nat (ncols ps) \/ Z.of_nat (ncols ps) <= i)%Z)
        use_parameters ->
      exists msg, train (Some use_parameters) kwargs self = (Raise (IndexError msg), self))
  /\ train None kwargs self = train (Some (range (ncols ps))) kwargs self.
Proof.
  intros Hps Hts. split; [|split].
  - intros H.
    rewrite (@train_chosen self ps ts use_parameters
               (map (axis_index (ncols ps)) use_parameters) kwargs Hps Hts).
    + now rewrite map_map.
    + apply map__Return. intros i Hi. apply norm_index_axis.
      rewrite Forall_forall in H. now apply H.
  - intros H.
    destruct (@map__Raise _ _ (norm_index (ncols ps)) use_parameters)
      as (i & e & Hi & Ei & E).
    { apply Exists_exists in H as (i & Hi & Hout). apply Exists_exists.
      exists i. split; [assumption|]. now rewrite norm_index_outside. }
    assert (e = IndexError "index out of bounds") as ->.
    { unfold norm_index in Ei.
      destruct (_ && _)%bool; [discriminate|].
      destruct (_ && _)%bool; [discriminate|]. now injection Ei as <-. }
    eexists. unfold train, bind, gets, lift. rewrite Hps.
    cbn [array_item rbind]. unfold take_columns. rewrite E. reflexivity.
  - rewrite (train_all self kwargs Hps Hts).
    rewrite (@train_chosen self ps ts (range (ncols ps)) (seq 0 (ncols ps))
               kwargs Hps Hts).
    + f_equal. f_equal. f_equal. unfold trained_wrappers.
      apply map_ext_in. intros n Hn. apply in_seq in Hn.
      rewrite transposed_column by lia. reflexivity.
    + unfold range. apply map__inverse. intros k Hk. apply in_seq in Hk.
      apply norm_index_nat. lia.
Qed.


(** ** [predict] on one point and on a batch *)

Lemma upd_map_app {A B} (g : A -> B) (l : list A) (x y : B) (l2 : list B) :
  upd (length l) x (map g l ++ y :: l2) = map g l ++ x :: l2.
Proof. rewrite <- (length_map g l) at 1. apply upd_app. Qed.

Lemma predict_point_loop (point : list scalar) (nb : nat)
  (wrappers : list _interpolate_wrapper) (n : nat) :
  forall fs, length fs + n <= nb ->
  for_result (seq (length fs) n)
    (fun n interpolated_feature =>
       let* w := nth_result wrappers n in
       let* f := call_wrapper w in
       if n <? length interpolated_feature
       then Return (upd n (f point) interpolated_feature)
       else Raise (IndexError "index out of bounds"))
    (map (fun f : interpolator => f point) fs ++ repeat s_zero (nb - length fs))
  = let* fs' := map_ (build wrappers) (seq (length fs) n) in
    Return (map (fun f : interpolator => f point) (fs ++ fs')
            ++ repeat s_zero (nb - length (fs ++ fs'))).
Proof.
  induction n as [|n IH]; intros fs H; cbn [seq for_result map_].
  - cbn [rbind]. now rewrite app_nil_r.
  - unfold build at 1.
    destruct (nth_result wrappers (length fs)) as [e|w]; cbn [rbind];
      [reflexivity|].
    destruct (call_wrapper w) as [e|f]; cbn [rbind]; [reflexivity|].
    rewrite length_app, length_map, repeat_length.
    destruct (Nat.ltb_spec (length fs) (length fs + (nb - length fs))); [|lia].
    cbn [rbind].
    replace (nb - length fs) with (S (nb - length (fs ++ [f])))
      by (rewrite length_app; simpl; lia).
    cbn [repeat].
    rewrite upd_map_app.
    replace (map (fun f0 : interpolator => f0 point) fs
             ++ f point :: repeat s_zero (nb - length (fs ++ [f])))
      with (map (fun f0 : interpolator => f0 point) (fs ++ [f])
            ++ repeat s_zero (nb - length (fs ++ [f])))
      by (rewrite map_app, <- app_assoc; reflexivity).
    replace (S (length fs)) with (length (fs ++ [f]))
      by (rewrite length_app; simpl; lia).
    rewrite IH by (rewrite length_app; simpl; lia).
    destruct (map_ _ _) as [e|fs']; cbn [rbind]; [reflexivity|].
    now rewrite <- app_assoc.
Qed.

Lemma predict_point (point : list scalar) (nb : nat)
  (wrappers : list _interpolate_wrapper) :
  _predict (Arr1 point) nb wrappers
  = let* fs := map_ (build wrappers) (seq 0 nb) in
    Return (Arr1 (map (fun f : interpolator => f point) fs)).
Proof.
  unfold _predict.
  pose proof (@predict_point_loop point nb wrappers nb [] (Nat.le_refl _)) as L.
  cbn [length app map] in L. rewrite Nat.sub_0_r in L. rewrite L.
  destruct (map_ _ _) as [e|fs] eqn:E; cbn [rbind]; [reflexivity|].
  apply map__length in E. rewrite length_seq in E.
  now rewrite E, Nat.sub_diag, app_nil_r.
Qed.

Lemma coordinates_all (point : list scalar) :
  coordinates (length point) point = point.
Proof.
  unfold coordinates.
  rewrite (map_nth_seq (fun x => x) point s_zero). apply map_id.
Qed.

(** [predict] after its training. *)
Lemma predict_trained (parameters : ndarray) (self : LikelihoodAnalysis) :
  predict parameters self
  = match trained self with
    | (Raise e, self') => (Raise e, self')
    | (Return _, self') =>
        (let* nb := array_attr (_num_bins self') "_num_bins" in
         let* l := array_attr (_interpolator self') "_interpolator" in
         _predict parameters nb l, self')
    end.
Proof.
  unfold predict, bind, gets, lift.
  destruct (trained self) as [[e|u] self']; [reflexivity|].
  destruct (_num_bins self'); cbn [array_attr rbind]; [|reflexivity].
  destruct (_interpolator self'); reflexivity.
Qed.

Lemma predict_outcomes (self : LikelihoodAnalysis) :
  exists (r : result (list interpolator)) (self' : LikelihoodAnalysis),
    (forall points,
       predict (Arr2 points) self
       = (rmap (fun fs =>
                  Arr2 (batch_features (length fs) (ncols points) fs (rows points)))
            r, self'))
    /\ (forall point,
          predict (Arr1 point) self
          = (rmap (fun fs => Arr1 (map (fun f : interpolator => f point) fs)) r,
             self')).
Proof.
  destruct (trained self) as [[e|u] s'] eqn:T.
  { exists (Raise e), s'. split; intros; rewrite predict_trained, T; reflexivity. }
  destruct (_num_bins s') as [nb|] eqn:N.
  2:{ exists (Raise (AttributeError
                      "'NoneType' object has no attribute '_num_bins'")), s'.
      split; intros; rewrite predict_trained, T, N; reflexivity. }
  destruct (_interpolator s') as [l|] eqn:I.
  2:{ exists (Raise (AttributeError
                      "'NoneType' object has no attribute '_interpolator'")), s'.
      split; intros; rewrite predict_trained, T, N, I; reflexivity. }
  exists (map_ (build l) (seq 0 nb)), s'.
  split; intros; rewrite predict_trained, T, N, I; cbn [array_attr rbind].
  - rewrite predict_batch. destruct (map_ _ _) as [e|fs] eqn:E; [reflexivity|].
    apply map__length in E. rewrite length_seq in E.
    cbn [rmap rbind]. now rewrite E.
  - now rewrite predict_point.
Qed.

Lemma Forall2_map_self {A B} (P : A -> B -> Prop) (g : A -> B) (l : list A) :
  Forall (fun a => P a (g a)) l -> Forall2 P l (map g l).
Proof. induction 1; cbn; constructor; assumption. Qed.

(** X11.  [predict] on a batch is [predict] on each of its points: when it
    returns, the outcome is a rank 2 array with one row for every point, the
    row that [predict] returns for the point alone, and the object is left
    the same; when it raises, it raises the same on every single point. *)
Theorem predict_batch_rows (self : LikelihoodAnalysis) (points : matrix) :
  wf_matrix points ->
  (forall feature self',
     predict (Arr2 points) self = (Return feature, self') ->
     exists M,
       feature = Arr2 M
       /\ nrows M = nrows points
       /\ Forall2 (fun point v =>
                     predict (Arr1 point) self = (Return (Arr1 v), self'))
            (rows points) (rows M))
  /\ (forall e self' point,
        predict (Arr2 points) self = (Raise e, self') ->
        predict (Arr1 point) self = (Raise e, self')).
Proof.
  intros W. destruct (predict_outcomes self) as (r & s' & HB & HP). split.
  - intros feature self'. rewrite HB.
    destruct r as [e|fs]; cbn [rmap rbind]; [discriminate|].
    intros [= <- <-]. eexists. split; [reflexivity|]. split.
    + unfold nrows, batch_features. cbn [rows]. apply length_map.
    + unfold batch_features. cbn [rows]. apply Forall2_map_self.
      unfold wf_matrix in W. rewrite Forall_forall in *. intros pt Hpt.
      rewrite HP. cbn [rmap rbind]. rewrite <- (W pt Hpt).
      now rewrite coordinates_all.
  - intros e self' point. rewrite HB, HP.
    destruct r as [e'|fs]; cbn [rmap rbind]; [trivial|discriminate].
Qed.


(** ** [chi2] on one point *)

Lemma stretch_bdim {A B} (x : list A) (y : list B) (n : nat) :
  bdim (length x) (length y) = Some n ->
  length (stretch n x) = n /\ length (stretch n y) = n.
Proof.
  unfold bdim.
  destruct (Nat.eqb_spec (length x) (length y)) as [E|E].
  { intros [= <-]. now rewrite !stretch_same by congruence. }
  destruct (Nat.eqb_spec (length x) 1) as [E1|E1].
  { intros [= <-]. rewrite (stretch_same y) by reflexivity.
    destruct x as [|a [|? ?]]; try discriminate.
    rewrite stretch_singleton, repeat_length. now split. }
  destruct (Nat.eqb_spec (length y) 1) as [E2|E2]; [|discriminate].
  intros [= <-]. rewrite (stretch_same x) by reflexivity.
  destruct y as [|b [|? ?]]; try discriminate.
  rewrite stretch_singleton, repeat_length. now split.
Qed.

Lemma chi2_one_point (kwargs : chi2_kwargs) (point : list scalar) :
  chi2 (Arr1 point) kwargs
  = rmap (fun h => Arr0 (h point)) (chi2_batch kwargs (length point)).
Proof.
  unfold chi2, chi2_batch. rewrite predict_point.
  destruct (map_ _ _) as [e|fs] eqn:E; cbn [rbind rmap]; [reflexivity|].
  apply map__length in E. rewrite length_seq in E.
  unfold broadcast1 at 1 2. rewrite length_map, E.
  destruct (bdim _ (kw_num_bins kwargs)) as [c|] eqn:B; cbn [rbind];
    [|reflexivity].
  assert (L : length (map2 s_sub (stretch c (kw_observed_feature kwargs))
                        (stretch c (map (fun f : interpolator => f point) fs)))
              = c).
  { rewrite <- E, <- (length_map (fun f : interpolator => f point) fs) in B.
    destruct (stretch_bdim _ _ B) as [L1 L2].
    rewrite map2_length; congruence. }
  unfold dot_vm. rewrite L.
  destruct (c =? nrows (kw_inverse_covariance kwargs)); cbn [rbind];
    [|reflexivity].
  unfold broadcast1. rewrite L, length_map.
  change (length (rows (transpose (kw_inverse_covariance kwargs))))
    with (nrows (transpose (kw_inverse_covariance kwargs))).
  rewrite transpose_nrows.
  destruct (bdim c (ncols (kw_inverse_covariance kwargs))) as [c'|];
    cbn [rbind]; [|reflexivity].
  cbn [rmap rbind]. rewrite coordinates_all. reflexivity.
Qed.

(** X12.  With no chunks and no pool, the method [chi2] on one point given
    as a rank 1 array is the method on the batch that holds this point alone:
    the same outcome, an array of one value, and the same object after the
    call.  With [split_chunks=1] the point itself is sliced: the method
    then is the method on the first coordinate alone. *)
Theorem chi2_single_point (self : LikelihoodAnalysis) (point : list scalar)
  (observed_feature : option (list scalar)) (features_covariance : option ndarray) :
  chi2_method (Arr1 point) observed_feature features_covariance None None self
  = chi2_method (Arr2 (row_matrix point)) observed_feature features_covariance
      None None self
  /\ chi2_method (Arr1 point) observed_feature features_covariance (Some 1%Z) None
       self
     = chi2_method (Arr1 (firstn 1 point)) observed_feature features_covariance
         None None self.
Proof.
  rewrite !chi2_method_checked.
  destruct (chi2_checked observed_feature features_covariance self)
    as [[e|u] self']; [split; reflexivity|].
  split; [f_equal|].
  - unfold chi2_after_checks.
    destruct (array_attr observed_feature "shape") as [e|o]; cbn [rbind];
      [reflexivity|].
    destruct (array_attr features_covariance "shape") as [e|c]; cbn [rbind];
      [reflexivity|].
    change (num_points_of (Arr1 point)) with (@Return nat 1).
    change (num_points_of (Arr2 (row_matrix point))) with (@Return nat 1).
    cbn [rbind parameter_chunks].
    destruct (np_inv c) as [e|covinv]; cbn [rbind]; [reflexivity|].
    destruct (array_attr (_num_bins self') "_num_bins") as [e|nb]; cbn [rbind];
      [reflexivity|].
    destruct (array_attr (_interpolator self') "_interpolator") as [e|w];
      cbn [rbind]; [reflexivity|].
    cbn [map_]. rewrite chi2_one_point. unfold row_matrix. rewrite chi2_rows.
    destruct (chi2_batch _ _) as [e|h]; reflexivity.
  - reflexivity.
Qed.


(** ** Models added after the training *)

Lemma add_model_training_columns (self : Analysis) (parameters feature : list scalar)
  (ts : matrix) :
  training_set self = Some ts ->
  exists ts', training_set (snd (add_model parameters feature self)) = Some ts'
              /\ ncols ts' = ncols ts.
Proof.
  unfold add_model, bind, gets, lift, vstack.
  destruct self as [[ps|] [ts0|]]; cbn; intros [= <-].
  - destruct (Nat.eqb_spec (length parameters) (ncols ps)) as [Ep|Ep]; cbn;
      [|now exists ts0].
    destruct (Nat.eqb_spec (length feature) (ncols ts0)) as [E|E]; cbn;
      [|now exists ts0].
    rewrite <- Ep, <- E, !Nat.eqb_refl. cbn. eexists. split; [reflexivity|].
    reflexivity.
  - now exists ts0.
Qed.

Lemma chi2_checked_trained (observed_feature : option (list scalar))
  (features_covariance : option ndarray) (self : LikelihoodAnalysis)
  (ts : matrix) (wrappers : list _interpolate_wrapper) :
  training_set (likelihood_base self) = Some ts ->
  _interpolator self = Some wrappers ->
  chi2_checked observed_feature features_covariance self
  = (let* _ := assert_ (is_some observed_feature) in
     let* _ := assert_msg (is_some features_covariance) covariance_error in
     let* o := array_attr observed_feature "shape" in
     let* c := array_attr features_covariance "shape" in
     let* _ := assert_ (shape_eqb [length o] [ncols ts]) in
     assert_ (shape_eqb (shape c) [length o; length o]), self).
Proof.
  intros Hts Hw. unfold chi2_checked, trained, bind, lift, gets.
  destruct observed_feature as [o|]; cbn [is_some assert_ array_attr rbind];
    [|reflexivity].
  destruct features_covariance as [c|];
    cbn [is_some assert_msg array_attr rbind]; [|reflexivity].
  rewrite Hts. cbn [array_attr shape tl app].
  destruct (shape_eqb [length o] [ncols ts]); cbn [assert_ rbind]; [|reflexivity].
  destruct (shape_eqb (shape c) [length o; length o]); cbn [assert_];
    [|reflexivity].
  rewrite Hw. reflexivity.
Qed.

(** X13.  A trained object is trained once: [predict] and the method [chi2]
    use the interpolators it holds and leave it as it is.  [add_model] does
    not train again: after it [predict] and [chi2] give what they gave
    before, the model added taking no part until [train] is called. *)
Theorem models_after_training_ignored (self : LikelihoodAnalysis) (nb : nat)
  (wrappers : list _interpolate_wrapper) (ts : matrix)
  (parameters feature : list scalar) :
  training_set (likelihood_base self) = Some ts ->
  _num_bins self = Some nb -> _interpolator self = Some wrappers ->
  let self' := snd (likelihood_inherited (add_model parameters feature) self) in
  (forall x,
     predict x self = (_predict x nb wrappers, self)
     /\ predict x self' = (_predict x nb wrappers, self'))
  /\ (forall x observed_feature features_covariance split_chunks pool_,
        fst (chi2_method x observed_feature features_covariance split_chunks
               pool_ self')
        = fst (chi2_method x observed_feature features_covariance split_chunks
                 pool_ self)
        /\ snd (chi2_method x observed_feature features_covariance split_chunks
                  pool_ self') = self'
        /\ snd (chi2_method x observed_feature features_covariance split_chunks
                  pool_ self) = self).
Proof.
  intros Hts Hn Hw self'.
  assert (Hn' : _num_bins self' = Some nb).
  { subst self'. unfold likelihood_inherited.
    now destruct (add_model parameters feature (likelihood_base self)). }
  assert (Hw' : _interpolator self' = Some wrappers).
  { subst self'. unfold likelihood_inherited.
    now destruct (add_model parameters feature (likelihood_base self)). }
  assert (P : forall s x, _num_bins s = Some nb -> _interpolator s = Some wrappers ->
                predict x s = (_predict x nb wrappers, s)).
  { intros s x H1 H2. rewrite predict_trained. unfold trained, bind, gets.
    rewrite H2. unfold ret. now rewrite H1, H2. }
  split; [intros x; split; now apply P|].
  intros x o c k p.
  assert (Hts' : exists ts', training_set (likelihood_base self') = Some ts'
                             /\ ncols ts' = ncols ts).
  { destruct (add_model_training_columns (likelihood_base self) parameters
                feature Hts) as (ts' & H1 & H2).
    exists ts'. split; [|assumption]. subst self'. unfold likelihood_inherited.
    destruct (add_model parameters feature (likelihood_base self)).
    exact H1. }
  destruct Hts' as (ts' & Hts' & Hc).
  rewrite !chi2_method_checked.
  rewrite (chi2_checked_trained o c self Hts Hw).
  rewrite (chi2_checked_trained o c self' Hts' Hw'). rewrite Hc.
  destruct (let* _ := assert_ (is_some o) in _) as [e|u];
    [repeat split|].
  cbn [fst snd]. split; [|split; reflexivity].
  unfold chi2_after_checks. now rewrite Hn, Hw, Hn', Hw'.
Qed.


(** ** Interpolators that cannot be built *)

Lemma map__first_raise {A B} (f : A -> result B) (l1 l2 : list A) (a : A) (e : exn) :
  (forall x, In x l1 -> is_return (f x) = true) -> f a = Raise e ->
  map_ f (l1 ++ a :: l2) = Raise e.
Proof.
  intros H Ha. induction l1 as [|x l1 IH]; cbn [app map_].
  - now rewrite Ha.
  - pose proof (H x (or_introl eq_refl)) as Hx.
    destruct (f x); [discriminate|]. cbn [rbind].
    rewrite IH by (intros; apply H; now right). reflexivity.
Qed.

Lemma build_trained (ps ts : matrix) (kwargs : keywords) (k : nat) :
  k < ncols ts ->
  build (trained_wrappers ps ts kwargs) k
  = Rbf (rows (transpose ps)) (column ts k) kwargs.
Proof.
  intros H. unfold build, trained_wrappers.
  rewrite (nth_result_nth _ (mk_interpolate_wrapper [] [] kwargs))
    by now rewrite length_map, length_seq.
  cbn [rbind].
  rewrite (nth_map_lt (fun n => mk_interpolate_wrapper (rows (transpose ps))
                                  (nth n (rows (transpose ts)) []) kwargs)
             (seq 0 (ncols ts)) 0) by now rewrite length_seq.
  rewrite seq_nth by assumption. unfold call_wrapper.
  cbn [wrapper_nodes wrapper_values wrapper_kwargs plus].
  now rewrite transposed_column.
Qed.

(** X14.  [train] builds no interpolator: with the two arrays in place it
    returns whether or not [Rbf] accepts the nodes.  When [Rbf] raises on the
    values of a feature bin, and returns on the bins before it, every
    [predict] on the trained object raises this exception, on one point as on
    a batch, and leaves the object trained as it was. *)
Theorem train_defers_interpolators (self : LikelihoodAnalysis) (ps ts : matrix)
  (kwargs : keywords) (n : nat) (e : exn) :
  parameter_set (likelihood_base self) = Some ps ->
  training_set (likelihood_base self) = Some ts ->
  n < ncols ts ->
  (forall k, k < n ->
     is_return (Rbf (rows (transpose ps)) (column ts k) kwargs) = true) ->
  Rbf (rows (transpose ps)) (column ts n) kwargs = Raise e ->
  exists self',
    train None kwargs self = (Return tt, self')
    /\ (forall point, predict (Arr1 point) self' = (Raise e, self'))
    /\ (forall points, predict (Arr2 points) self' = (Raise e, self')).
Proof.
  intros Hps Hts Hn Hbefore Hfail.
  exists (mkLikelihood (likelihood_base self) (Some (ncols ts))
            (Some (trained_wrappers ps ts kwargs))).
  split; [now apply train_all|].
  assert (E : map_ (build (trained_wrappers ps ts kwargs)) (seq 0 (ncols ts))
              = Raise e).
  { assert (Q : seq 0 (ncols ts) = seq 0 n ++ n :: seq (S n) (ncols ts - S n)).
    { replace (ncols ts) with (n + S (ncols ts - S n)) at 1 by lia.
      now rewrite seq_app. }
    rewrite Q. apply map__first_raise.
    - intros k Hk. apply in_seq in Hk. rewrite build_trained by lia.
      apply Hbefore. lia.
    - now rewrite build_trained. }
  split; intros; rewrite predict_trained; unfold trained, bind, gets, ret;
    cbn [_interpolator _num_bins array_attr rbind].
  - now rewrite predict_point, E.
  - now rewrite predict_batch, E.
Qed.


(** ** Models added one by one *)

Lemma add_model_step (np nf : nat) (fiducial : Z) (v : option (list nat))
  (d : option matrix) (a b : list (list scalar)) (p f : list scalar) :
  length p = np -> length f = nf ->
  fisher_inherited (add_model p f)
    (mkFisher (mkAnalysis (Some (Matrix np a)) (Some (Matrix nf b))) fiducial v d)
  = (Return tt,
     mkFisher (mkAnalysis (Some (Matrix np (a ++ [p]))) (Some (Matrix nf (b ++ [f]))))
       fiducial v d).
Proof.
  intros <- <-. unfold fisher_inherited, add_model, bind, gets, lift, vstack.
  cbn. rewrite !Nat.eqb_refl. reflexivity.
Qed.

Lemma add_models_loop (np nf : nat) (fiducial : Z) (v : option (list nat))
  (d : option matrix) (models : list (list scalar * list scalar)) :
  Forall (fun m => length (fst m) = np /\ length (snd m) = nf) models ->
  forall a b,
  for_ models
    (fun m (_ : unit) => fisher_inherited (add_model (fst m) (snd m))) tt
    (mkFisher (mkAnalysis (Some (Matrix np a)) (Some (Matrix nf b))) fiducial v d)
  = (Return tt,
     mkFisher (mkAnalysis (Some (Matrix np (a ++ map fst models)))
                 (Some (Matrix nf (b ++ map snd models)))) fiducial v d).
Proof.
  induction 1 as [|[p f] models [Hp Hf] _ IH]; intros a b; cbn [for_ map].
  - unfold ret. now rewrite !app_nil_r.
  - cbn [fst snd] in *. unfold bind at 1.
    rewrite add_model_step by assumption.
    rewrite IH. now rewrite <- !app_assoc.
Qed.

(** X15.  Models added one by one to an object built without arrays give
    the object that the constructor builds from the arrays of all of them:
    for a first model and any number of others, of parameter vectors of one
    length and features of one length, every [add_model] returns, and the
    object holds the parameter vectors as the rows of its parameter set and
    the features as the rows of its training set, in the order they came. *)
Theorem add_model_one_by_one (p0 f0 : list scalar)
  (models : list (list scalar * list scalar)) :
  Forall (fun m => length (fst m) = length p0 /\ length (snd m) = length f0)
    models ->
  exists empty self,
    new_FisherAnalysis None None = Return empty
    /\ for_ ((p0, f0) :: models)
         (fun m (_ : unit) => fisher_inherited (add_model (fst m) (snd m))) tt
         empty
       = (Return tt, self)
    /\ new_FisherAnalysis
         (Some (Matrix (length p0) (p0 :: map fst models)))
         (Some (Matrix (length f0) (f0 :: map snd models)))
       = Return self.
Proof.
  intros H.
  exists (mkFisher (mkAnalysis None None) 0 None None).
  exists (mkFisher (mkAnalysis (Some (Matrix (length p0) (p0 :: map fst models)))
                      (Some (Matrix (length f0) (f0 :: map snd models))))
            0 None None).
  split; [reflexivity|]. split.
  - cbn [for_]. unfold bind at 1.
    unfold fisher_inherited at 1, add_model, bind, gets, lift. cbn.
    exact (@add_models_loop (length p0) (length f0) 0 None None models H [p0] [f0]).
  - unfold new_FisherAnalysis, Analysis__init__, nrows. cbn.
    now rewrite !length_map, Nat.eqb_refl.
Qed.


(** ** Fewer than two models *)

(** X16.  A Fisher analysis needs two models: on an object that holds one
    model or none and no derivatives, [compute_derivatives] raises its
    [AssertionError], and so do [fit] and [fisher_matrix] called with
    arguments of the right shapes; each leaves the object as it was, the
    varied list included. *)
Theorem fisher_needs_two_models (self : FisherAnalysis) (ps ts : matrix) :
  parameter_set (fisher_base self) = Some ps ->
  training_set (fisher_base self) = Some ts ->
  nrows ps <= 1 -> derivatives self = None ->
  let e := AssertionError
             (Some "You need at least 2 models to proceed in a Fisher Analysis!"%string) in
  compute_derivatives self = (Raise e, self)
  /\ (forall observed_feature c,
        length observed_feature = ncols ts ->
        shape c = [ncols ts; ncols ts] \/ shape c = [ncols ts] ->
        fit observed_feature (Some c) self = (Raise e, self))
  /\ (forall c observed,
        shape c = [ncols ts; ncols ts] \/ shape c = [ncols ts] ->
        fisher_matrix (Some c) observed self = (Raise e, self)).
Proof.
  intros Hps Hts HN Hd e.
  assert (C : compute_derivatives self = (Raise e, self)).
  { unfold compute_derivatives, bind, gets, lift. rewrite Hps. cbn [array_attr].
    destruct (Nat.ltb_spec 1 (nrows ps)); [lia|]. reflexivity. }
  assert (D : cached_derivatives self = (Raise e, self)).
  { unfold cached_derivatives, bind, gets. now rewrite Hd. }
  split; [exact C|]. split.
  - intros o c Ho Hc. unfold fit, bind, lift, gets.
    cbn [is_some assert_msg array_attr]. rewrite Hts.
    cbn [array_attr shape tl app]. rewrite Ho, shape_eqb_refl. cbn [assert_].
    assert (T : shape_eqb (shape c) [ncols ts; ncols ts]
                || shape_eqb (shape c) [ncols ts] = true).
    { destruct Hc as [-> | ->]; rewrite shape_eqb_refl; auto using orb_true_r. }
    rewrite T. cbn [assert_]. now rewrite D.
  - intros c oc Hc. unfold fisher_matrix, bind, lift, gets.
    cbn [is_some assert_msg array_attr]. rewrite Hts.
    cbn [array_attr shape tl app].
    assert (T : shape_eqb (shape c) [ncols ts; ncols ts]
                || shape_eqb (shape c) [ncols ts] = true).
    { destruct Hc as [-> | ->]; rewrite shape_eqb_refl; auto using orb_true_r. }
    rewrite T. cbn [assert_]. now rewrite D.
Qed.


(** ** The values of the method [chi2] *)

Lemma reshape_flat_length (l : list ndarray) (n : nat) (values : list scalar) :
  reshape_flat l n = Return values -> length values = n.
Proof.
  unfold reshape_flat.
  destruct (Nat.eqb_spec (length (concat (map flat l))) n) as [E|E];
    [|discriminate].
  now intros [= <-].
Qed.

(** X17.  When the method [chi2] returns, it returns one value for every
    point: as many values as the batch has rows, one value for a point given
    as a rank 1 array, whatever the chunks and the pool; and it never returns
    for an array of rank 0. *)
Theorem chi2_one_value_per_point (self : LikelihoodAnalysis) (parameters : ndarray)
  (observed_feature : option (list scalar)) (features_covariance : option ndarray)
  (split_chunks : option Z) (pool_ : option pool) (values : list scalar) :
  fst (chi2_method parameters observed_feature features_covariance split_chunks
         pool_ self) = Return values ->
  match parameters with
  | Arr0 _ => False
  | Arr1 _ => length values = 1
  | Arr2 points => length values = nrows points
  end.
Proof.
  rewrite chi2_method_checked.
  destruct (chi2_checked observed_feature features_covariance self)
    as [[e|u] self']; cbn [fst]; [discriminate|].
  unfold chi2_after_checks.
  destruct (array_attr observed_feature "shape") as [e|o]; cbn [rbind];
    [discriminate|].
  destruct (array_attr features_covariance "shape") as [e|c]; cbn [rbind];
    [discriminate|].
  assert (N : num_points_of parameters
              = match parameters with
                | Arr0 _ => shape_index_error
                | Arr1 _ => Return 1
                | Arr2 points => Return (nrows points)
                end) by now destruct parameters.
  rewrite N.
  destruct parameters as [x|v|points]; cbn [rbind]; [discriminate| |];
    (destruct (parameter_chunks _ _ split_chunks) as [e|chunks]; cbn [rbind];
       [discriminate|]);
    (destruct (np_inv c) as [e|covinv]; cbn [rbind]; [discriminate|]);
    (destruct (array_attr (_num_bins self') "_num_bins") as [e|nb];
       cbn [rbind]; [discriminate|]);
    (destruct (array_attr (_interpolator self') "_interpolator") as [e|w];
       cbn [rbind]; [discriminate|]);
    (destruct (match pool_ with Some p => _ | None => _ end) as [e|chi2_list];
       cbn [rbind]; [discriminate|]);
    apply reshape_flat_length.
Qed.

End Constraints.

(* ================================================================== *)
(** * The model on binary64 floats

    The element type of numpy's arrays by default.  [numpy.linalg.solve] and
    [numpy.linalg.inv] are run as Gauss-Jordan elimination with partial
    pivoting, [scipy.interpolate.Rbf] as the interpolator that takes the
    value of the nearest node, and the pool as a serial [map]: stand-ins,
    exact on the data below, for code that is not part of the module. *)

Module Float64.

Import Floats.
Local Open Scope float_scope.

Definition scalar : Type := float.

(** [row - c * pivot] *)
Definition eliminate (j : nat) (pivot row : list float) : list float :=
  let c := nth j row 0 in
  map2 (fun x y => y - c * x) pivot row.

(** The row of largest entry [j] in absolute value, and the other rows. *)
Fixpoint select_pivot (j : nat) (l : list (list float))
  : option (list float * list (list float)) :=
  match l with
  | [] => None
  | r :: l' =>
      match select_pivot j l' with
      | None => Some (r, [])
      | Some (best, others) =>
          if abs (nth j best 0) <? abs (nth j r 0)
          then Some (r, best :: others)
          else Some (best, r :: others)
      end
  end.

Definition singular {A} : result A := Raise (LinAlgError "Singular matrix").

(** Elimination on the columns [columns], [done] being the rows that
    already hold the pivot of an earlier column. *)
Fixpoint gauss_jordan (columns : list nat) (done rest : list (list float))
  : result (list (list float)) :=
  match columns with
  | [] => Return done
  | j :: columns' =>
      match select_pivot j rest with
      | None => singular
      | Some (p, others) =>
          let a := nth j p 0 in
          if a =? 0 then singular
          else
            let p' := map (fun x => x / a) p in
            gauss_jordan columns'
              (map (eliminate j p') done ++ [p'])
              (map (eliminate j p') others)
      end
  end.

Definition solve (a b : matrix float) : result (matrix float) :=
  if (nrows a =? ncols a)%nat && (nrows b =? nrows a)%nat then
    let* rs := gauss_jordan (seq 0 (nrows a)) []
                 (map2 (fun ra rb => ra ++ rb) (rows a) (rows b)) in
    Return (Matrix (ncols b) (map (skipn (nrows a)) rs))
  else Raise (LinAlgError "Last 2 dimensions of the array must be square").

Definition identity (n : nat) : matrix float :=
  Matrix n (map (fun i => map (fun j => if (i =? j)%nat then 1 else 0) (seq 0 n))
              (seq 0 n)).

Definition inv (a : matrix float) : result (matrix float) :=
  solve a (identity (nrows a)).

(** The square of the distance of two points. *)
Definition distance2 (x y : list float) : float :=
  fold_left PrimFloat.add (map2 (fun a b => (a - b) * (a - b)) x y) 0.

Fixpoint nearest (point : list float) (nodes : list (list float * float))
  (best : float * float) : float :=
  match nodes with
  | [] => snd best
  | (x, v) :: nodes' =>
      let d := distance2 point x in
      nearest point nodes' (if d <? fst best then (d, v) else best)
  end.

Definition Rbf (coordinates : list (list float)) (values : list float) (_ : unit)
  : result (interpolator float) :=
  match values with
  | [] => Raise (ValueError "zero-size array")
  | v :: _ =>
      let nodes :=
        map (fun i => (map (fun c => nth i c 0) coordinates, nth i values 0))
          (seq 0 (length values)) in
      Return (fun point => nearest point nodes (infinity, v))
  end.

Definition pool_map (_ : unit)
  (f : ndarray float -> result (ndarray float)) (l : list (ndarray float))
  : result (list (ndarray float)) :=
  map_ f l.

(** The methods on floats. *)
Definition compute_derivatives_f := @compute_derivatives float 0 PrimFloat.sub PrimFloat.div PrimFloat.eqb.
Definition get_varied_f := @get_varied float.
Definition set_fiducial_f := @set_fiducial float.
Definition add_model_f p f := fisher_inherited (@add_model float p f).
Definition cached_derivatives_f := @cached_derivatives float 0 PrimFloat.sub PrimFloat.div PrimFloat.eqb.
Definition fisher_matrix_f :=
  @fisher_matrix float 0 1 PrimFloat.add PrimFloat.sub PrimFloat.mul PrimFloat.div PrimFloat.eqb solve inv.
Definition fit_f :=
  @fit float 0 1 PrimFloat.add PrimFloat.sub PrimFloat.mul PrimFloat.div PrimFloat.eqb solve.
Definition chi2_method_f :=
  @chi2_method float 0 PrimFloat.add PrimFloat.sub PrimFloat.mul inv unit tt Rbf unit pool_map.

(** The design of three models in two parameters, the first one fiducial. *)
Definition parameters3 : matrix float := Matrix 2 [[0; 0]; [1; 0]; [0; 1]].
Definition features3 : matrix float := Matrix 2 [[1; 2]; [3; 2]; [1; 5]].
Definition fisher3 : FisherAnalysis float :=
  mkFisher (mkAnalysis (Some parameters3) (Some features3)) 0 None None.
Definition derivatives3 : matrix float := Matrix 2 [[2; 0]; [0; 3]].

Example fisher3_constructed :
  new_FisherAnalysis (Some parameters3) (Some features3) = Return fisher3.
Proof. reflexivity. Qed.

Example fisher3_derivatives :
  compute_derivatives_f fisher3
  = (Return derivatives3,
     mkFisher (mkAnalysis (Some parameters3) (Some features3)) 0
       (Some [0; 1]%nat) (Some derivatives3)).
Proof. reflexivity. Qed.

(** *** Derivatives *)

Lemma parameters3_wf : wf_matrix parameters3.
Proof. repeat constructor. Qed.

Lemma features3_wf : wf_matrix features3.
Proof. repeat constructor. Qed.

Lemma design3_valid : valid_design PrimFloat.eqb parameters3 0 pred.
Proof.
  split.
  - intros [|[|[|k]]] Hk Hne; try reflexivity.
    + contradiction.
    + unfold nrows in Hk. simpl in Hk. lia.
  - intros k1 k2 H1 H2 N1 N2 E. unfold nrows in H1, H2. simpl in H1, H2. lia.
Qed.

Lemma compute_derivatives_finite_differences_witness :
  fst (compute_derivatives_f fisher3) = Return derivatives3
  /\ _varied_list (snd (compute_derivatives_f fisher3)) = Some [0; 1]%nat.
Proof.
  destruct (@compute_derivatives_finite_differences float 0 PrimFloat.sub
              PrimFloat.div PrimFloat.eqb fisher3 parameters3 features3 0%nat pred
              eq_refl eq_refl parameters3_wf features3_wf eq_refl
              ltac:(unfold nrows; simpl; lia) eq_refl
              ltac:(unfold nrows; simpl; lia) design3_valid)
    as (H1 & _ & H3 & _).
  split; [exact H1|exact H3].
Defined.

(** Two models, the second one away from the first in both parameters. *)
Definition parameters_both : matrix float := Matrix 2 [[0; 0]; [1; 1]].
Definition features_both : matrix float := Matrix 2 [[1; 2]; [3; 4]].
Definition fisher_both : FisherAnalysis float :=
  mkFisher (mkAnalysis (Some parameters_both) (Some features_both)) 0 None None.

Lemma design_both_invalid : invalid_design PrimFloat.eqb parameters_both 0.
Proof.
  left. exists 1%nat. unfold nrows. simpl. repeat split; lia.
Qed.

Lemma compute_derivatives_invalid_design_witness :
  raises (fst (compute_derivatives_f fisher_both)) "AssertionError"
  /\ derivatives (snd (compute_derivatives_f fisher_both)) = None.
Proof.
  destruct (@compute_derivatives_invalid_design float 0 PrimFloat.sub
              PrimFloat.div PrimFloat.eqb fisher_both parameters_both
              features_both 0%nat eq_refl eq_refl
              ltac:(repeat constructor) ltac:(repeat constructor) eq_refl eq_refl
              ltac:(unfold nrows; simpl; lia) design_both_invalid)
    as (_ & H2 & H3).
  split; [exact H2|exact H3].
Defined.

(** C2 as it is stated fails on this design: the exception is an
    [AssertionError], the module has no class [InvalidDesignError]. *)
Lemma invalid_design_not_InvalidDesignError :
  fst (compute_derivatives_f fisher_both)
  = Raise (AssertionError (Some "You must vary one parameter at a time!"%string))
  /\ ~ raises (fst (compute_derivatives_f fisher_both)) "InvalidDesignError".
Proof.
  split; [reflexivity|].
  intros (e & He & Hcls). vm_compute in He. injection He as <-. discriminate.
Qed.

(** *** The Fisher matrix and the fit *)

Definition fisher3_done : FisherAnalysis float :=
  mkFisher (mkAnalysis (Some parameters3) (Some features3)) 0
    (Some [0; 1]%nat) (Some derivatives3).

Definition covariance3 : matrix float := Matrix 2 [[2; 0]; [0; 4]].

Lemma fisher_matrix_information_witness :
  fisher_matrix_f (Some (Arr2 covariance3)) None fisher3
  = (Return (Matrix 2 [[2; 0]; [0; 2.25]]), fisher3_done)
  /\ fisher_matrix_f (Some (Arr1 [2; 4])) None fisher3
     = (Return (Matrix 2 [[2; 0]; [0; 2.25]]), fisher3_done).
Proof.
  destruct (@fisher_matrix_information float 0 1 PrimFloat.add PrimFloat.sub
              PrimFloat.mul PrimFloat.div PrimFloat.eqb solve inv
              fisher3 fisher3_done features3 derivatives3 eq_refl eq_refl)
    as (H1 & H2 & _).
  split.
  - exact (H1 covariance3 eq_refl eq_refl).
  - exact (H2 [2; 4] eq_refl eq_refl).
Defined.

Definition weights3 : matrix float := Matrix 2 [[1; 0]; [0; 0.75]].
Definition information3 : matrix float := Matrix 2 [[2; 0]; [0; 2.25]].
Definition estimator3 : matrix float := Matrix 2 [[0.5; 0]; [0; 0.75 / 2.25]].

Lemma fit_best_fit_witness :
  fit_f [2; 5] (Some (Arr2 covariance3)) fisher3 = (Return [0.5; 1], fisher3_done).
Proof.
  refine (proj1 (@fit_best_fit float 0 1 PrimFloat.add PrimFloat.sub
              PrimFloat.mul PrimFloat.div PrimFloat.eqb solve
              fisher3 fisher3_done parameters3 features3 derivatives3
              weights3 information3 estimator3 (Arr2 covariance3) [2; 5] 0%nat
              [0; 1]%nat eq_refl eq_refl parameters3_wf features3_wf eq_refl
              _ _ eq_refl eq_refl eq_refl _ _ eq_refl eq_refl eq_refl eq_refl)).
  - unfold nrows. simpl. lia.
  - unfold nrows. simpl. lia.
  - intros j [<-|[<-|[]]]; simpl; lia.
  - left. exists covariance3. repeat split; reflexivity.
Defined.

Example fit_diagonal :
  fit_f [2; 5] (Some (Arr1 [2; 4])) fisher3 = (Return [0.5; 1], fisher3_done).
Proof. reflexivity. Qed.

(** *** The stored derivatives *)

Lemma stored_derivatives_survive_witness :
  cached_derivatives_f (snd (set_fiducial_f 1 fisher3_done))
  = (Return derivatives3, snd (set_fiducial_f 1 fisher3_done))
  /\ get_varied_f (snd (add_model_f [1; 1] [3; 5] fisher3_done))
     = (Return [0; 1]%nat, snd (add_model_f [1; 1] [3; 5] fisher3_done)).
Proof.
  destruct (@stored_derivatives_survive float 0 1 PrimFloat.add PrimFloat.sub
              PrimFloat.mul PrimFloat.div PrimFloat.eqb solve inv
              fisher3_done derivatives3 [0; 1]%nat eq_refl eq_refl)
    as (H1 & H2).
  split.
  - exact (proj1 (proj2 (H1 1%Z))).
  - exact (proj1 (proj2 (proj2 (H2 [1; 1] [3; 5])))).
Defined.

(** Two models, then a third one. *)
Definition fisher2 : FisherAnalysis float :=
  mkFisher (mkAnalysis (Some (Matrix 2 [[0; 0]; [1; 0]]))
              (Some (Matrix 2 [[1; 2]; [3; 2]]))) 0 None None.
Definition fisher2_done : FisherAnalysis float := snd (compute_derivatives_f fisher2).
Definition fisher2_more : FisherAnalysis float :=
  snd (add_model_f [0; 1] [1; 5] fisher2_done).
Definition fisher3_moved : FisherAnalysis float :=
  snd (set_fiducial_f 1 fisher3_done).

(** C5 as it is stated fails: after [add_model] the derivatives of the
    two first models are still stored, and [get_varied] and [fisher_matrix]
    use them, where the three models give two rows; after [set_fiducial]
    the derivatives taken at the former fiducial model are still in use,
    where a computation at the new one raises. *)
Lemma derivatives_not_invalidated :
  fisher_base fisher2_more = mkAnalysis (Some parameters3) (Some features3)
  /\ derivatives fisher2_more = Some (Matrix 2 [[2; 0]])
  /\ fst (get_varied_f fisher2_more) = Return [0%nat]
  /\ fst (fisher_matrix_f (Some (Arr2 covariance3)) None fisher2_more)
     = Return (Matrix 1 [[2]])
  /\ fst (compute_derivatives_f fisher2_more) = Return derivatives3
  /\ _fiducial fisher3_moved = 1%Z
  /\ derivatives fisher3_moved = Some derivatives3
  /\ fst (cached_derivatives_f fisher3_moved) = Return derivatives3
  /\ fst (get_varied_f fisher3_moved) = Return [0; 1]%nat
  /\ fst (compute_derivatives_f fisher3_moved)
     = Raise (AssertionError (Some "You must vary one parameter at a time!"%string)).
Proof. repeat split; reflexivity. Qed.

(** *** The method [chi2] *)

Definition likelihood3 : LikelihoodAnalysis float unit :=
  mkLikelihood (mkAnalysis (Some parameters3) (Some features3)) None None.

(** Four points, and the identity as covariance. *)
Definition batch4 : matrix float := Matrix 2 [[0; 0]; [1; 0]; [0; 1]; [0.75; 0.25]].
Definition identity2 : matrix float := Matrix 2 [[1; 0]; [0; 1]].

Example likelihood3_constructed :
  @new_LikelihoodAnalysis float unit (Some parameters3) (Some features3)
  = Return likelihood3.
Proof. reflexivity. Qed.

Example chi2_batch4 :
  fst (chi2_method_f (Arr2 batch4) (Some [1; 2]) (Some (Arr2 identity2)) None None
         likelihood3)
  = Return [0; 4; 9; 4]
  /\ fst (chi2_method_f (Arr2 batch4) (Some [1; 2]) (Some (Arr2 identity2))
            (Some 2%Z) None likelihood3)
     = Return [0; 4; 9; 4]
  /\ fst (chi2_method_f (Arr2 batch4) (Some [1; 2]) (Some (Arr2 identity2))
            (Some 4%Z) (Some tt) likelihood3)
     = Return [0; 4; 9; 4].
Proof. repeat split; reflexivity. Qed.

Lemma chi2_split_chunks_agree_witness :
  chi2_method_f (Arr2 batch4) (Some [1; 2]) (Some (Arr2 identity2)) (Some 2%Z) None
    likelihood3
  = chi2_method_f (Arr2 batch4) (Some [1; 2]) (Some (Arr2 identity2)) None None
      likelihood3.
Proof.
  exact (proj1 (@chi2_split_chunks_agree float 0 PrimFloat.add PrimFloat.sub
                  PrimFloat.mul inv unit tt Rbf unit pool_map likelihood3 batch4
                  (Some [1; 2]) (Some (Arr2 identity2)) 2%Z eq_refl eq_refl)).
Defined.

Lemma chi2_split_chunks_errors_witness :
  fst (chi2_method_f (Arr2 batch4) (Some [1; 2]) (Some (Arr2 identity2)) (Some 0%Z)
         None likelihood3)
  = Raise (ValueError "split_chunks must be >0!!")
  /\ fst (chi2_method_f (Arr2 batch4) (Some [1; 2]) (Some (Arr2 identity2))
            (Some 3%Z) None likelihood3)
     = Raise (AssertionError
                (Some "split_chunks must divide exactly the number of points!!"%string)).
Proof.
  split.
  - apply (proj1 (@chi2_split_chunks_errors float 0 PrimFloat.add PrimFloat.sub
                    PrimFloat.mul inv unit tt Rbf unit pool_map likelihood3
                    (Arr2 batch4) [1; 2] (Arr2 identity2) parameters3 features3
                    0%Z 4%nat None eq_refl eq_refl eq_refl eq_refl eq_refl)).
    lia.
  - apply (proj2 (@chi2_split_chunks_errors float 0 PrimFloat.add PrimFloat.sub
                    PrimFloat.mul inv unit tt Rbf unit pool_map likelihood3
                    (Arr2 batch4) [1; 2] (Arr2 identity2) parameters3 features3
                    3%Z 4%nat None eq_refl eq_refl eq_refl eq_refl eq_refl)).
    + lia.
    + vm_compute. discriminate.
Defined.

(** C7 as it is stated fails for three chunks of four points: the exception
    is an [AssertionError], not a [ValueError]. *)
Lemma indivisible_split_chunks_not_ValueError :
  fst (chi2_method_f (Arr2 batch4) (Some [1; 2]) (Some (Arr2 identity2)) (Some 3%Z)
         None likelihood3)
  = Raise (AssertionError
             (Some "split_chunks must divide exactly the number of points!!"%string))
  /\ ~ raises (fst (chi2_method_f (Arr2 batch4) (Some [1; 2])
                      (Some (Arr2 identity2)) (Some 3%Z) None likelihood3))
         "ValueError".
Proof.
  split; [reflexivity|].
  intros (e & He & Hcls). vm_compute in He. injection He as <-. discriminate.
Qed.

Example chi2_diagonal_covariance :
  fst (chi2_method_f (Arr2 batch4) (Some [1; 2]) (Some (Arr1 [1; 1])) None None
         likelihood3)
  = Raise (AssertionError None).
Proof. reflexivity. Qed.

(** *** Construction *)

(** C9 as it is stated fails: with one array only the constructor returns
    an object, that stores it beside [None]; and with arrays of different
    lengths the exception is an [AssertionError], the module has no class
    [ShapeMismatchError]. *)
Lemma one_array_constructs :
  new_FisherAnalysis (Some parameters3) None
  = Return (mkFisher (mkAnalysis (Some parameters3) None) 0 None None)
  /\ @new_LikelihoodAnalysis float unit None (Some features3)
     = Return (mkLikelihood (mkAnalysis None (Some features3)) None None)
  /\ new_FisherAnalysis (Some parameters3) (Some features_both)
     = Raise (AssertionError
                (Some "There should be one feature for each of the simulated models!"%string))
  /\ ~ raises (new_FisherAnalysis (Some parameters3) (Some features_both))
         "ShapeMismatchError".
Proof.
  repeat split.
  intros (e & He & Hcls). vm_compute in He. injection He as <-. discriminate.
Qed.


(** *** More of the module *)

Lemma add_model_appends_witness :
  add_model [0; 1] [1; 5] (fisher_base fisher2)
  = (Return tt, mkAnalysis (Some parameters3) (Some features3))
  /\ consistent (mkAnalysis (Some parameters3) (Some features3)).
Proof.
  apply (@add_model_appends float (fisher_base fisher2) [0; 1] [1; 5]).
  - simpl. repeat split; repeat constructor.
  - intros ps [= <-]. reflexivity.
  - intros ts [= <-]. reflexivity.
Defined.

Lemma set_fiducial_bounds_witness :
  set_fiducial_f 2 fisher3_done
  = (Return tt,
     mkFisher (mkAnalysis (Some parameters3) (Some features3)) 2
       (Some [0; 1]%nat) (Some derivatives3))
  /\ set_fiducial_f 3 fisher3_done
     = (Raise (AssertionError
                 (Some "There are less than 4 models in your analysis"%string)),
        fisher3_done)
  /\ compute_derivatives_f (snd (set_fiducial_f (-1) fisher3_done))
     = (Raise (ValueError "list.remove(x): x not in list"),
        mkFisher (mkAnalysis (Some parameters3) (Some features3)) (-1)
          (Some []) (Some derivatives3)).
Proof.
  split; [|split].
  - apply (proj1 (@set_fiducial_bounds float 0 PrimFloat.sub PrimFloat.div
                    PrimFloat.eqb fisher3_done parameters3 2%Z eq_refl)).
    unfold nrows. simpl. lia.
  - apply (proj1 (proj2 (@set_fiducial_bounds float 0 PrimFloat.sub PrimFloat.div
                           PrimFloat.eqb fisher3_done parameters3 3%Z eq_refl))).
    unfold nrows. simpl. lia.
  - apply (proj2 (proj2 (@set_fiducial_bounds float 0 PrimFloat.sub PrimFloat.div
                           PrimFloat.eqb fisher3_done parameters3 (-1)%Z eq_refl))).
    + lia.
    + unfold nrows. simpl. lia.
Defined.

Lemma compute_derivatives_returns_valid_witness :
  exists j,
    valid_design PrimFloat.eqb parameters3 0 j
    /\ derivatives3 = design_derivatives 0 PrimFloat.sub PrimFloat.div
                        parameters3 features3 0 j
    /\ _varied_list (snd (compute_derivatives_f fisher3))
       = Some (design_varied parameters3 0 j)
    /\ NoDup (design_varied parameters3 0 j)
    /\ (forall i, In i (design_varied parameters3 0 j) -> (i < 2)%nat)
    /\ length (design_varied parameters3 0 j) = 2%nat.
Proof.
  apply (@compute_derivatives_returns_valid float 0 PrimFloat.sub PrimFloat.div
           PrimFloat.eqb fisher3 parameters3 features3 derivatives3 0%nat
           eq_refl eq_refl parameters3_wf features3_wf eq_refl eq_refl).
  - unfold nrows. simpl. lia.
  - reflexivity.
Defined.

Lemma compute_derivatives_failure_state_witness :
  exists v,
    snd (compute_derivatives_f fisher3_moved)
    = mkFisher (mkAnalysis (Some parameters3) (Some features3)) 1 (Some v)
        (Some derivatives3)
    /\ (length v < 2)%nat
    /\ (forall d, derivatives fisher3_moved = Some d ->
          get_varied_f (snd (compute_derivatives_f fisher3_moved))
          = (Return v, snd (compute_derivatives_f fisher3_moved))).
Proof.
  apply (@compute_derivatives_failure_state float 0 PrimFloat.sub PrimFloat.div
           PrimFloat.eqb fisher3_moved parameters3 features3 1%nat
           eq_refl eq_refl parameters3_wf features3_wf eq_refl eq_refl).
  - unfold nrows. simpl. lia.
  - left. exists 2%nat. unfold nrows. simpl. repeat split; lia.
Defined.

Lemma fisher_matrix_observed_witness :
  fisher_matrix_f (Some (Arr2 covariance3)) (Some (Arr2 covariance3)) fisher3
  = (Return information3, fisher3_done)
  /\ fisher_matrix_f (Some (Arr2 covariance3)) (Some (Arr1 [2; 4])) fisher3
     = (Return information3, fisher3_done)
  /\ fisher_matrix_f (Some (Arr2 covariance3)) (Some (Arr1 [2; 4; 8])) fisher3
     = (Raise (AssertionError None), fisher3_done).
Proof.
  destruct (@fisher_matrix_observed float 0 1 PrimFloat.add PrimFloat.sub
              PrimFloat.mul PrimFloat.div PrimFloat.eqb solve inv
              fisher3 fisher3_done features3 derivatives3 weights3 information3
              estimator3 (Arr2 covariance3) eq_refl eq_refl (or_introl eq_refl)
              eq_refl eq_refl eq_refl)
    as (H1 & H2 & H3 & _).
  split; [|split].
  - exact (H1 covariance3 eq_refl eq_refl).
  - exact (H2 [2; 4] eq_refl).
  - apply H3; discriminate.
Defined.


(** *** Training and prediction *)

Definition train_f := @train float 0 unit.
Definition predict_f := @predict float 0 unit tt Rbf.
Definition _predict_f := @_predict float 0 unit Rbf.

(** The wrappers of the three models, one per feature bin. *)
Definition wrappers3 : list (_interpolate_wrapper float unit) :=
  [mk_interpolate_wrapper [[0; 1; 0]; [0; 0; 1]] [1; 3; 1] tt;
   mk_interpolate_wrapper [[0; 1; 0]; [0; 0; 1]] [2; 2; 5] tt].

Definition likelihood3_trained : LikelihoodAnalysis float unit :=
  mkLikelihood (mkAnalysis (Some parameters3) (Some features3)) (Some 2%nat)
    (Some wrappers3).

Example likelihood3_training :
  train_f None tt likelihood3 = (Return tt, likelihood3_trained).
Proof. reflexivity. Qed.

Lemma train_use_parameters_witness :
  train_f (Some [-1; 0]%Z) tt likelihood3
  = (Return tt,
     mkLikelihood (mkAnalysis (Some parameters3) (Some features3)) (Some 2%nat)
       (Some [mk_interpolate_wrapper [[0; 0; 1]; [0; 1; 0]] [1; 3; 1] tt;
              mk_interpolate_wrapper [[0; 0; 1]; [0; 1; 0]] [2; 2; 5] tt]))
  /\ (exists msg,
        train_f (Some [2]%Z) tt likelihood3 = (Raise (IndexError msg), likelihood3))
  /\ train_f None tt likelihood3 = train_f (Some [0; 1]%Z) tt likelihood3.
Proof.
  split; [|split].
  - apply (proj1 (@train_use_parameters float 0 unit likelihood3 parameters3
                    features3 [-1; 0]%Z tt eq_refl eq_refl)).
    repeat constructor; simpl; lia.
  - apply (proj1 (proj2 (@train_use_parameters float 0 unit likelihood3 parameters3
                           features3 [2]%Z tt eq_refl eq_refl))).
    apply Exists_cons_hd. simpl. lia.
  - exact (proj2 (proj2 (@train_use_parameters float 0 unit likelihood3 parameters3
                           features3 [0; 1]%Z tt eq_refl eq_refl))).
Defined.

Lemma predict_batch_rows_witness :
  exists M,
    Arr2 (Matrix 2 [[1; 2]; [3; 2]; [1; 5]; [3; 2]]) = Arr2 M
    /\ nrows M = 4%nat
    /\ Forall2 (fun point v =>
                  predict_f (Arr1 point) likelihood3
                  = (Return (Arr1 v), likelihood3_trained))
         (rows batch4) (rows M).
Proof.
  apply (proj1 (@predict_batch_rows float 0 unit tt Rbf likelihood3 batch4
                  ltac:(repeat constructor))).
  reflexivity.
Defined.

(** A fourth model, added after the training. *)
Definition likelihood3_more : LikelihoodAnalysis float unit :=
  snd (likelihood_inherited (add_model [1; 1] [3; 5]) likelihood3_trained).

Lemma models_after_training_ignored_witness :
  predict_f (Arr1 [1; 1]) likelihood3_trained
  = (_predict_f (Arr1 [1; 1]) 2 wrappers3, likelihood3_trained)
  /\ predict_f (Arr1 [1; 1]) likelihood3_more
     = (_predict_f (Arr1 [1; 1]) 2 wrappers3, likelihood3_more).
Proof.
  exact (proj1 (@models_after_training_ignored float 0 PrimFloat.add PrimFloat.sub
                  PrimFloat.mul inv unit tt Rbf unit pool_map likelihood3_trained
                  2%nat wrappers3 features3 [1; 1] [3; 5] eq_refl eq_refl eq_refl)
           (Arr1 [1; 1])).
Defined.

(** Arrays of no model: two parameters, one feature bin. *)
Definition likelihood0 : LikelihoodAnalysis float unit :=
  mkLikelihood (mkAnalysis (Some (Matrix 2 [])) (Some (Matrix 1 []))) None None.

Lemma train_defers_interpolators_witness :
  exists self',
    train_f None tt likelihood0 = (Return tt, self')
    /\ (forall point,
          predict_f (Arr1 point) self' = (Raise (ValueError "zero-size array"), self'))
    /\ (forall points,
          predict_f (Arr2 points) self' = (Raise (ValueError "zero-size array"), self')).
Proof.
  apply (@train_defers_interpolators float 0 unit tt Rbf likelihood0
           (Matrix 2 []) (Matrix 1 []) tt 0%nat (ValueError "zero-size array")
           eq_refl eq_refl).
  - simpl. lia.
  - intros k Hk. lia.
  - reflexivity.
Defined.

Lemma add_model_one_by_one_witness :
  exists empty self,
    new_FisherAnalysis None None = Return empty
    /\ for_ [([0; 0], [1; 2]); ([1; 0], [3; 2]); ([0; 1], [1; 5])]
         (fun m (_ : unit) => fisher_inherited (add_model (fst m) (snd m))) tt
         empty
       = (Return tt, self)
    /\ new_FisherAnalysis (Some parameters3) (Some features3) = Return self.
Proof.
  apply (@add_model_one_by_one float [0; 0] [1; 2]
           [([1; 0], [3; 2]); ([0; 1], [1; 5])]).
  repeat constructor.
Defined.


(** One model only. *)
Definition fisher1 : FisherAnalysis float :=
  mkFisher (mkAnalysis (Some (Matrix 2 [[0; 0]])) (Some (Matrix 2 [[1; 2]]))) 0
    None None.

Lemma fisher_needs_two_models_witness :
  compute_derivatives_f fisher1
  = (Raise (AssertionError
              (Some "You need at least 2 models to proceed in a Fisher Analysis!"%string)),
     fisher1)
  /\ fit_f [2; 5] (Some (Arr1 [2; 4])) fisher1
     = (Raise (AssertionError
                 (Some "You need at least 2 models to proceed in a Fisher Analysis!"%string)),
        fisher1).
Proof.
  destruct (@fisher_needs_two_models float 0 1 PrimFloat.add PrimFloat.sub
              PrimFloat.mul PrimFloat.div PrimFloat.eqb solve inv fisher1
              (Matrix 2 [[0; 0]]) (Matrix 2 [[1; 2]]) eq_refl eq_refl
              ltac:(unfold nrows; simpl; lia) eq_refl)
    as (H1 & H2 & _).
  split; [exact H1|].
  apply H2; [reflexivity|now right].
Defined.


Lemma chi2_one_value_per_point_witness :
  length [0; 4; 9; 4] = nrows batch4.
Proof.
  exact (@chi2_one_value_per_point float 0 PrimFloat.add PrimFloat.sub
           PrimFloat.mul inv unit tt Rbf unit pool_map likelihood3 (Arr2 batch4)
           (Some [1; 2]) (Some (Arr2 identity2)) (Some 2%Z) (Some tt)
           [0; 4; 9; 4] eq_refl).
Defined.

End Float64.
